(** * Spreadsheet analysis and chart reconstruction: a shallow embedding

    The development follows [src/lib/excelAnalyzer.ts] (column
    classifier, codebook extraction, column letters, sheet pass of
    [analyzeExcelStructure]) and the chart renderer module (cell
    references, [parseChartXml], [buildChartData]).

    Conventions of the embedding.
    - A JavaScript string is a [string]; each [ascii] stands for one code
      unit, so the texts of the model are those whose code units lie below
      256.  White space, case mapping and the character classes of the
      regular expressions are those of JavaScript on these code units.
    - A JavaScript number is a [jsnum]: NaN, an infinity, or a finite
      value given as a rational.  The numbers that the code computes are
      doubles: [parseFloat] and the arithmetic round to the nearest double,
      a tie going to the even one, and overflow to an infinity.  The sign
      of a zero is not kept.
    - The indices of cell references are [Z]: they stand for the code's
      numbers as long as these are below 2^53, where the arithmetic of
      doubles on integers is exact; the statements that give the value of
      an index, or a result for every range, carry this bound.  Counts and
      array positions are [nat]. *)

From Stdlib Require Import ZArith QArith Qround List String Ascii Bool Lia.
From stdpp Require Import base option list strings pretty gmap.

Local Open Scope Z_scope.

(** ** JavaScript values *)

Module JS.

Inductive jsnum : Type :=
| NaN
| Infinity (negative : bool)
| Finite (q : Q).

Definition isNaN (n : jsnum) : bool :=
  match n with NaN => true | _ => false end.

Definition isFinite (n : jsnum) : bool :=
  match n with Finite _ => true | _ => false end.

(** [Number.isInteger] *)
Definition isInteger (n : jsnum) : bool :=
  match n with
  | Finite q => Pos.eqb (Qden (Qred q)) 1
  | _ => false
  end.

(** The equality of [Set] membership (SameValueZero): one zero, and NaN
    equal to itself. *)
Definition sameValueZero (a b : jsnum) : bool :=
  match a, b with
  | NaN, NaN => true
  | Infinity x, Infinity y => Bool.eqb x y
  | Finite p, Finite q => Qeq_bool p q
  | _, _ => false
  end.

Definition ofZ (z : Z) : jsnum := Finite (inject_Z z).

(** A cell of a sheet grid as [sheet_to_json] delivers it ([any]). *)
Inductive value : Type :=
| Null
| Undefined
| Num (n : jsnum)
| Str (s : string)
| Boolean (b : bool)
| Date (time : jsnum).

(** ToBoolean *)
Definition truthy (v : value) : bool :=
  match v with
  | Null | Undefined => false
  | Num NaN => false
  | Num (Infinity _) => true
  | Num (Finite q) => negb (Qeq_bool q 0)
  | Str s => negb (String.eqb s "")
  | Boolean b => b
  | Date _ => true
  end.

(** *** Characters *)

Definition code (c : ascii) : Z := Z.of_nat (nat_of_ascii c).

Definition fromCharCode (z : Z) : ascii := ascii_of_nat (Z.to_nat z).

Definition isDigit (c : ascii) : bool := (48 <=? code c) && (code c <=? 57).

Definition isUpper (c : ascii) : bool := (65 <=? code c) && (code c <=? 90).

Definition isLower (c : ascii) : bool := (97 <=? code c) && (code c <=? 122).

(** [[A-Z]] under the [i] flag, and [[a-z]] under the [i] flag. *)
Definition isLetter (c : ascii) : bool := isUpper c || isLower c.

(** [\s], which is also what [trim] and [parseFloat] skip: TAB, LF, VT, FF,
    CR, space and the no-break space (code unit 160). *)
Definition isWhiteSpace (c : ascii) : bool :=
  ((9 <=? code c) && (code c <=? 13)) || (code c =? 32) || (code c =? 160).

(** What [.] refuses to match. *)
Definition isLineTerminator (c : ascii) : bool :=
  (code c =? 10) || (code c =? 13).

(** The capital and the small letters above the ASCII range: code units
    192 to 222 and 224 to 254, without the signs at 215 and 247. *)
Definition isUpperLatin (c : ascii) : bool :=
  (192 <=? code c) && (code c <=? 222) && negb (code c =? 215).

Definition isLowerLatin (c : ascii) : bool :=
  (224 <=? code c) && (code c <=? 254) && negb (code c =? 247).

(** The case mappings of one code unit.  Three small letters (181, 223
    and 255) have capitals outside the code units of the model; the code
    applies [toUpperCase] to ASCII letters only. *)
Definition upperChar (c : ascii) : ascii :=
  if isLower c || isLowerLatin c then fromCharCode (code c - 32) else c.

Definition lowerChar (c : ascii) : ascii :=
  if isUpper c || isUpperLatin c then fromCharCode (code c + 32) else c.

(** *** Strings *)

Fixpoint mapString (f : ascii -> ascii) (s : string) : string :=
  match s with
  | EmptyString => EmptyString
  | String c r => String (f c) (mapString f r)
  end.

Fixpoint filterString (p : ascii -> bool) (s : string) : string :=
  match s with
  | EmptyString => EmptyString
  | String c r => if p c then String c (filterString p r) else filterString p r
  end.

Fixpoint allString (p : ascii -> bool) (s : string) : bool :=
  match s with
  | EmptyString => true
  | String c r => p c && allString p r
  end.

(** The longest prefix whose characters satisfy [p], and the rest. *)
Fixpoint span (p : ascii -> bool) (s : string) : string * string :=
  match s with
  | EmptyString => (EmptyString, EmptyString)
  | String c r =>
      if p c then let '(a, b) := span p r in (String c a, b)
      else (EmptyString, s)
  end.

Definition toUpperCase : string -> string := mapString upperChar.
Definition toLowerCase : string -> string := mapString lowerChar.

Definition isEmpty (s : string) : bool :=
  match s with EmptyString => true | _ => false end.

(** [s] without the prefix [p], when it starts with it. *)
Fixpoint stripPrefix (p s : string) : option string :=
  match p with
  | EmptyString => Some s
  | String a p' =>
      match s with
      | String b s' => if Ascii.eqb a b then stripPrefix p' s' else None
      | EmptyString => None
      end
  end.

(** [s.startsWith(p)] *)
Definition startsWith (p s : string) : bool :=
  match stripPrefix p s with Some _ => true | None => false end.

(** The first occurrence of the literal [lit]: the text before it and the
    text after it. *)
Fixpoint findLit (lit s : string) : option (string * string) :=
  match stripPrefix lit s with
  | Some rest => Some (EmptyString, rest)
  | None =>
      match s with
      | EmptyString => None
      | String c r =>
          match findLit lit r with
          | Some (b, a) => Some (String c b, a)
          | None => None
          end
      end
  end.

(** [s.includes(lit)] *)
Definition includes (lit s : string) : bool :=
  match findLit lit s with Some _ => true | None => false end.

Fixpoint trimStart (s : string) : string :=
  match s with
  | String c r => if isWhiteSpace c then trimStart r else s
  | EmptyString => EmptyString
  end.

(** Removal of trailing white space: a character is kept when something
    that is not white space follows or it is not white space itself. *)
Fixpoint trimEnd (s : string) : string :=
  match s with
  | EmptyString => EmptyString
  | String c r =>
      match trimEnd r with
      | EmptyString => if isWhiteSpace c then EmptyString else String c EmptyString
      | r' => String c r'
      end
  end.

Definition trim (s : string) : string := trimEnd (trimStart s).

(** *** Doubles *)

(** The integer nearest to [num / den], a half going to the even one. *)
Definition roundHalfEven (num : Z) (den : positive) : Z :=
  let q := num / Z.pos den in
  let r := num mod Z.pos den in
  match 2 * r ?= Z.pos den with
  | Lt => q
  | Gt => q + 1
  | Eq => if Z.even q then q else q + 1
  end.

(** Doubles are counted in units of [2 ^ -1074], the least positive
    double: every finite double is a whole number of units.  A real of
    [x] units with [2 ^ e <= x < 2 ^ (e + 1)] lies between two doubles
    that are [2 ^ (e - 52)] units apart, and one unit apart when [e] is
    below 52.  [binade a b] is that [e], or 52 if it is less, for
    [x = a / b]. *)
Definition binade (a : Z) (b : positive) : Z :=
  let d := Z.log2 a - Z.log2 (Z.pos b) in
  Z.max (if Z.pos b * 2 ^ d <=? a then d else d - 1) 52.

(** The double nearest to [a / b], with the sign [neg]: with [u] the
    exponent of the distance, the value is [n] times [2 ^ u] units, where
    [n] is [a / b] divided by [2 ^ (u - 1074)] and rounded; what reaches
    [2 ^ 1024], which is [2 ^ 2098] units, is an infinity. *)
Definition roundPositive (neg : bool) (a b : positive) : jsnum :=
  let u := binade (Z.pos a * 2 ^ 1074) b - 52 in
  let n := roundHalfEven (Z.pos a * 2 ^ Z.max (1074 - u) 0)
             (Z.to_pos (Z.pos b * 2 ^ Z.max (u - 1074) 0)) in
  if 2 ^ 2098 <=? n * 2 ^ u then Infinity neg
  else Finite (Qred (Qmake ((if neg then - n else n) * 2 ^ Z.max (u - 1074) 0)
                           (Z.to_pos (2 ^ Z.max (1074 - u) 0)))).

(** The number that a real value becomes when it is stored. *)
Definition roundDouble (q : Q) : jsnum :=
  match Qnum q with
  | Z0 => Finite 0
  | Z.pos a => roundPositive false a (Qden q)
  | Z.neg a => roundPositive true a (Qden q)
  end.

(** *** parseInt and parseFloat *)

Definition digitVal (c : ascii) : Z := code c - 48.

(** The value of a run of decimal digits, most significant first. *)
Fixpoint digitsValue (acc : Z) (s : string) : Z :=
  match s with
  | EmptyString => acc
  | String c r => digitsValue (acc * 10 + digitVal c) r
  end.

(** [parseInt] on the text captured by [(\d+)]: the value of the digits,
    which is the code's number as long as it is below 2^53. *)
Definition parseIntDigits (s : string) : Z := digitsValue 0 s.

(** An optional sign: whether it is a minus, and the rest. *)
Definition signOf (s : string) : bool * string :=
  match s with
  | String c r =>
      if Ascii.eqb c "+" then (false, r)
      else if Ascii.eqb c "-" then (true, r)
      else (false, s)
  | EmptyString => (false, s)
  end.

(** An optional fraction: the digits after the point, and the rest. *)
Definition fractionOf (s : string) : string * string :=
  match s with
  | String c r => if Ascii.eqb c "." then span isDigit r else (EmptyString, s)
  | EmptyString => (EmptyString, s)
  end.

(** The exponent part [e], [e+], [e-] followed by digits; absent or
    incomplete, it contributes nothing. *)
Definition exponentOf (s : string) : Z :=
  match s with
  | String c r =>
      if (Ascii.eqb c "e" || Ascii.eqb c "E")%bool then
        let '(neg, r1) := signOf r in
        let '(ds, _) := span isDigit r1 in
        if isEmpty ds then 0
        else if neg then - digitsValue 0 ds else digitsValue 0 ds
      else 0
  | EmptyString => 0
  end.

(** [parseFloat]: leading white space skipped, then the longest prefix that
    is a decimal literal (sign, [Infinity] or digits with an optional
    fraction and exponent); NaN when there is none.  The value of the
    literal is rounded to a double. *)
Definition parseFloat (input : string) : jsnum :=
  let '(neg, s1) := signOf (trimStart input) in
  if startsWith "Infinity" s1 then Infinity neg
  else
    let '(ip, s2) := span isDigit s1 in
    let '(fp, s3) := fractionOf s2 in
    if isEmpty ip && isEmpty fp then NaN
    else
      let m := digitsValue 0 (ip +:+ fp) in
      let e := exponentOf s3 - Z.of_nat (String.length fp) in
      roundDouble (inject_Z (if neg then - m else m) * Qpower (10 # 1) e).

End JS.

Import JS.

(** ** Column letters *)

(** [getColumnLetter], the loop: [fuel] bounds the number of turns. *)
Fixpoint getColumnLetter_loop (fuel : nat) (index : Z) (letter : string) : string :=
  match fuel with
  | O => letter
  | S fuel' =>
      if 0 <=? index then
        getColumnLetter_loop fuel' (index / 26 - 1)
          (String (fromCharCode (index mod 26 + 65)) letter)
      else letter
  end.

(** Each turn maps [index] to [index / 26 - 1], which is smaller, so
    [index + 1] turns are enough (see [getColumnLetter_loop_fuel]). *)
Definition getColumnLetter (index : Z) : string :=
  getColumnLetter_loop (Z.to_nat (index + 1)) index "".

Fixpoint colToNum_loop (upper : string) (num : Z) : Z :=
  match upper with
  | EmptyString => num
  | String c r => colToNum_loop r (num * 26 + (code c - 64))
  end.

Definition colToNum (col : string) : Z :=
  colToNum_loop (toUpperCase col) 0 - 1.

(** ** Cell references *)

Record CellReference : Type := {
  sheet : option string;
  range : string
}.

(** [/^'([^']+)'!(.+)$/]: the quoted sheet name and what follows the
    exclamation mark. *)
Definition quotedMatch (ref : string) : option (string * string) :=
  match ref with
  | String "'" r =>
      let '(name, r1) := span (fun c => negb (Ascii.eqb c "'")) r in
      if isEmpty name then None
      else
        match stripPrefix "'!" r1 with
        | Some rest =>
            if negb (isEmpty rest) && allString (fun c => negb (isLineTerminator c)) rest
            then Some (name, rest)
            else None
        | None => None
        end
  | _ => None
  end.

(** [s.split(sep)] for a one-character separator. *)
Fixpoint split (sep : ascii) (s : string) : list string :=
  match s with
  | EmptyString => [EmptyString]
  | String c r =>
      if Ascii.eqb c sep then EmptyString :: split sep r
      else
        match split sep r with
        | h :: t => String c h :: t
        | [] => [String c EmptyString]
        end
  end.

Definition parseCellReference (ref : string) : CellReference :=
  match quotedMatch ref with
  | Some (name, rest) => {| sheet := Some name; range := rest |}
  | None =>
      match split "!" ref with
      | [a; b] => {| sheet := Some a; range := b |}
      | _ => {| sheet := None; range := ref |}
      end
  end.

Record ParsedRange : Type := {
  startCol : Z; startRow : Z;
  endCol : Z; endRow : Z;
  isSingleCell : bool
}.

(** [([A-Z]+)(\d+)] under the [i] flag at the start of [s]: the letters,
    the digits and the rest. *)
Definition cellPattern (s : string) : option (string * string * string) :=
  let '(letters, r) := span isLetter s in
  let '(digits, rest) := span isDigit r in
  if isEmpty letters || isEmpty digits then None
  else Some (letters, digits, rest).

(** [/^([A-Z]+)(\d+):([A-Z]+)(\d+)$/i] *)
Definition rangeMatch (cleaned : string) : option (string * string * string * string) :=
  match cellPattern cleaned with
  | Some (c1, r1, String ":" rest) =>
      match cellPattern rest with
      | Some (c2, r2, EmptyString) => Some (c1, r1, c2, r2)
      | _ => None
      end
  | _ => None
  end.

(** [/^([A-Z]+)(\d+)$/i] *)
Definition cellMatch (cleaned : string) : option (string * string) :=
  match cellPattern cleaned with
  | Some (c, r, EmptyString) => Some (c, r)
  | _ => None
  end.

Definition parseRange (range : string) : option ParsedRange :=
  let cleaned := filterString (fun c => negb (Ascii.eqb c "$")) range in
  match rangeMatch cleaned with
  | Some (c1, r1, c2, r2) =>
      Some {| startCol := colToNum c1; startRow := parseIntDigits r1 - 1;
              endCol := colToNum c2; endRow := parseIntDigits r2 - 1;
              isSingleCell := false |}
  | None =>
      match cellMatch cleaned with
      | Some (c, r) =>
          let col := colToNum c in
          let row := parseIntDigits r - 1 in
          Some {| startCol := col; startRow := row;
                  endCol := col; endRow := row;
                  isSingleCell := true |}
      | None => None
      end
  end.

(** A sheet grid: rows of cells ([any[][]]). *)
Abbreviation Grid := (list (list value)).

(** [arr[i]] on an array: [undefined] outside it. *)
Definition index {A : Type} (arr : list A) (i : Z) : option A :=
  if i <? 0 then None else arr !! Z.to_nat i.

(** [sheetData[row]?.[col]] *)
Definition cellAt (sheetData : Grid) (row col : Z) : value :=
  match index sheetData row with
  | Some r => default Undefined (index r col)
  | None => Undefined
  end.

(** [val != null] *)
Definition notNullish (val : value) : bool :=
  match val with Null | Undefined => false | _ => true end.

(** [val !== null && val !== undefined && val !== ''] *)
Definition present (val : value) : bool :=
  match val with
  | Null | Undefined => false
  | Str EmptyString => false
  | _ => true
  end.

(** [for (i = start; cond(i); i++) body(i)] over a state; [fuel] bounds the
    number of turns. *)
Fixpoint forLoop {S : Type} (fuel : nat) (cond : Z -> bool)
    (body : Z -> S -> S) (i : Z) (st : S) : S :=
  match fuel with
  | O => st
  | S fuel' =>
      if cond i then forLoop fuel' cond body (i + 1) (body i st) else st
  end.

(** The turns of a loop from [lo] that stops above [hi]. *)
Definition turns (lo hi : Z) : nat := Z.to_nat (hi - lo + 1).

Definition pushPresent (val : value) (values : list value) : list value :=
  if present val then values ++ [val] else values.

Definition extractDataFromSheet (sheetData : Grid) (reference : string) : list value :=
  match parseRange (range (parseCellReference reference)) with
  | None => []
  | Some parsed =>
      let len := Z.of_nat (length sheetData) in
      if isSingleCell parsed then
        let v := cellAt sheetData (startRow parsed) (startCol parsed) in
        if notNullish v then [v] else []
      else if startCol parsed =? endCol parsed then
        forLoop (turns (startRow parsed) (endRow parsed))
          (fun row => (row <=? endRow parsed) && (row <? len))
          (fun row => pushPresent (cellAt sheetData row (startCol parsed)))
          (startRow parsed) []
      else if startRow parsed =? endRow parsed then
        forLoop (turns (startCol parsed) (endCol parsed))
          (fun col => col <=? endCol parsed)
          (fun col => pushPresent (cellAt sheetData (startRow parsed) col))
          (startCol parsed) []
      else
        forLoop (turns (startCol parsed) (endCol parsed))
          (fun col => col <=? endCol parsed)
          (fun col values =>
             forLoop (turns (startRow parsed) (endRow parsed))
               (fun row => (row <=? endRow parsed) && (row <? len))
               (fun row => pushPresent (cellAt sheetData row col))
               (startRow parsed) values)
          (startCol parsed) []
  end.

(** ** Chart definition parser *)

Definition dquote : ascii := "034"%char.

(** The matcher of [open([^<]+)close] at the start of [s]: the captured
    text. *)
Definition element (open close s : string) : option string :=
  match stripPrefix open s with
  | Some r =>
      let '(body, r') := span (fun c => negb (Ascii.eqb c "<")) r in
      if isEmpty body then None
      else match stripPrefix close r' with
           | Some _ => Some body
           | None => None
           end
  | None => None
  end.

(** The matcher of a [val] attribute, [tag\s+val=Q([^Q]+)Q] with [Q] the
    double quote, at the start of [s]: the captured value. *)
Definition attrVal (tag s : string) : option string :=
  match stripPrefix tag s with
  | Some r =>
      let '(ws, r1) := span isWhiteSpace r in
      if isEmpty ws then None
      else
        match stripPrefix ("val=" +:+ String dquote "") r1 with
        | Some r2 =>
            let '(v, r3) := span (fun c => negb (Ascii.eqb c dquote)) r2 in
            if isEmpty v then None
            else match r3 with
                 | String c _ => if Ascii.eqb c dquote then Some v else None
                 | EmptyString => None
                 end
        | None => None
        end
  | None => None
  end.

(** [s.match(re)] for a pattern that starts anywhere: the leftmost position
    at which the matcher succeeds. *)
Fixpoint searchFirst {A : Type} (m : string -> option A) (s : string) : option A :=
  match m s with
  | Some a => Some a
  | None =>
      match s with
      | EmptyString => None
      | String _ r => searchFirst m r
      end
  end.

(** [lit[\s\S]*?rest]: the continuation runs on what follows the first
    occurrence of [lit]. *)
Definition afterFirst {A : Type} (lit : string) (k : string -> option A)
    (s : string) : option A :=
  match findLit lit s with
  | Some (_, rest) => k rest
  | None => None
  end.

Inductive ChartKind : Type := bar | line | pie | doughnut | scatter | area | radar.

Record SeriesRef : Type := {
  name : option string;
  valueRef : string;
  color : option string
}.

Record ParsedChartInfo : Type := {
  chartType : ChartKind;
  horizontal : bool;
  stacked : bool;
  title : option string;
  xAxisTitle : option string;
  yAxisTitle : option string;
  categoryRef : option string;
  seriesRefs : list SeriesRef
}.

(** The first group of [xml.match] on the [val] attribute of
    [<c:barDir]. *)
Definition dirMatch (xml : string) : option string :=
  searchFirst (attrVal "<c:barDir") xml.

Definition isSome_eq (o : option string) (s : string) : bool :=
  match o with Some t => String.eqb t s | None => false end.

Definition detectKind (xml : string) : ChartKind * bool :=
  if includes "<c:barChart" xml then (bar, isSome_eq (dirMatch xml) "bar")
  else if includes "<c:bar3DChart" xml then (bar, isSome_eq (dirMatch xml) "bar")
  else if includes "<c:lineChart" xml || includes "<c:line3DChart" xml then (line, false)
  else if includes "<c:pieChart" xml || includes "<c:pie3DChart" xml then (pie, false)
  else if includes "<c:doughnutChart" xml then (doughnut, false)
  else if includes "<c:scatterChart" xml then (scatter, false)
  else if includes "<c:areaChart" xml || includes "<c:area3DChart" xml then (area, false)
  else if includes "<c:radarChart" xml then (radar, false)
  else (bar, false).

(** One [<c:ser>] block: the reference of the series, unless it has no
    value reference. *)
Definition parseSeries (seriesXml : string) : option SeriesRef :=
  let name := afterFirst "<c:tx>" (searchFirst (element "<c:v>" "</c:v>")) seriesXml in
  let valueRef :=
    match afterFirst "<c:val>" (searchFirst (element "<c:f>" "</c:f>")) seriesXml with
    | Some v => Some v
    | None => afterFirst "<c:yVal>" (searchFirst (element "<c:f>" "</c:f>")) seriesXml
    end in
  let color :=
    match searchFirst (attrVal "<a:srgbClr") seriesXml with
    | Some c => Some ("#" +:+ c)
    | None => None
    end in
  match valueRef with
  | Some v => Some {| name := name; valueRef := v; color := color |}
  | None => None
  end.

(** The [exec] loop over [/<c:ser>([\s\S]*?)<\/c:ser>/g]: each turn consumes
    one block, so the length of the text bounds the turns. *)
Fixpoint seriesLoop (fuel : nat) (xml : string) : list SeriesRef :=
  match fuel with
  | O => []
  | S fuel' =>
      match findLit "<c:ser>" xml with
      | Some (_, r) =>
          match findLit "</c:ser>" r with
          | Some (seriesXml, rest) =>
              match parseSeries seriesXml with
              | Some ref => ref :: seriesLoop fuel' rest
              | None => seriesLoop fuel' rest
              end
          | None => []
          end
      | None => []
      end
  end.

Definition textRun : string -> option string :=
  searchFirst (element "<a:t>" "</a:t>").

Definition parseChartXml (xml : string) : ParsedChartInfo :=
  let '(kind, horiz) := detectKind xml in
  let grouping := searchFirst (attrVal "<c:grouping") xml in
  let title0 := option_map trim (afterFirst "<c:title>" textRun xml) in
  let xTitle := option_map trim (afterFirst "<c:catAx>" (afterFirst "<c:title>" textRun) xml) in
  let yTitle := option_map trim (afterFirst "<c:valAx>" (afterFirst "<c:title>" textRun) xml) in
  let cat := afterFirst "<c:cat>" (searchFirst (element "<c:f>" "</c:f>")) xml in
  let series := seriesLoop (String.length xml) xml in
  let noTitle := match title0 with Some t => isEmpty t | None => true end in
  let title1 :=
    if noTitle then
      match series with
      | {| name := Some n |} :: _ => if isEmpty n then title0 else Some n
      | _ => title0
      end
    else title0 in
  {| chartType := kind;
     horizontal := horiz;
     stacked := isSome_eq grouping "stacked" || isSome_eq grouping "percentStacked";
     title := title1;
     xAxisTitle := xTitle;
     yAxisTitle := yTitle;
     categoryRef := cat;
     seriesRefs := series |}.

(** ** Chart model builder *)

Record Dataset : Type := {
  label : string;
  data : list jsnum;
  dsColor : option string
}.

Record ChartData : Type := {
  cdType : ChartKind;
  cdHorizontal : bool;
  cdStacked : bool;
  cdTitle : option string;
  cdXAxisTitle : option string;
  cdYAxisTitle : option string;
  labels : list string;
  datasets : list Dataset
}.

(** [Math.min(...lengths)] on a list that is not empty *)
Definition minOf (lengths : list nat) : nat :=
  match lengths with
  | [] => O
  | h :: t => fold_left Nat.min t h
  end.

(** The conversions to text that the host performs: [String(n)] on a
    number and [String(d)] on a [Date]. *)
Class Host : Type := {
  Number_toString : jsnum -> string;
  Date_toString : jsnum -> string
}.

Section WithHost.
Context {host : Host}.

(** [String(v)] *)
Definition String_ (v : value) : string :=
  match v with
  | Null => "null"
  | Undefined => "undefined"
  | Num n => Number_toString n
  | Str s => s
  | Boolean true => "true"
  | Boolean false => "false"
  | Date t => Date_toString t
  end.

(** The conversion of one extracted value in [buildChartData]. *)
Definition toNumber (v : value) : jsnum :=
  match v with
  | Null | Undefined => NaN
  | Str EmptyString => NaN
  | Num n => n
  | _ => parseFloat (String_ v)
  end.

(** [n => !isNaN(n) && isFinite(n)] *)
Definition validNumber (n : jsnum) : bool := negb (isNaN n) && isFinite n.

(** The dataset of one series before the lengths are normalised. *)
Definition seriesDataset (sheetData : Grid) (series : SeriesRef) : Dataset :=
  let rawData := extractDataFromSheet sheetData (valueRef series) in
  {| label := match name series with
              | Some n => if isEmpty n then "Series" else n
              | None => "Series"
              end;
     data := List.filter validNumber (map toNumber rawData);
     dsColor := color series |}.

Definition truncateTo (dataLength : nat) (ds : Dataset) : Dataset :=
  {| label := label ds; data := take dataLength (data ds); dsColor := dsColor ds |}.

(** The labels of the category reference, when there is one. *)
Definition resolveLabels (parsed : ParsedChartInfo) (sheetData : Grid) : list string :=
  match categoryRef parsed with
  | Some ref =>
      if isEmpty ref then []
      else map String_ (extractDataFromSheet sheetData ref)
  | None => []
  end.

(** The datasets of the series, without those that hold no number. *)
Definition resolveDatasets (parsed : ParsedChartInfo) (sheetData : Grid) : list Dataset :=
  List.filter (fun ds => negb (Nat.eqb (length (data ds)) 0))
    (map (seriesDataset sheetData) (seriesRefs parsed)).

Definition buildChartData (chartXml : string) (sheetData : Grid) : option ChartData :=
  let parsed := parseChartXml chartXml in
  let labels0 := resolveLabels parsed sheetData in
  let datasets0 := resolveDatasets parsed sheetData in
  match datasets0 with
  | [] => None
  | _ =>
      let dataLength := minOf (map (fun ds => length (data ds)) datasets0) in
      let datasets1 := map (truncateTo dataLength) datasets0 in
      let labels1 :=
        if Nat.eqb (length labels0) 0
        then map (fun i : nat => pretty (Z.of_nat i + 1)) (seq 0 dataLength)
        else take dataLength labels0 in
      Some {| cdType := chartType parsed;
              cdHorizontal := horizontal parsed;
              cdStacked := stacked parsed;
              cdTitle := title parsed;
              cdXAxisTitle := xAxisTitle parsed;
              cdYAxisTitle := yAxisTitle parsed;
              labels := labels1;
              datasets := datasets1 |}
  end.

End WithHost.

(** ** Column type classifier *)

Inductive RawColumnType : Type := numeric | categorical | text | date | boolean.

Definition CATEGORICAL_MAX_UNIQUE : nat := 20.

(** The result of [detectColumnType]: the type and the optional
    [uniqueCount]. *)
Record Detected : Type := {
  detectedType : RawColumnType;
  uniqueCount : option nat
}.

(** One character of the input expected at the start. *)
Definition lit (c : ascii) (s : string) : option string :=
  match s with
  | String d r => if Ascii.eqb c d then Some r else None
  | EmptyString => None
  end.

(** [\d{lo,hi}] at the start, followed by something that is not a digit. *)
Definition digitsBetween (lo hi : nat) (s : string) : option string :=
  let '(ds, rest) := span isDigit s in
  if Nat.leb lo (String.length ds) && Nat.leb (String.length ds) hi
  then Some rest else None.

(** The items of a pattern one after the other, then [$]. *)
Fixpoint matchSeq (items : list (string -> option string)) (s : string) : bool :=
  match items with
  | [] => isEmpty s
  | m :: items' =>
      match m s with
      | Some rest => matchSeq items' rest
      | None => false
      end
  end.

Definition monthNames : list string :=
  ["jan"; "feb"; "mar"; "apr"; "may"; "jun"; "jul"; "aug"; "sep"; "oct"; "nov"; "dec"].

Definition isDateString (str : string) : bool :=
  let t := trim str in
  matchSeq [digitsBetween 4 4; lit "-"; digitsBetween 2 2; lit "-"; digitsBetween 2 2] t
  || matchSeq [digitsBetween 2 2; lit "/"; digitsBetween 2 2; lit "/"; digitsBetween 4 4] t
  || matchSeq [digitsBetween 2 2; lit "-"; digitsBetween 2 2; lit "-"; digitsBetween 4 4] t
  || matchSeq [digitsBetween 1 2; lit "/"; digitsBetween 1 2; lit "/"; digitsBetween 2 4] t
  || existsb (fun m => startsWith m (toLowerCase t)) monthNames.

(** [[,$%]] *)
Definition isSymbol (c : ascii) : bool :=
  Ascii.eqb c "," || Ascii.eqb c "$" || Ascii.eqb c "%".

(** [val.replace(/[,$%]/g, '')] *)
Definition stripSymbols (val : string) : string :=
  filterString (fun c => negb (isSymbol c)) val.

(** [val.replace(/[,$%\s]/g, '')] *)
Definition stripSymbolsAndSpace (val : string) : string :=
  filterString (fun c => negb (isSymbol c || isWhiteSpace c)) val.

Definition extractNumericValue (val : value) : option jsnum :=
  match val with
  | Num n => if negb (isNaN n) then Some n else None
  | Str s =>
      let num := parseFloat (stripSymbolsAndSpace s) in
      if negb (isNaN num) then Some num else None
  | _ => None
  end.

Record Counts : Type := {
  numericCount : nat;
  dateCount : nat;
  booleanCount : nat;
  textCount : nat
}.

Inductive Category : Type := CatNumeric | CatDate | CatBoolean | CatText.

(** The branch that the counting loop takes on one value. *)
Definition categoryOf (val : value) : Category :=
  match val with
  | Boolean _ => CatBoolean
  | Str s =>
      if String.eqb s "true" || String.eqb s "false"
         || String.eqb s "TRUE" || String.eqb s "FALSE" then CatBoolean
      else
        let num := parseFloat (stripSymbols s) in
        if negb (isNaN num) && negb (isEmpty (trim s)) then CatNumeric
        else if isDateString s then CatDate
        else CatText
  | Num n => if negb (isNaN n) then CatNumeric else CatText
  | Date _ => CatDate
  | Null | Undefined => CatText
  end.

Definition count (c : Counts) (val : value) : Counts :=
  match categoryOf val with
  | CatBoolean =>
      {| numericCount := numericCount c; dateCount := dateCount c;
         booleanCount := S (booleanCount c); textCount := textCount c |}
  | CatNumeric =>
      {| numericCount := S (numericCount c); dateCount := dateCount c;
         booleanCount := booleanCount c; textCount := textCount c |}
  | CatDate =>
      {| numericCount := numericCount c; dateCount := S (dateCount c);
         booleanCount := booleanCount c; textCount := textCount c |}
  | CatText =>
      {| numericCount := numericCount c; dateCount := dateCount c;
         booleanCount := booleanCount c; textCount := S (textCount c) |}
  end.

(** [count / total >= 0.8], the quotient taken exactly.  For the counts
    of a sample the quotient of doubles compares with the double [0.8]
    the same way: both are roundings of the exact values, and a quotient
    [k / n] below four fifths is at least [1 / (5 n)] away from it. *)
Definition reaches (cnt total : nat) : bool :=
  Qle_bool (8 # 10) (Z.of_nat cnt # Pos.of_nat total).

(** [new Set(list)], in insertion order *)
Definition setAdd (s : list jsnum) (n : jsnum) : list jsnum :=
  if existsb (sameValueZero n) s then s else s ++ [n].

Definition newSet (l : list jsnum) : list jsnum := fold_left setAdd l [].

(** [allValues.map(extractNumericValue).filter(n => n !== null)] *)
Definition numericValues (allValues : list value) : list jsnum :=
  omap extractNumericValue allValues.

Definition detectColumnType (values allValues : list value) : Detected :=
  let nonNullValues := List.filter present values in
  match nonNullValues with
  | [] => {| detectedType := text; uniqueCount := None |}
  | _ =>
      let c := fold_left count nonNullValues
                 {| numericCount := 0; dateCount := 0; booleanCount := 0; textCount := 0 |} in
      let total := length nonNullValues in
      if reaches (booleanCount c) total then {| detectedType := boolean; uniqueCount := None |}
      else if reaches (dateCount c) total then {| detectedType := date; uniqueCount := None |}
      else if reaches (textCount c) total then {| detectedType := text; uniqueCount := None |}
      else if reaches (numericCount c) total then
        let uniqueNums := newSet (numericValues allValues) in
        let uniqueCount := length uniqueNums in
        if Nat.leb uniqueCount CATEGORICAL_MAX_UNIQUE && forallb isInteger uniqueNums
        then {| detectedType := categorical; uniqueCount := Some uniqueCount |}
        else {| detectedType := numeric; uniqueCount := Some uniqueCount |}
      else {| detectedType := text; uniqueCount := None |}
  end.

(** ** Codebook extraction and the sheet pass *)

Record ColumnInfo : Type := {
  header : string;
  type : RawColumnType;
  uniqueValues : option nat
}.

(** The fields of a sheet summary that the sheet pass fills from the
    classifier; [stats] and [sample] are left out. *)
Record ExcelSheetSummary : Type := {
  sheetName : string;
  rowCount : nat;
  columns : gmap string ColumnInfo
}.

Record ExcelWorkbookSummary : Type := {
  workbook : string;
  sheets : list ExcelSheetSummary;
  codebook : option (gmap string string)
}.

Definition DESCRIPTION_SHEET_NAMES : list string :=
  ["description"; "codebook"; "codes"; "legend"; "metadata"; "info"; "variables"].

(** [DESCRIPTION_SHEET_PATTERNS.some(p => p.test(sheetName))]: each pattern
    is one word between [^] and [$] under the [i] flag. *)
Definition isDescriptionSheet (sheetName : string) : bool :=
  existsb (String.eqb (toLowerCase sheetName)) DESCRIPTION_SHEET_NAMES.

(** [/^column\s*[a-z]$/i] *)
Definition columnLetterPattern (s : string) : bool :=
  match stripPrefix "column" (toLowerCase s) with
  | Some r =>
      match snd (span isWhiteSpace r) with
      | String c EmptyString => isLetter c
      | _ => false
      end
  | None => false
  end.

(** [codebook[key] = text] on an object literal: the key [__proto__] is the
    inherited accessor, which ignores a string. *)
Definition objSet (key text : string) (codebook : gmap string string) : gmap string string :=
  if String.eqb key "__proto__" then codebook else <[key := text]> codebook.

(** [filename.replace(/\.(xlsx|xls|csv)$/i, '')] *)
Fixpoint stripExtension (filename : string) : string :=
  match filename with
  | EmptyString => EmptyString
  | String c r =>
      if existsb (String.eqb (toLowerCase filename)) [".xlsx"; ".xls"; ".csv"]
      then EmptyString
      else String c (stripExtension r)
  end.

(** [row[idx]] *)
Definition cellOf (row : list value) (idx : nat) : value :=
  default Undefined (row !! idx).

(** A workbook as [XLSX.read] presents it: the sheets in the order of
    [SheetNames], each with the grid of [sheet_to_json]. *)
Abbreviation Workbook := (list (string * Grid)).

Section Analyzer.
Context {host : Host}.

(** [String(cell || '').trim()], which is also
    [cell ? String(cell).trim() : '']. *)
Definition cellText (cell : value) : string :=
  if truthy cell then trim (String_ cell) else "".

Definition codebookRow (codebook : gmap string string) (row : list value) : gmap string string :=
  if Nat.ltb (length row) 2 then codebook
  else
    let firstCell := cellText (cellOf row 0) in
    let secondCell := cellText (cellOf row 1) in
    let thirdCell := cellText (cellOf row 2) in
    if includes "column" (toLowerCase firstCell) && includes "variable" (toLowerCase secondCell)
    then codebook
    else if columnLetterPattern firstCell && negb (isEmpty secondCell) then
      objSet secondCell (if isEmpty thirdCell then secondCell else thirdCell) codebook
    else if negb (isEmpty firstCell) && negb (isEmpty secondCell)
            && negb (startsWith "column" (toLowerCase firstCell)) then
      objSet firstCell secondCell codebook
    else codebook.

Definition extractCodebook (data : Grid) : option (gmap string string) :=
  if Nat.ltb (length data) 2 then None
  else
    let codebook := fold_left codebookRow data ∅ in
    if Nat.ltb 0 (size codebook) then Some codebook else None.

(** First pass: the codebook of the last sheet with a description name. *)
Definition findCodebook (wb : Workbook) : option (gmap string string) :=
  fold_left
    (fun codebook '(sheetName, data) =>
       if isDescriptionSheet sheetName then extractCodebook data else codebook)
    wb None.

Definition headersOf (headerRow : list value) : list string :=
  imap (fun idx cell =>
          if present cell then trim (String_ cell)
          else "Column " +:+ pretty (Z.of_nat idx + 1))
       headerRow.

Definition nonEmptyColumnIndices (headers : list string) (dataRows : Grid) : list nat :=
  List.filter (fun idx => existsb (fun row => present (cellOf row idx)) dataRows)
    (seq 0 (length headers)).

Definition SAMPLE_SIZE : nat := 100.

Definition columnInfo (headers : list string) (dataRows : Grid) (colIdx : nat) : ColumnInfo :=
  let colName := default "" (headers !! colIdx) in
  let sampleValues := map (fun row => cellOf row colIdx) (take SAMPLE_SIZE dataRows) in
  let allValues := map (fun row => cellOf row colIdx) dataRows in
  let d := detectColumnType sampleValues allValues in
  {| header := colName; type := detectedType d; uniqueValues := uniqueCount d |}.

(** Second pass on one sheet: its summary, or nothing when it is skipped. *)
Definition analyzeSheet (sheetName : string) (data : Grid) : option ExcelSheetSummary :=
  if Nat.ltb (length data) 2 then None
  else
    let headers := headersOf (default [] (head data)) in
    let dataRows := drop 1 data in
    let cols := nonEmptyColumnIndices headers dataRows in
    match cols with
    | [] => None
    | _ =>
        Some {| sheetName := sheetName;
                rowCount := length (List.filter (existsb present) dataRows);
                columns :=
                  fold_left
                    (fun columns colIdx =>
                       <[getColumnLetter (Z.of_nat colIdx) := columnInfo headers dataRows colIdx]> columns)
                    cols ∅ |}
    end.

(** [analyzeExcelStructure] up to the summary of the sheets: the thrown
    error on the left.  The charts and their usage counters are added to
    the result after this point by the renderer and the vision service. *)
Definition analyzeExcelStructure (wb : Workbook) (filename : string)
    : string + ExcelWorkbookSummary :=
  let workbookName :=
    let n := stripExtension filename in
    if isEmpty n then "Workbook" else n in
  let codebook := findCodebook wb in
  let sheets := omap (fun '(sheetName, data) => analyzeSheet sheetName data) wb in
  match sheets with
  | [] => inl "No valid sheets found in workbook"
  | _ => inr {| workbook := workbookName; sheets := sheets; codebook := codebook |}
  end.

End Analyzer.

(** ** Reference formulations

    Definitions that follow the wording of the specification; the
    theorems below compare them with the functions above. *)

(** The indices [lo], [lo + 1], ... : [n] of them. *)
Fixpoint zrangeFrom (lo : Z) (n : nat) : list Z :=
  match n with
  | O => []
  | S n' => lo :: zrangeFrom (lo + 1) n'
  end.

(** The indices from [lo] to [hi], both included. *)
Definition zrange (lo hi : Z) : list Z := zrangeFrom lo (Z.to_nat (hi - lo + 1)).

(** The greatest integer below which every integer is a double, and
    the ranges whose four indices do not exceed it: on them the code
    computes with the indices themselves. *)
Definition MAX_SAFE_INTEGER : Z := 2 ^ 53 - 1.

Definition safeRange (p : ParsedRange) : Prop :=
  startCol p <= MAX_SAFE_INTEGER /\ endCol p <= MAX_SAFE_INTEGER /\
  startRow p <= MAX_SAFE_INTEGER /\ endRow p <= MAX_SAFE_INTEGER.

(** The cells of a range column by column, each column from its first row
    to its last row, the blank cells left out. *)
Definition columnMajorValues (sheetData : Grid) (p : ParsedRange) : list value :=
  flat_map
    (fun col =>
       List.filter present
         (map (fun row => cellAt sheetData row col) (zrange (startRow p) (endRow p))))
    (zrange (startCol p) (endCol p)).

(** The direction attribute of a bar chart as the chart part writes it:
    the tag, one space, and the value between double quotes. *)
Definition barDirAttr (v : string) : string :=
  "<c:barDir val=" +:+ String dquote v +:+ String dquote "".

(** A direction attribute with the value [v] at the start of [s], in the
    form that the parser reads: the tag [<c:barDir], white space, [val=]
    and the value between double quotes; the value is not empty and holds
    no double quote. *)
Definition directionAt (s v : string) : Prop :=
  exists ws rest : string,
    s = "<c:barDir" +:+ ws +:+ "val=" +:+ String dquote v +:+ String dquote rest /\
    ws <> "" /\ allString isWhiteSpace ws = true /\
    v <> "" /\ allString (fun c => negb (Ascii.eqb c dquote)) v = true.

(** The direction of a text is the value of its first such attribute. *)
Definition directionOf (xml v : string) : Prop :=
  exists pre s : string,
    xml = pre +:+ s /\ directionAt s v /\
    forall pre' s' v' : string,
      xml = pre' +:+ s' -> (String.length pre' < String.length pre)%nat ->
      ~ directionAt s' v'.

(** A direction attribute as a chart part may write it: the value between
    double quotes or between single quotes. *)
Definition quotedDirection (xml v : string) : Prop :=
  exists (pre post : string) (q : ascii),
    (q = dquote \/ q = "'"%char) /\
    xml = pre +:+ "<c:barDir val=" +:+ String q v +:+ String q post.

(** The text has no direction attribute of this form. *)
Definition noDirection (xml : string) : Prop :=
  forall pre s v : string, xml = pre +:+ s -> ~ directionAt s v.

(** The text holds the tag of a bar chart, flat or 3-D. *)
Definition hasBarChartTag (xml : string) : bool :=
  includes "<c:barChart" xml || includes "<c:bar3DChart" xml.

(** A value that is numeric-like: a native number, or a string that still
    parses as a number once the characters [,], [$] and [%] are removed. *)
Definition numericLike (v : value) : bool :=
  match v with
  | Num n => negb (isNaN n)
  | Str s => negb (isNaN (parseFloat (stripSymbols s)))
  | _ => false
  end.



(** The no-break space. *)
Definition nbsp : ascii := "160"%char.

(** A column row written with no-break spaces. *)
Definition spacedAgeRow : list value :=
  [Str ("Column" +:+ String nbsp "B"); Str ("Age" +:+ String nbsp "")].

(** A horizontal bar chart whose direction attribute is written after a
    tab, a line feed and a space. *)
Definition spacedBarXml : string :=
  "<c:plotArea><c:barChart><c:barDir" +:+ String "009" (String "010" " ")
  +:+ "val=" +:+ String dquote "bar" +:+ String dquote "/></c:barChart>".

(** A column of codes with a repeated value, written as numbers and as
    texts, one of them with more digits than a double holds; and a column
    with a fraction. *)
Definition codeColumn : list value :=
  [Num (ofZ 1); Str "2"; Num (ofZ 2); Str " 3 "; Str "1.0000000000000000000001"].


(** ** Auxiliary notions of the proofs *)

Definition sumCounts (c : Counts) : nat :=
  (numericCount c + dateCount c + booleanCount c + textCount c)%nat.

Definition startsWithDigit (s : string) : bool :=
  match s with String c _ => isDigit c | EmptyString => false end.

(** The text starts a decimal literal (the sign apart): [Infinity], a
    digit, or a point followed by a digit. *)
Definition startsNumber (s : string) : bool :=
  startsWith "Infinity" s
  || startsWithDigit s
  || match s with
     | String c r => Ascii.eqb c "." && startsWithDigit r
     | EmptyString => false
     end.

Definition notWhiteSpace (c : ascii) : bool := negb (isWhiteSpace c).

(** Membership and distinctness of numbers under [sameValueZero]. *)
Definition memNum (x : jsnum) (l : list jsnum) : bool := existsb (sameValueZero x) l.

Fixpoint distinctNums (l : list jsnum) : bool :=
  match l with
  | [] => true
  | x :: r => negb (memNum x r) && distinctNums r
  end.

(** [n] is the number of distinct values of [l]: the length of a list
    without repetition that holds the same numbers. *)
Definition isDistinctCount (n : nat) (l : list jsnum) : Prop :=
  exists u : list jsnum,
    distinctNums u = true /\ (forall x, memNum x u = memNum x l) /\ n = length u.

(** The values of one column of the data rows. *)
Definition columnValues (dataRows : Grid) (colIdx : nat) : list value :=
  map (fun row => cellOf row colIdx) dataRows.

(** A sheet with fewer than two rows. *)
Definition tooFewRows (data : Grid) : Prop := (length data < 2)%nat.

(** A sheet without a non-empty data column: under no header position
    does a data row hold a value that is neither null nor blank. *)
Definition noDataColumn (data : Grid) : Prop :=
  forall (idx : nat) (row : list value),
    (idx < length (default [] (head data)))%nat ->
    In row (drop 1 data) ->
    present (cellOf row idx) = false.

(** *** Conversions to a number *)

Section Conversions.
Context {host : Host}.

(** The number of a value when nothing is removed from its text. *)
Definition plainNumber (v : value) : jsnum :=
  match v with
  | Num n => n
  | Str s => parseFloat s
  | Date t => parseFloat (Date_toString t)
  | Null | Undefined | Boolean _ => NaN
  end.

(** The number of a value under the stripping rules of the classifier:
    the characters [,], [$] and [%] are removed from a string first. *)
Definition strippedNumber (v : value) : jsnum :=
  match v with
  | Num n => n
  | Str s => parseFloat (stripSymbols s)
  | _ => NaN
  end.

End Conversions.

(** *** Rows of a description sheet *)

Section CodebookRows.
Context {host : Host}.

(** The name that a column row describes: the text of its second cell. *)
Definition describedName (row : list value) : string := cellText (cellOf row 1).

(** The description of a column row: the text of its third cell, or of
    its second cell when the third has no text. *)
Definition describedText (row : list value) : string :=
  if isEmpty (cellText (cellOf row 2)) then cellText (cellOf row 1)
  else cellText (cellOf row 2).

(** The row looks like the header of the description table. *)
Definition headerLike (row : list value) : bool :=
  includes "column" (toLowerCase (cellText (cellOf row 0)))
  && includes "variable" (toLowerCase (cellText (cellOf row 1))).

(** The first cell is a column reference and a second cell is present. *)
Definition columnRow (row : list value) : Prop :=
  columnLetterPattern (cellText (cellOf row 0)) = true /\ describedName row <> "".

End CodebookRows.

(** ** Example data *)

(** A host for the examples: integers are printed in decimal, which is
    what [String] gives on them; the examples hold no other number. *)
Definition exampleHost : Host :=
  {| Number_toString :=
       fun n => match n with
                | NaN => "NaN"
                | Infinity false => "Infinity"
                | Infinity true => "-Infinity"
                | Finite q => pretty (Qfloor q)
                end;
     Date_toString := fun _ => "Invalid Date" |}.

Definition scoreGrid : Grid :=
  [[Str "Name"; Str "Score"];
   [Str "A"; Num (ofZ 1)];
   [Str "B"; Num (ofZ 2)];
   [Str "C"; Num (ofZ 21)]].

(** A workbook with a sheet of one row, a sheet without data and the
    score sheet. *)
Definition scoreWorkbook : Workbook :=
  [("Cover", [[Str "Report"]]);
   ("Empty", [[Str "Name"; Str "Score"]; [Null; Str ""]]);
   ("Scores", scoreGrid)].

Definition scoreInfo : ColumnInfo :=
  {| header := "Score"; type := categorical; uniqueValues := Some 3%nat |}.

Definition scoreSheet : ExcelSheetSummary :=
  {| sheetName := "Scores";
     rowCount := 3;
     columns :=
       <["B" := scoreInfo]>
         (<["A" := {| header := "Name"; type := text; uniqueValues := None |}]> ∅) |}.

Definition scoreSummary : ExcelWorkbookSummary :=
  {| workbook := "scores"; sheets := [scoreSheet]; codebook := None |}.

(** A workbook in which no sheet has two rows. *)
Definition coverWorkbook : Workbook :=
  [("Cover", [[Str "Report"]]); ("Blank", [])].

Definition ageGrid : Grid :=
  [[Str "Column A"; Str "Age"; Str "Age in years"];
   [Str "Column B"; Str "Sex"; Str "M/F"]].

(** A description sheet whose first row names a variable called
    Variable. *)
Definition variableGrid : Grid :=
  [[Str "Column A"; Str "Variable"; Str "Kind of variable"];
   [Str "Column B"; Str "Sex"; Str "M/F"]].

(** The text of a bar chart part: one series per value reference, each
    with the category reference. *)
Definition seriesXml (catRef ref : string) : string :=
  "<c:ser><c:cat><c:strRef><c:f>" +:+ catRef +:+ "</c:f></c:strRef></c:cat>"
  +:+ "<c:val><c:numRef><c:f>" +:+ ref +:+ "</c:f></c:numRef></c:val></c:ser>".

Definition chartXml (catRef : string) (valueRefs : list string) : string :=
  "<c:chartSpace><c:barChart>" +:+ barDirAttr "col" +:+ "/>"
  +:+ foldr (fun ref rest => seriesXml catRef ref +:+ rest) "" valueRefs
  +:+ "</c:barChart></c:chartSpace>".

(** Five rows: a label, a first value and, in three rows, a second
    value. *)
Definition salesGrid : Grid :=
  [[Str "Q1"; Num (ofZ 10); Num (ofZ 1)];
   [Str "Q2"; Num (ofZ 20); Num (ofZ 2)];
   [Str "Q3"; Num (ofZ 30); Num (ofZ 3)];
   [Str "Q4"; Num (ofZ 40); Null];
   [Str "Q5"; Num (ofZ 50); Null]].

(** Series of lengths 5 and 3 with five labels. *)
Definition salesXml : string :=
  chartXml "Sheet1!$A$1:$A$5" ["Sheet1!$B$1:$B$5"; "Sheet1!$C$1:$C$5"].

(** One series of five values with two labels. *)
Definition shortLabelsXml : string :=
  chartXml "Sheet1!$A$1:$A$2" ["Sheet1!$B$1:$B$5"].

(** A column of amounts written as text, the last one beyond the range
    of doubles. *)
Definition amountsGrid : Grid :=
  [[Str "$5"]; [Str "1,234"]; [Str "50%"]; [Num (ofZ 7)]; [Str "n/a"]; [Str "1e309"]].

Definition amountsSeries : SeriesRef :=
  {| name := None; valueRef := "Sheet1!$A$1:$A$6"; color := None |}.

(** The charts that the builder gives for the two texts. *)
Definition salesChart : ChartData :=
  {| cdType := bar; cdHorizontal := false; cdStacked := false;
     cdTitle := None; cdXAxisTitle := None; cdYAxisTitle := None;
     labels := ["Q1"; "Q2"; "Q3"];
     datasets :=
       [{| label := "Series"; data := map ofZ [10; 20; 30]; dsColor := None |};
        {| label := "Series"; data := map ofZ [1; 2; 3]; dsColor := None |}] |}.

Definition shortLabelsChart : ChartData :=
  {| cdType := bar; cdHorizontal := false; cdStacked := false;
     cdTitle := None; cdXAxisTitle := None; cdYAxisTitle := None;
     labels := ["Q1"; "Q2"];
     datasets :=
       [{| label := "Series"; data := map ofZ [10; 20; 30; 40; 50]; dsColor := None |}] |}.

(** ** Further notions *)

(** A column name as a user writes it: capital letters, at least one. *)
Definition isColumnName (s : string) : Prop :=
  s <> "" /\ allString isUpper s = true.

(** A column with data: a position of the header row under which some
    data row holds a value that is neither null nor blank. *)
Definition columnHasData (data : Grid) (colIdx : nat) : Prop :=
  (colIdx < length (default [] (head data)))%nat /\
  exists row, In row (drop 1 data) /\ present (cellOf row colIdx) = true.

(** ** Values of the sample rows *)

Definition parseValue (val : value) : value :=
  match val with
  | Null | Undefined => Null
  | Str EmptyString => Null
  | _ =>
      match extractNumericValue val with
      | Some num => Num num
      | None => val
      end
  end.

(** The text starts with the short name of a month, in any case. *)
Definition startsWithMonth (t : string) : bool :=
  existsb (fun m => startsWith m (toLowerCase t)) monthNames.

Section CodebookEntries.
Context {host : Host}.

(** An entry that a row of a description sheet gives: a name and a text,
    neither empty, read from a column row or from a row that names the
    variable in its first cell. *)
Definition entryOf (row : list value) (k v : string) : Prop :=
  k <> "" /\ v <> "" /\ k <> "__proto__" /\
  ((k = describedName row /\ v = describedText row /\ columnRow row) \/
   (k = cellText (cellOf row 0) /\ v = cellText (cellOf row 1) /\
    startsWith "column" (toLowerCase (cellText (cellOf row 0))) = false)).

End CodebookEntries.

(** ** Texts of references *)

(** A row number as it is written: digits, at least one. *)
Definition isRowNumber (d : string) : Prop :=
  d <> "" /\ allString isDigit d = true.

Definition anchor (absolute : bool) : string := if absolute then "$" else "".

(** The address of a cell: the letters of the column and the digits of
    the row, each with or without its dollar sign. *)
Definition addressText (absCol absRow : bool) (letters digits : string) : string :=
  anchor absCol +:+ letters +:+ anchor absRow +:+ digits.

(** The text has no exclamation mark. *)
Definition noBang (s : string) : Prop :=
  allString (fun c => negb (Ascii.eqb c "!")) s = true.

(** ** Texts of chart parts *)

Definition notLt (c : ascii) : bool := negb (Ascii.eqb c "<").

Definition notQuote (c : ascii) : bool := negb (Ascii.eqb c dquote).


(** A reference of a series that the parser can give: the value
    reference is not empty and holds no opening bracket, and so is the
    name when there is one; a colour is a hash sign and a value. *)
Definition wellFormedSeries (s : SeriesRef) : Prop :=
  (valueRef s <> "" /\ allString notLt (valueRef s) = true) /\
  (forall n, name s = Some n -> n <> "" /\ allString notLt n = true) /\
  (forall c, color s = Some c -> exists hex, c = "#" +:+ hex /\ hex <> "").

(** The chart definition in which nothing was found. *)
Definition emptyChartInfo : ParsedChartInfo :=
  {| chartType := bar; horizontal := false; stacked := false;
     title := None; xAxisTitle := None; yAxisTitle := None;
     categoryRef := None; seriesRefs := [] |}.

(** ** Container extractor *)

(** [s.endsWith(suffix)] *)
Fixpoint endsWith (suffix s : string) : bool :=
  String.eqb s suffix
  || match s with
     | String _ r => endsWith suffix r
     | EmptyString => false
     end.

(** [name.split('.').pop() || ''] *)
Definition extensionOf (name : string) : string :=
  List.last (split "." name) "".

Definition IMAGE_EXTENSIONS : list string :=
  ["png"; "jpg"; "jpeg"; "gif"; "bmp"; "emf"; "wmf"].

(** The entry is a chart part: its name in small letters holds
    [/charts/chart] and ends in [.xml]. *)
Definition isChartPart (name : string) : bool :=
  includes "/charts/chart" name && endsWith ".xml" name.

(** The entry is an image: it lies under a media, chart or drawing path
    and its extension is a known one. *)
Definition isImagePart (name : string) : bool :=
  (includes "/media/" name || includes "/charts/" name || includes "/drawings/" name)
  && existsb (String.eqb (extensionOf name)) IMAGE_EXTENSIONS.

Definition mimeTypeOf (ext : string) : string :=
  if String.eqb ext "jpg" || String.eqb ext "jpeg" then "image/jpeg"
  else if String.eqb ext "gif" then "image/gif"
  else if String.eqb ext "bmp" then "image/bmp"
  else "image/png".

Section Container.
(** The bytes of an entry and their reading as UTF-8 text are those of
    the zip library. *)
Variable Buffer : Type.
Variable toUtf8 : Buffer -> string.

Record ZipEntry : Type := {
  entryName : string;
  getData : Buffer
}.

Record ImagePart : Type := {
  imageFilename : string;
  imageData : Buffer;
  mimeType : string
}.

Record ChartPart : Type := {
  chartFilename : string;
  content : string
}.

Record XlsxExtractResult : Type := {
  images : list ImagePart;
  chartXmls : list ChartPart
}.

(** The chart part and the image made of an entry. *)
Definition chartOf (e : ZipEntry) : ChartPart :=
  {| chartFilename := entryName e; content := toUtf8 (getData e) |}.

Definition imageOf (e : ZipEntry) : ImagePart :=
  {| imageFilename := entryName e; imageData := getData e;
     mimeType := mimeTypeOf (extensionOf (toLowerCase (entryName e))) |}.

(** One turn of the loop over the entries. *)
Definition extractEntry (acc : XlsxExtractResult) (entry : ZipEntry) : XlsxExtractResult :=
  let name := toLowerCase (entryName entry) in
  let charts1 :=
    if isChartPart name
    then chartXmls acc ++ [{| chartFilename := entryName entry;
                              content := toUtf8 (getData entry) |}]
    else chartXmls acc in
  let images1 :=
    if isImagePart name
    then images acc ++ [{| imageFilename := entryName entry;
                           imageData := getData entry;
                           mimeType := mimeTypeOf (extensionOf name) |}]
    else images acc in
  {| images := images1; chartXmls := charts1 |}.

(** [extractFromXlsx]: the entries of the container, or nothing when the
    zip library cannot open it; the failure is caught and both lists are
    empty. *)
Definition extractFromXlsx (entries : option (list ZipEntry)) : XlsxExtractResult :=
  match entries with
  | Some es => fold_left extractEntry es {| images := []; chartXmls := [] |}
  | None => {| images := []; chartXmls := [] |}
  end.

End Container.

Arguments entryName {Buffer}.
Arguments getData {Buffer}.
Arguments imageFilename {Buffer}.
Arguments imageData {Buffer}.
Arguments mimeType {Buffer}.
Arguments images {Buffer}.
Arguments chartXmls {Buffer}.
Arguments extractFromXlsx {Buffer}.
Arguments extractEntry {Buffer}.
Arguments chartOf {Buffer}.
Arguments imageOf {Buffer}.

(** The entries of a small workbook, with texts for bytes. *)
Definition exampleEntries : list (ZipEntry string) :=
  [{| entryName := "xl/workbook.xml"; getData := "<workbook/>" |};
   {| entryName := "xl/charts/chart1.xml"; getData := "<c:chartSpace/>" |};
   {| entryName := "xl/media/image1.PNG"; getData := "png" |};
   {| entryName := "xl/media/image2.emf"; getData := "emf" |};
   {| entryName := "xl/charts/style1.xml"; getData := "<style/>" |};
   {| entryName := "xl/drawings/photo.jpeg"; getData := "jpeg" |}].

(** ** Column statistics and sample rows *)

(** Arithmetic of numbers: the exact result, rounded to a double.  The
    sign of a zero is not kept, a zero counts as positive. *)
Definition negativeQ (q : Q) : bool := negb (Qle_bool 0 q).

Definition jsAdd (a b : jsnum) : jsnum :=
  match a, b with
  | NaN, _ | _, NaN => NaN
  | Infinity x, Infinity y => if Bool.eqb x y then Infinity x else NaN
  | Infinity x, Finite _ | Finite _, Infinity x => Infinity x
  | Finite p, Finite q => roundDouble (p + q)
  end.

Definition jsMul (a b : jsnum) : jsnum :=
  match a, b with
  | NaN, _ | _, NaN => NaN
  | Infinity x, Infinity y => Infinity (xorb x y)
  | Infinity x, Finite q | Finite q, Infinity x =>
      if Qeq_bool q 0 then NaN else Infinity (xorb x (negativeQ q))
  | Finite p, Finite q => roundDouble (p * q)
  end.

Definition jsDiv (a b : jsnum) : jsnum :=
  match a, b with
  | NaN, _ | _, NaN => NaN
  | Infinity _, Infinity _ => NaN
  | Infinity x, Finite q => Infinity (xorb x (negativeQ q))
  | Finite _, Infinity _ => Finite 0
  | Finite p, Finite q =>
      if Qeq_bool q 0
      then (if Qeq_bool p 0 then NaN else Infinity (negativeQ p))
      else roundDouble (p / q)
  end.

(** [a <= b] *)
Definition jsLe (a b : jsnum) : bool :=
  match a, b with
  | NaN, _ | _, NaN => false
  | Infinity true, _ => true
  | _, Infinity false => true
  | Infinity false, _ => false
  | _, Infinity true => false
  | Finite p, Finite q => Qle_bool p q
  end.

(** [Math.round]: to the nearest integer, a half upwards; the integer
    nearest to a double is a double. *)
Definition Math_round (x : jsnum) : jsnum :=
  match x with
  | Finite q => roundDouble (inject_Z (Qfloor (q + (1 # 2))))
  | _ => x
  end.

Definition min2 (a b : jsnum) : jsnum :=
  match a, b with
  | NaN, _ | _, NaN => NaN
  | _, _ => if jsLe a b then a else b
  end.

Definition max2 (a b : jsnum) : jsnum :=
  match a, b with
  | NaN, _ | _, NaN => NaN
  | _, _ => if jsLe a b then b else a
  end.

(** [Math.min(...numbers)] and [Math.max(...numbers)], for a list that the
    engine accepts as an argument list. *)
Definition Math_min (numbers : list jsnum) : jsnum :=
  fold_left min2 numbers (Infinity false).

Definition Math_max (numbers : list jsnum) : jsnum :=
  fold_left max2 numbers (Infinity true).

(** [Math.round(x * 100) / 100] *)
Definition round2 (x : jsnum) : jsnum :=
  jsDiv (Math_round (jsMul x (ofZ 100))) (ofZ 100).

Module ColumnStats.
Record t : Type := {
  min : jsnum;
  max : jsnum;
  avg : jsnum;
  uniqueCount : nat
}.
End ColumnStats.

Definition calculateStats (values : list value) : option ColumnStats.t :=
  let numbers := numericValues values in
  match numbers with
  | [] => None
  | _ =>
      Some {| ColumnStats.min := round2 (Math_min numbers);
              ColumnStats.max := round2 (Math_max numbers);
              ColumnStats.avg :=
                round2 (jsDiv (fold_left jsAdd numbers (ofZ 0))
                              (ofZ (Z.of_nat (length numbers))));
              ColumnStats.uniqueCount := length (newSet numbers) |}
  end.

(** [obj[key] = v] on an object literal that still has its first
    prototype, for a value that is a string or an object: under the key
    [__proto__] the inherited accessor takes the assignment, and nothing
    is stored as a property of the object. *)
Definition objPut {V : Type} (key : string) (v : V) (obj : gmap string V) : gmap string V :=
  if String.eqb key "__proto__" then obj else <[key := v]> obj.

(** An object under construction whose values may be null: its own
    properties, and whether it still inherits the accessor [__proto__]. *)
Record RowObject : Type := {
  props : gmap string value;
  inherits : bool
}.

(** [rowObj[key] = v].  Under the key [__proto__], while the accessor is
    inherited, a number, a string or a boolean is ignored, and null or a
    date becomes the prototype; with null the accessor is lost, and a
    later assignment under that key stores a property. *)
Definition rowPut (key : string) (v : value) (obj : RowObject) : RowObject :=
  if String.eqb key "__proto__" && inherits obj then
    match v with
    | Null => {| props := props obj; inherits := false |}
    | _ => obj
    end
  else {| props := <[key := v]> (props obj); inherits := inherits obj |}.

Definition SAMPLE_ROW_COUNT : nat := 3.

Section SheetDetails.
Context {host : Host}.

(** One turn of the column loop of the sheet pass, for [stats]. *)
Definition statsStep (headers : list string) (dataRows : Grid)
    (stats : gmap string ColumnStats.t) (colIdx : nat) : gmap string ColumnStats.t :=
  let info := columnInfo headers dataRows colIdx in
  match type info with
  | numeric =>
      match calculateStats (map (fun row => cellOf row colIdx) dataRows) with
      | Some colStats => objPut (header info) colStats stats
      | None => stats
      end
  | _ => stats
  end.

(** The [stats] object that the sheet pass fills for a sheet it keeps. *)
Definition statsOf (data : Grid) : gmap string ColumnStats.t :=
  let headers := headersOf (default [] (head data)) in
  let dataRows := drop 1 data in
  fold_left (statsStep headers dataRows) (nonEmptyColumnIndices headers dataRows) ∅.

(** The field [stats] of the summary: present only when it has a key. *)
Definition statsField (data : Grid) : option (gmap string ColumnStats.t) :=
  if Nat.ltb 0 (size (statsOf data)) then Some (statsOf data) else None.

(** One turn of the inner loop of the sample rows. *)
Definition sampleStep (headers : list string) (row : list value)
    (rowObj : RowObject) (colIdx : nat) : RowObject :=
  rowPut (default "" (headers !! colIdx)) (parseValue (cellOf row colIdx)) rowObj.

(** One sample row: under each header of a data column the parsed cell;
    the properties of the object at the end of the loop. *)
Definition sampleRow (headers : list string) (cols : list nat) (row : list value)
    : gmap string value :=
  props (fold_left (sampleStep headers row) cols {| props := ∅; inherits := true |}).

(** The [sample] array that the sheet pass fills for a sheet it keeps. *)
Definition sampleOf (data : Grid) : list (gmap string value) :=
  let headers := headersOf (default [] (head data)) in
  let dataRows := drop 1 data in
  map (sampleRow headers (nonEmptyColumnIndices headers dataRows))
      (take (Nat.min SAMPLE_ROW_COUNT (length dataRows)) dataRows).

End SheetDetails.

(** A sheet with a text column, a column of prices and a column of
    small whole numbers. *)
Definition priceGrid : Grid :=
  [[Str "item"; Str "price"; Str "rating"];
   [Str "tea"; Str "$2.50"; Num (ofZ 4)];
   [Str "milk"; Num (roundDouble (199 # 100)); Num (ofZ 5)];
   [Str "rice"; Str "1,200"; Str ""];
   [Str "salt"; Str "0.755"; Num (ofZ 4)]].

(** A sheet with a column of codes, one of them a long literal, and a
    column of weights. *)
Definition roundedGrid : Grid :=
  [[Str "code"; Str "weight"];
   [Str "1.0000000000000000000001"; Str "1.005"];
   [Num (ofZ 2); Num (ofZ 3)];
   [Num (ofZ 1); Num (ofZ 3)]].

(** A sheet with two columns under the header [__proto__], the first
    with a blank cell. *)
Definition protoGrid : Grid :=
  [[Str "__proto__"; Str " __proto__"; Str "x"];
   [Null; Num (ofZ 5); Str "a"];
   [Str "b"; Num (ofZ 6); Str ""]].

(** ** Chart metadata *)

(** The matcher of [open([^<]+)close] at the start of [s], for a loop
    over all matches: the captured text and the text after the match. *)
Definition elementRest (open close s : string) : option (string * string) :=
  match stripPrefix open s with
  | Some r =>
      let '(body, r') := span (fun c => negb (Ascii.eqb c "<")) r in
      if isEmpty body then None
      else match stripPrefix close r' with
           | Some rest => Some (body, rest)
           | None => None
           end
  | None => None
  end.

(** The loop over [xml.matchAll(re)]: [next] finds the next match, its
    group and the text after it.  Each match consumes a character, so the
    length of the text bounds the turns. *)
Fixpoint matchAll (fuel : nat) (next : string -> option (string * string)) (s : string)
    : list string :=
  match fuel with
  | O => []
  | S fuel' =>
      match next s with
      | Some (group, rest) => group :: matchAll fuel' next rest
      | None => []
      end
  end.

(** The next match of [/<c:f>([^<]+)<\/c:f>/g]. *)
Definition nextFormula : string -> option (string * string) :=
  searchFirst (elementRest "<c:f>" "</c:f>").

(** The next match of [/<c:tx>[\s\S]*?<c:v>([^<]+)<\/c:v>/g]. *)
Definition nextSeriesName : string -> option (string * string) :=
  afterFirst "<c:tx>" (searchFirst (elementRest "<c:v>" "</c:v>")).

(** One turn of a collecting loop: the text is pushed when it is not
    empty, not yet in the list, and the list is below its limit. *)
Definition pushDistinct (limit : nat) (seen : list string) (x : string) : list string :=
  if negb (isEmpty x) && negb (existsb (String.eqb x) seen) && Nat.ltb (length seen) limit
  then seen ++ [x] else seen.

(** [seriesRefs] and [seriesNames] at the end of their loops. *)
Definition dataRefs (xml : string) : list string :=
  fold_left (pushDistinct 5) (matchAll (String.length xml) nextFormula xml) [].

Definition seriesNames (xml : string) : list string :=
  fold_left (pushDistinct 10) (matchAll (String.length xml) nextSeriesName xml) [].

(** [list.join(sep)] *)
Fixpoint join (sep : string) (l : list string) : string :=
  match l with
  | [] => ""
  | x :: r =>
      match r with
      | [] => x
      | _ => x +:+ sep +:+ join sep r
      end
  end.

(** The text after the last [/] of the first line of [s], when that line
    has one. *)
Fixpoint lineCut (s : string) : option string :=
  match s with
  | EmptyString => None
  | String c r =>
      if isLineTerminator c then None
      else match lineCut r with
           | Some t => Some t
           | None => if Ascii.eqb c "/" then Some r else None
           end
  end.

(** [s.replace(/.*\//, '')]: the leftmost match is cut out; the dot does
    not pass a line end. *)
Fixpoint replaceDirs (s : string) : string :=
  match lineCut s with
  | Some t => t
  | None =>
      match s with
      | EmptyString => EmptyString
      | String c r => String c (replaceDirs r)
      end
  end.

(** [s.replace(lit, '')] for a literal: its first occurrence is cut out. *)
Definition removeFirst (lit s : string) : string :=
  match findLit lit s with
  | Some (before, after) => before +:+ after
  | None => s
  end.

Definition chartTypeOf (xml : string) : string :=
  if includes "<c:barChart" xml then "bar"
  else if includes "<c:bar3DChart" xml then "bar3D"
  else if includes "<c:lineChart" xml then "line"
  else if includes "<c:line3DChart" xml then "line3D"
  else if includes "<c:pieChart" xml then "pie"
  else if includes "<c:pie3DChart" xml then "pie3D"
  else if includes "<c:doughnutChart" xml then "doughnut"
  else if includes "<c:scatterChart" xml then "scatter"
  else if includes "<c:areaChart" xml then "area"
  else if includes "<c:radarChart" xml then "radar"
  else if includes "<c:bubbleChart" xml then "bubble"
  else "unknown".

Module ChartInfo.
Record t : Type := {
  sheetName : string;
  chartType : option string;
  title : option string;
  xAxis : option string;
  yAxis : option string;
  series : option (list string);
  dataRange : option string;
  imageFile : option string;
  analysis : option string
}.
End ChartInfo.

(** [text += prefix + field] when the field is there and not empty. *)
Definition addPart (prefix : string) (field : option string) (suffix text : string) : string :=
  match field with
  | Some f => if isEmpty f then text else text +:+ prefix +:+ f +:+ suffix
  | None => text
  end.

Definition analysisText (chartType : string) (title : option string)
    (series : option (list string)) (xAxis yAxis dataRange : option string) : string :=
  let upper := toUpperCase chartType in
  let a0 := (if isEmpty upper then "Unknown" else upper) +:+ " chart" in
  let a1 := addPart (" titled " +:+ String dquote "") title (String dquote "") a0 in
  let a2 :=
    match series with
    | Some (n :: l) => a1 +:+ ". Series: " +:+ join ", " (n :: l)
    | _ => a1
    end in
  let a3 := addPart ". X-axis: " xAxis "" a2 in
  let a4 := addPart ". Y-axis: " yAxis "" a3 in
  addPart ". Data from: " dataRange "" a4.

Definition parseChartXmlToInfo (filename xml : string) : ChartInfo.t :=
  let chartType := chartTypeOf xml in
  let title := afterFirst "<c:title>" textRun xml in
  let xAxis := afterFirst "<c:catAx>" (afterFirst "<c:title>" textRun) xml in
  let yAxis := afterFirst "<c:valAx>" (afterFirst "<c:title>" textRun) xml in
  let refs := dataRefs xml in
  let dataRange := match refs with [] => None | _ => Some (join ", " refs) end in
  let names := seriesNames xml in
  let series := match names with [] => None | _ => Some names end in
  {| ChartInfo.sheetName := removeFirst ".xml" (replaceDirs filename);
     ChartInfo.chartType := Some chartType;
     ChartInfo.title := title;
     ChartInfo.xAxis := xAxis;
     ChartInfo.yAxis := yAxis;
     ChartInfo.series := series;
     ChartInfo.dataRange := dataRange;
     ChartInfo.imageFile := Some filename;
     ChartInfo.analysis := Some (analysisText chartType title series xAxis yAxis dataRange) |}.

(** A character that is neither a line end nor a slash, and one that is
    no dot. *)
Definition inLine (c : ascii) : bool := negb (isLineTerminator c).

Definition plainNameChar (c : ascii) : bool :=
  negb (isLineTerminator c) && negb (Ascii.eqb c "/") && negb (Ascii.eqb c ".").

(** The declared chart types of the metadata. *)
Definition CHART_TYPE_NAMES : list string :=
  ["bar"; "bar3D"; "line"; "line3D"; "pie"; "pie3D"; "doughnut"; "scatter";
   "area"; "radar"; "bubble"; "unknown"].

(** ** Chart configuration *)

Definition CHART_COLORS : list string :=
  ["#4472C4"; "#ED7D31"; "#A5A5A5"; "#FFC000"; "#5B9BD5";
   "#70AD47"; "#264478"; "#9E480E"; "#636363"; "#997300";
   "#255E91"; "#43682B"; "#698ED0"; "#F1975A"; "#B7B7B7"].

(** The configuration handed to the drawing library.  The fields that are
    the same for every chart (size, fonts, the place of the legend, axes
    that begin at zero) are left out. *)
Module ChartJs.

Inductive ChartType : Type := bar | line | pie | doughnut | scatter | radar.

(** A background is one colour, or a list of colours for the slices. *)
Inductive Background : Type :=
| One (c : string)
| Many (cs : list string).

Record ConfigDataset : Type := {
  label : string;
  data : list jsnum;
  backgroundColor : Background;
  borderColor : string;
  borderWidth : Z;
  fill : bool;
  tension : Q
}.

Record Title : Type := {
  display : bool;
  text : string
}.

Record Axis : Type := {
  axisTitle : Title;
  stacked : bool
}.

Record Configuration : Type := {
  type : ChartType;
  labels : list string;
  datasets : list ConfigDataset;
  indexAxis : string;
  title : Title;
  legendDisplay : bool;
  scales : option (Axis * Axis)
}.

End ChartJs.

Definition mapChartType (excelType : ChartKind) : ChartJs.ChartType :=
  match excelType with
  | bar => ChartJs.bar
  | line => ChartJs.line
  | pie => ChartJs.pie
  | doughnut => ChartJs.doughnut
  | scatter => ChartJs.scatter
  | area => ChartJs.line
  | radar => ChartJs.radar
  end.

Definition isKind (a b : ChartKind) : bool :=
  match a, b with
  | bar, bar | line, line | pie, pie | doughnut, doughnut
  | scatter, scatter | area, area | radar, radar => true
  | _, _ => false
  end.

(** [{ display: !!t, text: t || '' }] *)
Definition titleOf (t : option string) : ChartJs.Title :=
  match t with
  | Some s => {| ChartJs.display := negb (isEmpty s); ChartJs.text := s |}
  | None => {| ChartJs.display := false; ChartJs.text := "" |}
  end.

(** [ds.color || CHART_COLORS[i % CHART_COLORS.length]] *)
Definition baseColorOf (i : nat) (ds : Dataset) : string :=
  let fromPalette := default "" (CHART_COLORS !! (i mod length CHART_COLORS)%nat) in
  match dsColor ds with
  | Some c => if isEmpty c then fromPalette else c
  | None => fromPalette
  end.

Definition buildChartConfig (chartData : ChartData) : ChartJs.Configuration :=
  let chartJsType := mapChartType (cdType chartData) in
  let isHorizontal := cdHorizontal chartData && isKind (cdType chartData) bar in
  let isPieType := isKind (cdType chartData) pie || isKind (cdType chartData) doughnut in
  let legend := Nat.ltb 1 (length (datasets chartData)) || isPieType in
  let datasets :=
    imap (fun i ds =>
            let baseColor := baseColorOf i ds in
            {| ChartJs.label := label ds;
               ChartJs.data := data ds;
               ChartJs.backgroundColor :=
                 if isPieType then ChartJs.Many (take (length (data ds)) CHART_COLORS)
                 else ChartJs.One baseColor;
               ChartJs.borderColor := baseColor;
               ChartJs.borderWidth := if isKind (cdType chartData) line then 2 else 1;
               ChartJs.fill := isKind (cdType chartData) area;
               ChartJs.tension := if isKind (cdType chartData) line then 1 # 10 else 0 |})
         (datasets chartData) in
  let axis (t : option string) :=
    {| ChartJs.axisTitle := titleOf t; ChartJs.stacked := cdStacked chartData |} in
  {| ChartJs.type := chartJsType;
     ChartJs.labels := labels chartData;
     ChartJs.datasets := datasets;
     ChartJs.indexAxis := if isHorizontal then "y" else "x";
     ChartJs.title := titleOf (cdTitle chartData);
     ChartJs.legendDisplay := legend;
     ChartJs.scales :=
       if isPieType then None
       else Some (axis (cdXAxisTitle chartData), axis (cdYAxisTitle chartData)) |}.

(** The kind of chart that the renderer draws for a type name of the
    metadata: a name with [3D] is drawn flat, and a bubble chart or an
    unknown one as bars. *)
Definition kindOfName (name : string) : ChartKind :=
  if String.eqb name "line" || String.eqb name "line3D" then line
  else if String.eqb name "pie" || String.eqb name "pie3D" then pie
  else if String.eqb name "doughnut" then doughnut
  else if String.eqb name "scatter" then scatter
  else if String.eqb name "area" then area
  else if String.eqb name "radar" then radar
  else bar.

(** ** The sheet behind the charts *)

(** [sheetDataArray]: the grid of the first sheet with more than two rows,
    or the empty array when there is none or when its name is the empty
    string, which the test of [firstDataSheet] takes for no sheet. *)
Definition chartSheetData (wb : Workbook) : Grid :=
  match List.find (fun '(_, data) => Nat.ltb 2 (length data)) wb with
  | Some (name, data) => if isEmpty name then [] else data
  | None => []
  end.

Section ChartStage.
Context {host : Host}.

(** The chart model that the chart loop asks the renderer for: none when
    [sheetDataArray] is empty. *)
Definition chartDataFor (wb : Workbook) (chartXml : string) : option ChartData :=
  if Nat.ltb 0 (length (chartSheetData wb))
  then buildChartData chartXml (chartSheetData wb)
  else None.

End ChartStage.

(** ** Auxiliary notions of the proofs on doubles *)

(** [n] is an integer nearest to [num / den], the even one at a half. *)
Definition nearest (num den n : Z) : Prop :=
  2 * Z.abs (num - n * den) <= den /\
  (2 * Z.abs (num - n * den) = den -> Z.even n = true).

(** The double nearest to [a / b] in units of the least double. *)
Definition roundUnits (a b : positive) : Z :=
  let u := binade (Z.pos a * 2 ^ 1074) b - 52 in
  roundHalfEven (Z.pos a * 2 ^ Z.max (1074 - u) 0)
    (Z.to_pos (Z.pos b * 2 ^ Z.max (u - 1074) 0)) * 2 ^ u.

(** * Properties *)

(** ** The conventions at work *)

(** The value of a literal is the nearest double: digits beyond the
    precision are lost, and a value beyond the range is an infinity. *)
Lemma parseFloat_doubles :
  parseFloat "1.0000000000000000000001" = ofZ 1 /\
  parseFloat "9007199254740993" = ofZ 9007199254740992 /\
  parseFloat "1e309" = Infinity false /\
  parseFloat "-1e309" = Infinity true /\
  parseFloat "1e-400" = ofZ 0 /\
  parseFloat "0.1" = Finite (3602879701896397 # 36028797018963968).
Proof. repeat split; vm_compute; reflexivity. Qed.

(** The no-break space is white space for [trim], for [parseFloat] and
    for the patterns. *)
Lemma noBreakSpace_is_white :
  trim (String nbsp "Age" +:+ String nbsp "") = "Age" /\
  parseFloat (String nbsp "5") = ofZ 5 /\
  columnLetterPattern ("Column" +:+ String nbsp "B") = true.
Proof. repeat split; vm_compute; reflexivity. Qed.

(** ** Characters and strings *)

Lemma code_range (c : ascii) : 0 <= code c < 256.
Proof.
  unfold code. pose proof (nat_ascii_bounded c). lia.
Qed.

Lemma code_fromCharCode (z : Z) : 0 <= z < 256 -> code (fromCharCode z) = z.
Proof.
  intros Hz. unfold code, fromCharCode.
  rewrite nat_ascii_embedding by lia. lia.
Qed.

Lemma fromCharCode_code (c : ascii) : fromCharCode (code c) = c.
Proof.
  unfold code, fromCharCode. rewrite Nat2Z.id. apply ascii_nat_embedding.
Qed.

Lemma code_inj (a b : ascii) : code a = code b -> a = b.
Proof.
  intros H. rewrite <- (fromCharCode_code a), <- (fromCharCode_code b).
  now rewrite H.
Qed.

Lemma upperChar_upper (c : ascii) : isUpper c = true -> upperChar c = c.
Proof.
  unfold upperChar, isUpper, isLower, isLowerLatin. intros H.
  destruct (97 <=? code c) eqn:E; [exfalso; lia|].
  destruct (224 <=? code c) eqn:E'; [exfalso; lia | reflexivity].
Qed.

Lemma toUpperCase_upper (s : string) :
  allString isUpper s = true -> toUpperCase s = s.
Proof.
  induction s as [|c s IH]; simpl; [reflexivity|].
  intros [Hc Hs]%andb_true_iff.
  unfold toUpperCase in *. simpl. now rewrite upperChar_upper, IH.
Qed.

(** ** Column letters *)

Lemma colToNum_loop_acc (s : string) (n : Z) :
  colToNum_loop s n = n * 26 ^ Z.of_nat (String.length s) + colToNum_loop s 0.
Proof.
  revert n. induction s as [|c s IH]; intros n; simpl String.length.
  - simpl. lia.
  - cbn [colToNum_loop]. rewrite IH, (IH (0 * 26 + _)).
    rewrite Nat2Z.inj_succ, Z.pow_succ_r by lia. ring.
Qed.

(** The turns of the loop do not depend on the fuel once it exceeds the
    index. *)
Lemma getColumnLetter_loop_fuel (f1 f2 : nat) (index : Z) (letter : string) :
  index < Z.of_nat f1 -> index < Z.of_nat f2 ->
  getColumnLetter_loop f1 index letter = getColumnLetter_loop f2 index letter.
Proof.
  revert f2 index letter.
  induction f1 as [|f1 IH]; intros f2 index letter H1 H2.
  - destruct f2 as [|f2]; [reflexivity|]. simpl.
    destruct (0 <=? index) eqn:E; [lia|reflexivity].
  - destruct f2 as [|f2]; simpl.
    + destruct (0 <=? index) eqn:E; [lia|reflexivity].
    + destruct (0 <=? index) eqn:E; [|reflexivity].
      apply IH.
      * assert (index / 26 <= index) by (apply Z.div_le_upper_bound; lia). lia.
      * assert (index / 26 <= index) by (apply Z.div_le_upper_bound; lia). lia.
Qed.

(** The letters written by the loop are capitals, and read back in base
    26 they give the index plus one, above what [letter] already holds. *)
Lemma getColumnLetter_loop_value (fuel : nat) (index : Z) (letter : string) :
  -1 <= index < Z.of_nat fuel ->
  allString isUpper letter = true ->
  allString isUpper (getColumnLetter_loop fuel index letter) = true /\
  colToNum_loop (getColumnLetter_loop fuel index letter) 0
  = (index + 1) * 26 ^ Z.of_nat (String.length letter) + colToNum_loop letter 0.
Proof.
  revert index letter.
  induction fuel as [|fuel IH]; intros index letter Hi Hl.
  - simpl. split; [assumption|]. assert (index = -1) by lia. subst. lia.
  - simpl. destruct (0 <=? index) eqn:E.
    + apply Z.leb_le in E.
      assert (Hd : index / 26 <= index) by (apply Z.div_le_upper_bound; lia).
      assert (Hp : 0 <= index / 26) by (apply Z.div_pos; lia).
      pose proof (Z.mod_pos_bound index 26 ltac:(lia)) as Hm.
      set (c := fromCharCode (index mod 26 + 65)).
      assert (Hc : code c = index mod 26 + 65)
        by (apply code_fromCharCode; lia).
      assert (Hu : allString isUpper (String c letter) = true).
      { simpl. rewrite Hl. unfold isUpper. rewrite Hc.
        apply andb_true_iff; split; [|reflexivity].
        apply andb_true_iff; split; apply Z.leb_le; lia. }
      destruct (IH (index / 26 - 1) (String c letter) ltac:(lia) Hu) as [IH1 IH2].
      split; [assumption|].
      rewrite IH2. cbn [colToNum_loop String.length].
      rewrite (colToNum_loop_acc letter), Hc.
      rewrite Nat2Z.inj_succ, Z.pow_succ_r by lia.
      pose proof (Z.div_mod index 26 ltac:(lia)). nia.
    + apply Z.leb_gt in E. split; [assumption|].
      assert (index = -1) by lia. subst. lia.
Qed.

Lemma colToNum_getColumnLetter (n : Z) :
  0 <= n -> colToNum (getColumnLetter n) = n.
Proof.
  intros Hn. unfold colToNum, getColumnLetter.
  destruct (getColumnLetter_loop_value (Z.to_nat (n + 1)) n EmptyString) as [Hu Hv];
    [lia | reflexivity |].
  rewrite toUpperCase_upper by assumption.
  rewrite Hv. simpl. lia.
Qed.

(** C5: for every index from 0 to 1000, the column letters of the index
    convert back to the index. *)
Theorem column_letter_round_trip (n : Z) :
  0 <= n <= 1000 -> colToNum (getColumnLetter n) = n.
Proof.
  intros [Hn _]. now apply colToNum_getColumnLetter.
Qed.

Lemma column_letter_round_trip_witness :
  0 <= 701 <= 1000 /\ colToNum (getColumnLetter 701) = 701.
Proof.
  split; [lia | apply (column_letter_round_trip 701); lia].
Defined.

(** ** Cell reference resolver *)

Lemma zrange_cons (lo hi : Z) : lo <= hi -> zrange lo hi = lo :: zrange (lo + 1) hi.
Proof.
  intros H. unfold zrange.
  replace (Z.to_nat (hi - lo + 1)) with (S (Z.to_nat (hi - (lo + 1) + 1))) by lia.
  reflexivity.
Qed.

Lemma zrange_nil (lo hi : Z) : hi < lo -> zrange lo hi = [].
Proof.
  intros H. unfold zrange.
  replace (Z.to_nat (hi - lo + 1)) with O by lia. reflexivity.
Qed.

Lemma zrangeFrom_bounds (n : nat) (lo i : Z) :
  In i (zrangeFrom lo n) -> lo <= i < lo + Z.of_nat n.
Proof.
  revert lo. induction n as [|n IH]; intros lo; simpl; [tauto|].
  intros [<- | Hin]; [lia|]. apply IH in Hin. lia.
Qed.

Lemma zrange_bounds (lo hi i : Z) : In i (zrange lo hi) -> lo <= i <= hi.
Proof.
  intros Hin%zrangeFrom_bounds. lia.
Qed.

Lemma flat_map_nil {A B : Type} (g : A -> list B) (l : list A) :
  (forall x, In x l -> g x = []) -> flat_map g l = [].
Proof.
  induction l as [|x l IH]; simpl; intros H; [reflexivity|].
  rewrite (H x) by now left. apply IH. intros y Hy. apply H. now right.
Qed.

(** A counting loop whose body appends [g i]: when the condition keeps
    [i] at or below [hi], and nothing is left to append once it fails,
    the loop appends the contributions of [lo] to [hi] in order. *)
Lemma forLoop_append {A : Type} (g : Z -> list A) (cond : Z -> bool)
    (body : Z -> list A -> list A) (hi : Z) :
  (forall i st, body i st = st ++ g i) ->
  (forall i, cond i = true -> i <= hi) ->
  (forall i j, cond i = false -> i <= j <= hi -> g j = []) ->
  forall (fuel : nat) (lo : Z) (st : list A),
    (Z.to_nat (hi - lo + 1) <= fuel)%nat ->
    forLoop fuel cond body lo st = st ++ flat_map g (zrange lo hi).
Proof.
  intros Hbody Hcond Hrest.
  induction fuel as [|fuel IH]; intros lo st Hfuel.
  - simpl. rewrite zrange_nil by lia. simpl. now rewrite app_nil_r.
  - simpl. destruct (cond lo) eqn:E.
    + pose proof (Hcond lo E) as Hle.
      rewrite IH by lia. rewrite Hbody, (zrange_cons lo hi) by lia.
      simpl. now rewrite <- app_assoc.
    + rewrite flat_map_nil; [now rewrite app_nil_r|].
      intros j Hj%zrange_bounds. now apply (Hrest lo j).
Qed.

Lemma index_out_of_range {A : Type} (arr : list A) (i : Z) :
  Z.of_nat (length arr) <= i -> index arr i = None.
Proof.
  intros H. unfold index. destruct (i <? 0) eqn:E; [reflexivity|].
  apply lookup_ge_None_2. lia.
Qed.

Lemma cellAt_below (sheetData : Grid) (row col : Z) :
  Z.of_nat (length sheetData) <= row -> cellAt sheetData row col = Undefined.
Proof.
  intros H. unfold cellAt. now rewrite index_out_of_range.
Qed.

Lemma flat_map_filter_map {A B : Type} (p : B -> bool) (f : A -> B) (l : list A) :
  flat_map (fun x => if p (f x) then [f x] else []) l = List.filter p (map f l).
Proof.
  induction l as [|x l IH]; simpl; [reflexivity|].
  rewrite IH. now destruct (p (f x)).
Qed.

(** The loop down one column: the rows below the grid add nothing. *)
Lemma column_loop (sheetData : Grid) (col lo hi : Z) (fuel : nat) (values : list value) :
  (Z.to_nat (hi - lo + 1) <= fuel)%nat ->
  forLoop fuel
    (fun row => (row <=? hi) && (row <? Z.of_nat (length sheetData)))
    (fun row => pushPresent (cellAt sheetData row col)) lo values
  = values ++ List.filter present (map (fun row => cellAt sheetData row col) (zrange lo hi)).
Proof.
  intros Hfuel. rewrite <- flat_map_filter_map.
  apply (forLoop_append
           (fun row => if present (cellAt sheetData row col)
                       then [cellAt sheetData row col] else [])); [| | |assumption].
  - intros i st. unfold pushPresent.
    destruct (present _); [reflexivity | now rewrite app_nil_r].
  - intros i [H _]%andb_true_iff. now apply Z.leb_le.
  - intros i j Hc Hj. apply andb_false_iff in Hc as [Hc | Hc].
    + apply Z.leb_gt in Hc. lia.
    + apply Z.ltb_ge in Hc. rewrite cellAt_below by lia. reflexivity.
Qed.

(** The loop over the columns of a range, each column read by
    [column_loop]. *)
Lemma columns_loop (sheetData : Grid) (p : ParsedRange) :
  forLoop (turns (startCol p) (endCol p))
    (fun col => col <=? endCol p)
    (fun col values =>
       forLoop (turns (startRow p) (endRow p))
         (fun row => (row <=? endRow p) && (row <? Z.of_nat (length sheetData)))
         (fun row => pushPresent (cellAt sheetData row col))
         (startRow p) values)
    (startCol p) []
  = columnMajorValues sheetData p.
Proof.
  unfold columnMajorValues, turns.
  rewrite (forLoop_append
             (fun col => List.filter present
                (map (fun row => cellAt sheetData row col)
                   (zrange (startRow p) (endRow p))))
             _ _ (endCol p)); [reflexivity | | | | lia].
  - intros i st. now apply column_loop.
  - intros i H. now apply Z.leb_le.
  - intros i j Hc Hj. apply Z.leb_gt in Hc. lia.
Qed.

Lemma parseRange_single (r : string) (p : ParsedRange) :
  parseRange r = Some p -> isSingleCell p = true -> startCol p = endCol p.
Proof.
  unfold parseRange.
  destruct (rangeMatch _) as [[[[c1 r1] c2] r2]|].
  - intros H. injection H as <-. discriminate.
  - destruct (cellMatch _) as [[c d]|]; [|discriminate].
    intros H. injection H as <-. reflexivity.
Qed.

(** C6: on a range that spans several rows and several columns, with
    indices that the code's numbers hold exactly (none beyond
    [MAX_SAFE_INTEGER]), [extractDataFromSheet] returns the values of the
    range column by column, rows in order inside a column, without the
    blank cells; on a grid of three rows and two columns the range A1:B3
    gives the three values of column A, then the three values of column
    B. *)
Theorem extract_2d_column_major :
  (forall (sheetData : Grid) (reference : string) (p : ParsedRange),
     parseRange (range (parseCellReference reference)) = Some p ->
     safeRange p ->
     startCol p <> endCol p ->
     startRow p <> endRow p ->
     extractDataFromSheet sheetData reference = columnMajorValues sheetData p) /\
  (forall a1 a2 a3 b1 b2 b3 : value,
     forallb present [a1; a2; a3; b1; b2; b3] = true ->
     extractDataFromSheet [[a1; b1]; [a2; b2]; [a3; b3]] "A1:B3"
     = [a1; a2; a3; b1; b2; b3]).
Proof.
  assert (General : forall sheetData reference p,
     parseRange (range (parseCellReference reference)) = Some p ->
     safeRange p ->
     startCol p <> endCol p ->
     startRow p <> endRow p ->
     extractDataFromSheet sheetData reference = columnMajorValues sheetData p).
  { intros sheetData reference p Hp _ Hc Hr.
    assert (Hs : isSingleCell p = false).
    { destruct (isSingleCell p) eqn:E; [|reflexivity].
      now apply (parseRange_single _ p Hp) in E. }
    unfold extractDataFromSheet. rewrite Hp, Hs.
    apply Z.eqb_neq in Hc, Hr. rewrite Hc, Hr.
    apply columns_loop. }
  split; [exact General|].
  intros a1 a2 a3 b1 b2 b3 H.
  rewrite (General _ "A1:B3"
             {| startCol := 0; startRow := 0; endCol := 1; endRow := 2;
                isSingleCell := false |});
    [| reflexivity | repeat split; discriminate | discriminate | discriminate].
  simpl in H.
  repeat (apply andb_true_iff in H as [? H]).
  change (columnMajorValues _ _)
    with (List.filter present [a1; a2; a3] ++ List.filter present [b1; b2; b3] ++ []).
  cbn [List.filter app].
  repeat match goal with Hx : present _ = true |- _ => rewrite Hx; clear Hx end.
  reflexivity.
Qed.

Lemma extract_2d_column_major_witness :
  extractDataFromSheet
    [[Str "a1"; Num (ofZ 1)]; [Null; Num (ofZ 2)]; [Str "a3"; Str ""]; [Str "a4"; Num (ofZ 4)]]
    "Sheet1!$A$1:$B$3"
  = [Str "a1"; Str "a3"; Num (ofZ 1); Num (ofZ 2)].
Proof.
  rewrite (proj1 extract_2d_column_major _ "Sheet1!$A$1:$B$3"
             {| startCol := 0; startRow := 0; endCol := 1; endRow := 2;
                isSingleCell := false |});
    [reflexivity | reflexivity | repeat split; discriminate | discriminate | discriminate].
Defined.

(** C9: a reference whose range, once the dollar signs are removed, is
    neither a rectangular range nor a single cell gives the empty
    sequence. *)
Theorem unparsable_range_empty (sheetData : Grid) (reference : string) :
  let cleaned :=
    filterString (fun c => negb (Ascii.eqb c "$")) (range (parseCellReference reference)) in
  rangeMatch cleaned = None ->
  cellMatch cleaned = None ->
  extractDataFromSheet sheetData reference = [].
Proof.
  intros cleaned Hr Hc. unfold extractDataFromSheet, parseRange.
  fold cleaned. now rewrite Hr, Hc.
Qed.

Lemma unparsable_range_empty_witness :
  extractDataFromSheet [[Str "a"; Str "b"]; [Num (ofZ 1); Num (ofZ 2)]] "Sheet1!$A:$A" = [].
Proof.
  apply (unparsable_range_empty _ "Sheet1!$A:$A"); reflexivity.
Defined.

(** ** Chart definition parser *)

Lemma append_cons (c : ascii) (a b : string) : String c a +:+ b = String c (a +:+ b).
Proof. reflexivity. Qed.

Lemma append_nil (b : string) : "" +:+ b = b.
Proof. reflexivity. Qed.

Lemma append_empty_r (a : string) : a +:+ "" = a.
Proof.
  induction a as [|c a IH]; [reflexivity|]. now rewrite append_cons, IH.
Qed.

Lemma append_assoc (a b c : string) : (a +:+ b) +:+ c = a +:+ (b +:+ c).
Proof.
  induction a as [|x a IH]; [reflexivity|]. now rewrite !append_cons, IH.
Qed.

Lemma allString_app (p : ascii -> bool) (a b : string) :
  allString p (a +:+ b) = allString p a && allString p b.
Proof.
  induction a as [|c a IH]; [reflexivity|].
  rewrite append_cons. simpl. now rewrite IH, andb_assoc.
Qed.

Lemma span_stop (p : ascii -> bool) (v : string) (c : ascii) (r : string) :
  allString p v = true -> p c = false ->
  span p (v +:+ String c r) = (v, String c r).
Proof.
  intros Hv Hc. induction v as [|d v IH].
  - rewrite append_nil. simpl. now rewrite Hc.
  - rewrite append_cons. simpl in *.
    apply andb_true_iff in Hv as [Hd Hv]. now rewrite Hd, IH.
Qed.

Lemma span_app (p : ascii -> bool) (s : string) :
  allString p (fst (span p s)) = true /\ s = fst (span p s) +:+ snd (span p s).
Proof.
  induction s as [|c s IH]; [split; reflexivity|]. simpl.
  destruct (p c) eqn:E; [|split; reflexivity].
  destruct (span p s) as [a b]. simpl in *. destruct IH as [IH1 IH2].
  rewrite E, IH1. split; [reflexivity|]. rewrite append_cons. now f_equal.
Qed.

Lemma stripPrefix_Some (p s r : string) : stripPrefix p s = Some r -> s = p +:+ r.
Proof.
  revert s. induction p as [|a p IH]; intros s H.
  - simpl in H. now injection H as ->.
  - destruct s as [|b s]; [discriminate|]. simpl in H.
    destruct (Ascii.eqb a b) eqn:E; [|discriminate].
    apply Ascii.eqb_eq in E. subst b. rewrite append_cons. f_equal. now apply IH.
Qed.

Lemma stripPrefix_app (p s : string) : stripPrefix p (p +:+ s) = Some s.
Proof.
  induction p as [|c p IH]; [reflexivity|].
  rewrite append_cons. simpl. now rewrite Ascii.eqb_refl.
Qed.


Lemma findLit_none (lit s : string) :
  findLit lit s = None ->
  stripPrefix lit s = None /\
  match s with String _ r => findLit lit r = None | EmptyString => True end.
Proof.
  destruct s as [|c r]; simpl.
  - destruct (stripPrefix lit ""); [discriminate | auto].
  - destruct (stripPrefix lit (String c r)); [discriminate|].
    destruct (findLit lit r) as [[? ?]|]; [discriminate | auto].
Qed.

Lemma attrVal_needs_tag (tag s : string) :
  stripPrefix tag s = None -> attrVal tag s = None.
Proof.
  intros H. unfold attrVal. now rewrite H.
Qed.

(** Where the tag does not occur, the attribute is not found. *)
Lemma searchFirst_attrVal_absent (tag s : string) :
  includes tag s = false -> searchFirst (attrVal tag) s = None.
Proof.
  unfold includes. intros H.
  assert (Hn : findLit tag s = None) by (destruct (findLit tag s); [discriminate | reflexivity]).
  clear H. induction s as [|c s IH].
  - simpl. apply findLit_none in Hn as [Hs _]. now rewrite attrVal_needs_tag.
  - apply findLit_none in Hn as [Hs Hr].
    cbn [searchFirst]. rewrite attrVal_needs_tag by assumption. now apply IH.
Qed.

Lemma stripPrefix_length (p s r : string) :
  stripPrefix p s = Some r -> String.length s = (String.length p + String.length r)%nat.
Proof.
  revert s. induction p as [|a p IH]; intros s H.
  - simpl in H. now injection H as ->.
  - destruct s as [|b s]; [discriminate|]. simpl in H.
    destruct (Ascii.eqb a b); [|discriminate]. simpl. now rewrite (IH s H).
Qed.

Lemma findLit_length (lit s b r : string) :
  findLit lit s = Some (b, r) ->
  String.length s = (String.length b + String.length lit + String.length r)%nat.
Proof.
  revert b. induction s as [|c s IH]; intros b; simpl.
  - destruct (stripPrefix lit "") as [rest|] eqn:E; [|discriminate].
    intros H. injection H as <- <-. now apply stripPrefix_length in E.
  - destruct (stripPrefix lit (String c s)) as [rest|] eqn:E.
    + intros H. injection H as <- <-. now apply stripPrefix_length in E.
    + destruct (findLit lit s) as [[b' a']|]; [|discriminate].
      intros H. injection H as <- <-. simpl. rewrite (IH b' eq_refl). lia.
Qed.

(** The loop over the series blocks does not depend on the fuel once it
    reaches the length of the text. *)
Lemma seriesLoop_fuel (f1 f2 : nat) (xml : string) :
  (String.length xml <= f1)%nat -> (String.length xml <= f2)%nat ->
  seriesLoop f1 xml = seriesLoop f2 xml.
Proof.
  revert f2 xml. induction f1 as [|f1 IH]; intros f2 xml H1 H2.
  - destruct xml; [|simpl in H1; lia]. now destruct f2.
  - destruct f2 as [|f2]; [destruct xml; [reflexivity | simpl in H2; lia]|].
    simpl. destruct (findLit "<c:ser>" xml) as [[b r]|] eqn:E1; [|reflexivity].
    destruct (findLit "</c:ser>" r) as [[body rest]|] eqn:E2; [|reflexivity].
    apply findLit_length in E1, E2. simpl String.length in E1, E2.
    rewrite (IH f2 rest) by lia. reflexivity.
Qed.

Lemma horizontal_parseChartXml (xml : string) :
  horizontal (parseChartXml xml) = snd (detectKind xml).
Proof.
  unfold parseChartXml. now destruct (detectKind xml).
Qed.

Lemma detectKind_bar (xml : string) :
  hasBarChartTag xml = true ->
  detectKind xml = (bar, isSome_eq (dirMatch xml) "bar").
Proof.
  unfold hasBarChartTag, detectKind. intros H.
  destruct (includes "<c:barChart" xml); [reflexivity|].
  simpl in H. now rewrite H.
Qed.

(** The search finds the match at the first position that has one. *)
Lemma searchFirst_spec {A : Type} (m : string -> option A) (xml : string) (a : A) :
  searchFirst m xml = Some a <->
  exists pre s : string,
    xml = pre +:+ s /\ m s = Some a /\
    forall pre' s' : string,
      xml = pre' +:+ s' -> (String.length pre' < String.length pre)%nat -> m s' = None.
Proof.
  induction xml as [|c r IH].
  - cbn [searchFirst]. split.
    + intros H. exists "", "". split; [reflexivity|]. split.
      * now destruct (m "").
      * intros pre' s' _ Hlt. simpl in Hlt. lia.
    + intros (pre & s & E & Hm & _).
      destruct pre as [|x pre]; [|discriminate]. rewrite append_nil in E. subst s.
      now rewrite Hm.
  - cbn [searchFirst]. destruct (m (String c r)) as [a'|] eqn:Em.
    + split.
      * intros [= <-]. exists "", (String c r). split; [reflexivity|]. split; [exact Em|].
        intros pre' s' _ Hlt. simpl in Hlt. lia.
      * intros (pre & s & E & Hm & Hmin).
        destruct pre as [|x pre].
        -- rewrite append_nil in E. subst s. congruence.
        -- specialize (Hmin "" (String c r) eq_refl). simpl in Hmin.
           rewrite Hmin in Em by lia. discriminate.
    + rewrite IH. split.
      * intros (pre & s & E & Hm & Hmin). exists (String c pre), s.
        split; [now rewrite append_cons, E|]. split; [exact Hm|].
        intros pre' s' E' Hlt. destruct pre' as [|x pre'].
        -- rewrite append_nil in E'. now subst s'.
        -- rewrite append_cons in E'. injection E' as _ E'. simpl in Hlt.
           apply (Hmin pre' s' E'). lia.
      * intros (pre & s & E & Hm & Hmin). destruct pre as [|x pre].
        -- rewrite append_nil in E. subst s. congruence.
        -- rewrite append_cons in E. injection E as _ E. exists pre, s.
           split; [exact E|]. split; [exact Hm|].
           intros pre' s' E' Hlt. apply (Hmin (String c pre') s').
           ++ now rewrite append_cons, E'.
           ++ simpl. lia.
Qed.

Lemma searchFirst_None {A : Type} (m : string -> option A) (xml : string) :
  searchFirst m xml = None <-> forall pre s : string, xml = pre +:+ s -> m s = None.
Proof.
  induction xml as [|c r IH]; cbn [searchFirst].
  - split.
    + intros H pre s E. destruct pre as [|x pre]; [|discriminate].
      rewrite append_nil in E. subst s. now destruct (m "").
    + intros H. now rewrite (H "" "" eq_refl).
  - split.
    + intros H pre s E. destruct (m (String c r)) eqn:Em; [discriminate|].
      destruct pre as [|x pre].
      * rewrite append_nil in E. now subst s.
      * rewrite append_cons in E. injection E as _ E.
        apply (proj1 IH H pre s E).
    + intros H. rewrite (H "" (String c r) eq_refl).
      apply IH. intros pre s E. apply (H (String c pre) s). now rewrite append_cons, E.
Qed.

(** The matcher of the attribute succeeds exactly on a direction attribute
    at the start of the text. *)
Lemma attrVal_directionAt (s v : string) :
  attrVal "<c:barDir" s = Some v <-> directionAt s v.
Proof.
  unfold directionAt. split.
  - unfold attrVal.
    destruct (stripPrefix "<c:barDir" s) as [r|] eqn:E1; [|discriminate].
    apply stripPrefix_Some in E1.
    pose proof (span_app isWhiteSpace r) as [Hws Er].
    destruct (span isWhiteSpace r) as [ws r1]. cbn [fst snd] in Hws, Er.
    destruct ws as [|w ws]; [discriminate|]. cbn [isEmpty].
    destruct (stripPrefix ("val=" +:+ String dquote "") r1) as [r2|] eqn:E2; [|discriminate].
    apply stripPrefix_Some in E2.
    pose proof (span_app (fun c => negb (Ascii.eqb c dquote)) r2) as [Hv Ev].
    destruct (span (fun c => negb (Ascii.eqb c dquote)) r2) as [b r3].
    cbn [fst snd] in Hv, Ev.
    destruct b as [|c b]; [discriminate|]. cbn [isEmpty].
    destruct r3 as [|q r3]; [discriminate|].
    destruct (Ascii.eqb_spec q dquote) as [-> | _]; [|discriminate].
    intros [= <-]. exists (String w ws), r3.
    split; [|split; [discriminate | split; [exact Hws | split; [discriminate | exact Hv]]]].
    rewrite E1, Er, E2, Ev. now rewrite !append_assoc.
  - intros (ws & rest & -> & Hne & Hws & Hv & Hq). unfold attrVal.
    rewrite stripPrefix_app.
    replace (ws +:+ "val=" +:+ String dquote v +:+ String dquote rest)
      with (ws +:+ String "v" ("al=" +:+ String dquote v +:+ String dquote rest))
      by reflexivity.
    rewrite (span_stop isWhiteSpace ws "v" _ Hws eq_refl).
    destruct ws as [|w ws]; [contradiction|]. cbn [isEmpty].
    change (stripPrefix ("val=" +:+ String dquote "")
              (String "v" ("al=" +:+ String dquote v +:+ String dquote rest)))
      with (Some (v +:+ String dquote rest)).
    cbv beta iota.
    rewrite (span_stop (fun c => negb (Ascii.eqb c dquote)) v dquote rest Hq eq_refl).
    destruct v as [|c v]; [contradiction|]. cbn [isEmpty].
    now rewrite Ascii.eqb_refl.
Qed.

(** What the parser reads as the direction is the direction of the text,
    and it reads none exactly when the text has none. *)
Lemma dirMatch_directionOf (xml v : string) :
  dirMatch xml = Some v <-> directionOf xml v.
Proof.
  unfold dirMatch, directionOf. rewrite searchFirst_spec. split.
  - intros (pre & s & E & Hm & Hmin). exists pre, s.
    split; [exact E|]. split; [now apply attrVal_directionAt|].
    intros pre' s' v' E' Hlt Hd. apply attrVal_directionAt in Hd.
    rewrite (Hmin pre' s' E' Hlt) in Hd. discriminate.
  - intros (pre & s & E & Hd & Hmin). exists pre, s.
    split; [exact E|]. split; [now apply attrVal_directionAt|].
    intros pre' s' E' Hlt.
    destruct (attrVal "<c:barDir" s') as [v'|] eqn:Ea; [|reflexivity].
    exfalso. apply (Hmin pre' s' v' E' Hlt). now apply attrVal_directionAt.
Qed.

Lemma dirMatch_noDirection (xml : string) :
  dirMatch xml = None <-> noDirection xml.
Proof.
  unfold dirMatch, noDirection. rewrite searchFirst_None. split.
  - intros H pre s v E Hd. apply attrVal_directionAt in Hd.
    rewrite (H pre s E) in Hd. discriminate.
  - intros H pre s E.
    destruct (attrVal "<c:barDir" s) as [v|] eqn:Ea; [|reflexivity].
    exfalso. apply (H pre s v E). now apply attrVal_directionAt.
Qed.

(** C8, as the code has it: in a chart text with a bar-chart tag, the
    horizontal flag is true exactly when the direction of the text is bar,
    the direction being the value of the first attribute written as the
    tag, white space and the value between double quotes; it is false when
    the direction is col or any other value, and false when the text has
    no such attribute. *)
Theorem bar_direction_horizontal (xml : string) :
  hasBarChartTag xml = true ->
  (horizontal (parseChartXml xml) = true <-> directionOf xml "bar") /\
  (directionOf xml "col" -> horizontal (parseChartXml xml) = false) /\
  (forall v, directionOf xml v -> v <> "bar" -> horizontal (parseChartXml xml) = false) /\
  (noDirection xml -> horizontal (parseChartXml xml) = false).
Proof.
  intros Htag.
  rewrite horizontal_parseChartXml, detectKind_bar by assumption. cbn [snd].
  assert (Other : forall v, directionOf xml v -> v <> "bar" ->
                            isSome_eq (dirMatch xml) "bar" = false).
  { intros v Hv Hne. apply dirMatch_directionOf in Hv. rewrite Hv.
    unfold isSome_eq. now apply String.eqb_neq. }
  split; [|split; [|split]].
  - rewrite <- dirMatch_directionOf. unfold isSome_eq.
    destruct (dirMatch xml) as [t|]; [|split; discriminate].
    rewrite String.eqb_eq. split; congruence.
  - intros H. apply (Other "col" H). discriminate.
  - exact Other.
  - intros H. apply dirMatch_noDirection in H. now rewrite H.
Qed.

Lemma bar_direction_horizontal_witness :
  directionOf spacedBarXml "bar"
  /\ horizontal (parseChartXml
       ("<c:plotArea><c:bar3DChart>" +:+ barDirAttr "col" +:+ "/></c:bar3DChart>")) = false
  /\ horizontal (parseChartXml "<c:plotArea><c:barChart><c:ser/></c:barChart>") = false.
Proof.
  split; [|split].
  - apply (proj1 (bar_direction_horizontal spacedBarXml eq_refl)).
    vm_compute. reflexivity.
  - apply (proj1 (proj2 (proj2 (bar_direction_horizontal
             ("<c:plotArea><c:bar3DChart>" +:+ barDirAttr "col" +:+ "/></c:bar3DChart>")
             eq_refl))) "col"); [|discriminate].
    apply dirMatch_directionOf. vm_compute. reflexivity.
  - apply (proj2 (proj2 (proj2 (bar_direction_horizontal
             "<c:plotArea><c:barChart><c:ser/></c:barChart>" eq_refl)))).
    apply dirMatch_noDirection. vm_compute. reflexivity.
Defined.

(** C8 as it is worded fails: a direction attribute with the value bar
    between single quotes is not read, and the chart is taken as
    vertical. *)
Lemma single_quoted_direction_counterexample :
  ~ (forall xml : string,
       hasBarChartTag xml = true -> quotedDirection xml "bar" ->
       horizontal (parseChartXml xml) = true).
Proof.
  intros H.
  specialize (H "<c:barChart><c:barDir val='bar'/></c:barChart>" eq_refl).
  assert (Hq : quotedDirection "<c:barChart><c:barDir val='bar'/></c:barChart>" "bar").
  { exists "<c:barChart>", "/></c:barChart>", "'"%char. split; [now right | reflexivity]. }
  specialize (H Hq). vm_compute in H. discriminate H.
Qed.

(** ** Column type classifier *)

Lemma trimEnd_empty (s : string) :
  trimEnd s = "" -> allString isWhiteSpace s = true.
Proof.
  induction s as [|c s IH]; [reflexivity|]. simpl.
  destruct (trimEnd s); [|discriminate].
  destruct (isWhiteSpace c); [|discriminate].
  intros _. now rewrite IH.
Qed.

Lemma trimStart_white (s : string) :
  allString isWhiteSpace (trimStart s) = true -> allString isWhiteSpace s = true.
Proof.
  induction s as [|c s IH]; [reflexivity|]. simpl.
  destruct (isWhiteSpace c) eqn:E; [assumption|].
  simpl. now rewrite E.
Qed.

Lemma trimStart_of_white (s : string) :
  allString isWhiteSpace s = true -> trimStart s = "".
Proof.
  induction s as [|c s IH]; [reflexivity|]. simpl.
  intros [Hc Hs]%andb_true_iff. rewrite Hc. now apply IH.
Qed.

Lemma allString_filter (p f : ascii -> bool) (s : string) :
  allString p s = true -> allString p (filterString f s) = true.
Proof.
  induction s as [|c s IH]; [reflexivity|]. simpl.
  intros [Hc Hs]%andb_true_iff.
  destruct (f c); simpl; [rewrite Hc|]; now apply IH.
Qed.

Lemma parseFloat_blank (s : string) : trimStart s = "" -> parseFloat s = NaN.
Proof.
  intros H. unfold parseFloat. now rewrite H.
Qed.

(** A string that is blank once trimmed does not parse as a number, with
    or without the symbols. *)
Lemma blank_not_numeric (s : string) :
  isEmpty (trim s) = true -> isNaN (parseFloat (stripSymbols s)) = true.
Proof.
  intros H. rewrite parseFloat_blank; [reflexivity|].
  apply trimStart_of_white, allString_filter, trimStart_white, trimEnd_empty.
  unfold trim in H. now destruct (trimEnd (trimStart s)).
Qed.

(** The counting loop takes its numeric branch exactly on the
    numeric-like values. *)
Lemma categoryOf_numeric (v : value) :
  match categoryOf v with CatNumeric => true | _ => false end = numericLike v.
Proof.
  destruct v as [| |n|s|b|t]; simpl; try reflexivity.
  - now destruct (isNaN n).
  - destruct (String.eqb s "true") eqn:E1;
      [apply String.eqb_eq in E1; now subst|].
    destruct (String.eqb s "false") eqn:E2;
      [apply String.eqb_eq in E2; now subst|].
    destruct (String.eqb s "TRUE") eqn:E3;
      [apply String.eqb_eq in E3; now subst|].
    destruct (String.eqb s "FALSE") eqn:E4;
      [apply String.eqb_eq in E4; now subst|].
    simpl.
    destruct (isNaN (parseFloat (stripSymbols s))) eqn:En; simpl.
    + now destruct (isDateString s).
    + destruct (isEmpty (trim s)) eqn:Et; [|reflexivity].
      apply blank_not_numeric in Et. congruence.
Qed.

Lemma count_step (c : Counts) (v : value) :
  numericCount (count c v)
  = (numericCount c + if numericLike v then 1 else 0)%nat
  /\ sumCounts (count c v) = S (sumCounts c).
Proof.
  rewrite <- categoryOf_numeric. unfold count, sumCounts.
  destruct (categoryOf v); simpl; lia.
Qed.

Lemma count_fold (l : list value) (c : Counts) :
  numericCount (fold_left count l c)
  = (numericCount c + length (List.filter numericLike l))%nat
  /\ sumCounts (fold_left count l c) = (sumCounts c + length l)%nat.
Proof.
  revert c. induction l as [|v l IH]; intros c; simpl.
  - split; lia.
  - destruct (IH (count c v)) as [IH1 IH2].
    destruct (count_step c v) as [S1 S2].
    rewrite IH1, IH2, S1, S2.
    destruct (numericLike v); simpl; lia.
Qed.

Lemma reaches_iff (cnt total : nat) :
  (0 < total)%nat ->
  reaches cnt total = true <-> (4 * total <= 5 * cnt)%nat.
Proof.
  intros Ht. unfold reaches. rewrite Qle_bool_iff. unfold Qle. simpl Qnum. simpl Qden.
  assert (Hp : Z.pos (Pos.of_nat total) = Z.of_nat total).
  { destruct total as [|t]; lia. }
  rewrite Hp. lia.
Qed.

(** When the numeric-like values reach four fifths of a sample that is
    not empty, the three earlier thresholds fail and the numeric one
    holds. *)
Lemma numeric_threshold_wins (sample : list value) :
  sample <> [] ->
  (4 * length sample <= 5 * length (List.filter numericLike sample))%nat ->
  let c := fold_left count sample
             {| numericCount := 0; dateCount := 0; booleanCount := 0; textCount := 0 |} in
  reaches (booleanCount c) (length sample) = false /\
  reaches (dateCount c) (length sample) = false /\
  reaches (textCount c) (length sample) = false /\
  reaches (numericCount c) (length sample) = true.
Proof.
  intros Hne Hnum c.
  assert (Hlen : (0 < length sample)%nat) by (destruct sample; [contradiction | simpl; lia]).
  destruct (count_fold sample
              {| numericCount := 0; dateCount := 0; booleanCount := 0; textCount := 0 |})
    as [Hn Hs].
  fold c in Hn, Hs. unfold sumCounts in Hs. simpl in Hn, Hs.
  repeat split.
  - apply not_true_is_false. rewrite reaches_iff by assumption. lia.
  - apply not_true_is_false. rewrite reaches_iff by assumption. lia.
  - apply not_true_is_false. rewrite reaches_iff by assumption. lia.
  - rewrite reaches_iff by assumption. lia.
Qed.

(** *** [parseFloat] and the removal of white space *)

(** [parseFloat] answers NaN exactly when no decimal literal starts after
    the leading white space and the sign. *)
Lemma isNaN_roundDouble (q : Q) : isNaN (roundDouble q) = false.
Proof.
  assert (H : forall neg a b, isNaN (roundPositive neg a b) = false).
  { intros neg a b. unfold roundPositive. now destruct (2 ^ 2098 <=? _). }
  unfold roundDouble. destruct (Qnum q); [reflexivity | apply H | apply H].
Qed.

Lemma isNaN_parseFloat (input : string) :
  isNaN (parseFloat input) = negb (startsNumber (snd (signOf (trimStart input)))).
Proof.
  unfold parseFloat. destruct (signOf (trimStart input)) as [neg s1]. simpl snd.
  unfold startsNumber. destruct (startsWith "Infinity" s1); [reflexivity|].
  simpl orb. destruct s1 as [|c r]; [reflexivity|].
  simpl span. simpl startsWithDigit. destruct (isDigit c) eqn:Ed.
  - destruct (span isDigit r) as [a b]. destruct (fractionOf b).
    cbn [isEmpty andb negb]. apply isNaN_roundDouble.
  - unfold fractionOf. simpl orb. destruct (Ascii.eqb c ".").
    + destruct r as [|d r']; [reflexivity|].
      simpl span. simpl startsWithDigit. destruct (isDigit d); [|reflexivity].
      destruct (span isDigit r'). cbn [isEmpty andb negb]. apply isNaN_roundDouble.
    + reflexivity.
Qed.

Lemma filterString_app (f : ascii -> bool) (a b : string) :
  filterString f (a +:+ b) = filterString f a +:+ filterString f b.
Proof.
  induction a as [|c a IH]; [reflexivity|].
  rewrite append_cons. simpl. rewrite IH. now destruct (f c).
Qed.

Lemma filterString_filterString (f g : ascii -> bool) (s : string) :
  filterString f (filterString g s) = filterString (fun c => g c && f c) s.
Proof.
  induction s as [|c s IH]; [reflexivity|]. simpl.
  destruct (g c); simpl; [destruct (f c)|]; now rewrite IH.
Qed.

Lemma filterString_ext (f g : ascii -> bool) (s : string) :
  (forall c, f c = g c) -> filterString f s = filterString g s.
Proof.
  intros H. induction s as [|c s IH]; [reflexivity|]. simpl. now rewrite H, IH.
Qed.

Lemma filter_trimStart (s : string) :
  filterString notWhiteSpace (trimStart s) = filterString notWhiteSpace s.
Proof.
  induction s as [|c s IH]; [reflexivity|]. simpl.
  assert (Hn : notWhiteSpace c = negb (isWhiteSpace c)) by reflexivity.
  destruct (isWhiteSpace c); simpl; rewrite Hn; simpl; [exact IH | reflexivity].
Qed.

Lemma trimStart_filter (s : string) :
  trimStart (filterString notWhiteSpace s) = filterString notWhiteSpace s.
Proof.
  induction s as [|c s IH]; [reflexivity|]. simpl.
  assert (Hn : notWhiteSpace c = negb (isWhiteSpace c)) by reflexivity.
  destruct (isWhiteSpace c) eqn:E; rewrite Hn; simpl; [exact IH | now rewrite E].
Qed.

Lemma trimStart_head (s : string) :
  match trimStart s with
  | String c _ => isWhiteSpace c = false
  | EmptyString => True
  end.
Proof.
  induction s as [|c s IH]; [exact I|]. simpl.
  destruct (isWhiteSpace c) eqn:E; [assumption | exact E].
Qed.

Lemma digit_not_white (c : ascii) : isDigit c = true -> isWhiteSpace c = false.
Proof.
  unfold isDigit, isWhiteSpace. intros [H1 H2]%andb_true_iff.
  apply Z.leb_le in H1, H2.
  destruct (code c <=? 13) eqn:A; [apply Z.leb_le in A; lia|].
  destruct (code c =? 32) eqn:B; [apply Z.eqb_eq in B; lia|].
  destruct (code c =? 160) eqn:C; [apply Z.eqb_eq in C; lia|].
  now rewrite andb_false_r.
Qed.

Lemma startsWithDigit_filter (s : string) :
  startsWithDigit s = true -> startsWithDigit (filterString notWhiteSpace s) = true.
Proof.
  destruct s as [|c s]; [discriminate|]. simpl. intros H.
  unfold notWhiteSpace. now rewrite (digit_not_white c H).
Qed.

(** The start of a decimal literal holds no white space, so it survives
    the removal of white space. *)
Lemma startsNumber_filter (s : string) :
  startsNumber s = true -> startsNumber (filterString notWhiteSpace s) = true.
Proof.
  unfold startsNumber. intros H.
  apply orb_true_iff in H as [H | H]; [apply orb_true_iff in H as [H | H]|].
  - unfold startsWith in H.
    destruct (stripPrefix "Infinity" s) as [r|] eqn:E; [|discriminate].
    apply stripPrefix_Some in E. subst s. rewrite filterString_app.
    change (filterString notWhiteSpace "Infinity") with "Infinity".
    unfold startsWith. now rewrite stripPrefix_app.
  - rewrite (startsWithDigit_filter s H). now rewrite orb_true_r.
  - destruct s as [|c r]; [discriminate|].
    apply andb_true_iff in H as [Hc Hr].
    apply Ascii.eqb_eq in Hc. subst c.
    change (filterString notWhiteSpace (String "." r))
      with (String "." (filterString notWhiteSpace r)).
    cbv beta iota. rewrite (startsWithDigit_filter r Hr).
    change (Ascii.eqb "." ".") with true. apply orb_true_r.
Qed.

(** A text that parses as a number still does once its white space is
    removed. *)
Lemma parseFloat_filter_notNaN (t : string) :
  isNaN (parseFloat t) = false ->
  isNaN (parseFloat (filterString notWhiteSpace t)) = false.
Proof.
  rewrite !isNaN_parseFloat, trimStart_filter, <- filter_trimStart.
  pose proof (trimStart_head t) as Hh.
  destruct (trimStart t) as [|c r]; [discriminate|].
  intros H. apply negb_false_iff in H. apply negb_false_iff.
  assert (Hf : filterString notWhiteSpace (String c r)
               = String c (filterString notWhiteSpace r)).
  { simpl. unfold notWhiteSpace at 1. now rewrite Hh. }
  rewrite Hf. unfold signOf in *.
  destruct (Ascii.eqb c "+"); [simpl snd in *; now apply startsNumber_filter|].
  destruct (Ascii.eqb c "-"); [simpl snd in *; now apply startsNumber_filter|].
  simpl snd in *. rewrite <- Hf. now apply startsNumber_filter.
Qed.

Lemma stripSymbolsAndSpace_eq (s : string) :
  stripSymbolsAndSpace s = filterString notWhiteSpace (stripSymbols s).
Proof.
  unfold stripSymbolsAndSpace, stripSymbols.
  rewrite filterString_filterString. apply filterString_ext.
  intros c. unfold notWhiteSpace. now rewrite negb_orb.
Qed.

(** A numeric-like value has a numeric value. *)
Lemma numericLike_extract (v : value) :
  numericLike v = true -> exists n, extractNumericValue v = Some n.
Proof.
  destruct v as [| |n|s|b|t]; simpl; try discriminate.
  - intros H. rewrite H. now exists n.
  - intros H. apply negb_true_iff in H.
    rewrite stripSymbolsAndSpace_eq, (parseFloat_filter_notNaN _ H). simpl. eauto.
Qed.

(** *** The set of the numeric values *)

Lemma sameValueZero_refl (a : jsnum) : sameValueZero a a = true.
Proof.
  destruct a as [|b|q]; simpl; [reflexivity | now destruct b | apply Qeq_bool_refl].
Qed.

Lemma sameValueZero_sym (a b : jsnum) : sameValueZero a b = sameValueZero b a.
Proof.
  destruct a as [|x|p], b as [|y|q]; simpl; try reflexivity.
  - now destruct x, y.
  - destruct (Qeq_bool p q) eqn:E1, (Qeq_bool q p) eqn:E2; try reflexivity.
    + apply Qeq_bool_iff, Qeq_sym, Qeq_bool_iff in E1. congruence.
    + apply Qeq_bool_iff, Qeq_sym, Qeq_bool_iff in E2. congruence.
Qed.

Lemma sameValueZero_trans (a b c : jsnum) :
  sameValueZero a b = true -> sameValueZero b c = true -> sameValueZero a c = true.
Proof.
  destruct a as [|x|p], b as [|y|q], c as [|z|r]; simpl; try discriminate; try reflexivity.
  - destruct x, y, z; simpl; congruence.
  - rewrite !Qeq_bool_iff. apply Qeq_trans.
Qed.

Lemma memNum_app (x : jsnum) (l1 l2 : list jsnum) :
  memNum x (l1 ++ l2) = memNum x l1 || memNum x l2.
Proof. apply existsb_app. Qed.

Lemma memNum_trans (x n : jsnum) (s : list jsnum) :
  sameValueZero x n = true -> memNum n s = true -> memNum x s = true.
Proof.
  unfold memNum. rewrite !existsb_exists. intros Hx (y & Hy & Hn).
  exists y. split; [assumption|]. now apply (sameValueZero_trans x n y).
Qed.

Lemma memNum_setAdd (x n : jsnum) (s : list jsnum) :
  memNum x (setAdd s n) = memNum x s || sameValueZero x n.
Proof.
  unfold setAdd. fold (memNum n s).
  destruct (memNum n s) eqn:E.
  - destruct (sameValueZero x n) eqn:Ex; [|now rewrite orb_false_r].
    now rewrite (memNum_trans x n s Ex E).
  - rewrite memNum_app. simpl. now rewrite orb_false_r.
Qed.

Lemma distinctNums_snoc (s : list jsnum) (n : jsnum) :
  distinctNums s = true -> memNum n s = false -> distinctNums (s ++ [n]) = true.
Proof.
  induction s as [|x s IH]; [reflexivity|]. simpl.
  intros [Hx Hs]%andb_true_iff [Hn Hm]%orb_false_iff.
  rewrite memNum_app. simpl. rewrite orb_false_r.
  rewrite (sameValueZero_sym x n), Hn, orb_false_r, Hx. simpl.
  now apply IH.
Qed.

Lemma distinctNums_setAdd (s : list jsnum) (n : jsnum) :
  distinctNums s = true -> distinctNums (setAdd s n) = true.
Proof.
  intros Hs. unfold setAdd. fold (memNum n s).
  destruct (memNum n s) eqn:E; [assumption|]. now apply distinctNums_snoc.
Qed.

Lemma fold_setAdd (l s : list jsnum) :
  distinctNums s = true ->
  distinctNums (fold_left setAdd l s) = true /\
  (forall x, memNum x (fold_left setAdd l s) = memNum x s || memNum x l) /\
  (length s <= length (fold_left setAdd l s))%nat.
Proof.
  revert s. induction l as [|n l IH]; intros s Hs; simpl.
  - repeat split; [assumption | intros x; now rewrite orb_false_r | lia].
  - destruct (IH (setAdd s n) (distinctNums_setAdd s n Hs)) as (H1 & H2 & H3).
    repeat split; [assumption | |].
    + intros x. now rewrite H2, memNum_setAdd, orb_assoc.
    + etransitivity; [|exact H3]. unfold setAdd.
      destruct (existsb _ s); [lia|]. rewrite length_app. lia.
Qed.

(** [new Set(l)] holds each number of [l] once: its size is the number of
    distinct values of [l]. *)
Lemma newSet_isDistinctCount (l : list jsnum) : isDistinctCount (length (newSet l)) l.
Proof.
  exists (newSet l). unfold newSet.
  destruct (fold_setAdd l [] eq_refl) as (H1 & H2 & _).
  repeat split; [assumption | intros x; now rewrite H2].
Qed.

Lemma newSet_nonempty (l : list jsnum) : l <> [] -> (1 <= length (newSet l))%nat.
Proof.
  destruct l as [|n l]; [contradiction|]. intros _. unfold newSet. simpl.
  destruct (fold_setAdd l (setAdd [] n) eq_refl) as (_ & _ & H). exact H.
Qed.

Lemma isInteger_sameValueZero (a b : jsnum) :
  sameValueZero a b = true -> isInteger a = isInteger b.
Proof.
  destruct a as [|x|p], b as [|y|q]; simpl; try discriminate; try reflexivity.
  intros H. apply Qeq_bool_iff, Qred_complete in H. now rewrite H.
Qed.

Lemma memNum_exists (x : jsnum) (l : list jsnum) :
  memNum x l = true <-> exists y, In y l /\ sameValueZero x y = true.
Proof. apply existsb_exists. Qed.

(** The set holds integers only exactly when the list does. *)
Lemma newSet_integers (l : list jsnum) :
  forallb isInteger (newSet l) = true <-> forall x, In x l -> isInteger x = true.
Proof.
  unfold newSet. destruct (fold_setAdd l [] eq_refl) as (_ & Hmem & _).
  rewrite forallb_forall. split.
  - intros H x Hx.
    assert (Hm : memNum x (fold_left setAdd l []) = true).
    { rewrite Hmem. simpl. apply memNum_exists. exists x.
      split; [assumption | apply sameValueZero_refl]. }
    apply memNum_exists in Hm as (y & Hy & Hxy).
    rewrite (isInteger_sameValueZero x y Hxy). now apply H.
  - intros H y Hy.
    assert (Hm : memNum y (fold_left setAdd l []) = true).
    { apply memNum_exists. exists y. split; [assumption | apply sameValueZero_refl]. }
    rewrite Hmem in Hm. simpl in Hm. apply memNum_exists in Hm as (x & Hx & Hyx).
    rewrite (isInteger_sameValueZero y x Hyx). now apply H.
Qed.








(** *** The unique count of a column *)

Lemma detect_unique_iff (values allValues : list value) :
  is_Some (uniqueCount (detectColumnType values allValues)) <->
  detectedType (detectColumnType values allValues) = numeric \/
  detectedType (detectColumnType values allValues) = categorical.
Proof.
  unfold detectColumnType.
  destruct (List.filter present values) as [|v rest].
  { simpl. split; [intros [x Hx]; discriminate | intros [H | H]; discriminate]. }
  repeat match goal with
         | |- context [if ?b then _ else _] => destruct b
         end; simpl;
    (split; [intros [x Hx]; (discriminate || auto) | intros [H | H]; (discriminate || eauto)]).
Qed.

(** When [detectColumnType] gives a unique count, it is the size of the
    set of the numeric values of the full column, and the numeric-like
    values reach the threshold in a sample that is not empty. *)
Lemma detect_unique_count (values allValues : list value) (n : nat) :
  uniqueCount (detectColumnType values allValues) = Some n ->
  n = length (newSet (numericValues allValues)) /\
  List.filter present values <> [] /\
  (4 * length (List.filter present values)
   <= 5 * length (List.filter numericLike (List.filter present values)))%nat.
Proof.
  unfold detectColumnType.
  destruct (List.filter present values) as [|v rest] eqn:Es; [discriminate|].
  rewrite <- Es.
  set (c := fold_left count _ _).
  destruct (reaches (booleanCount c) _); [discriminate|].
  destruct (reaches (dateCount c) _); [discriminate|].
  destruct (reaches (textCount c) _); [discriminate|].
  destruct (reaches (numericCount c) _) eqn:En; [|discriminate].
  intros H.
  assert (Hn : n = length (newSet (numericValues allValues)))
    by (destruct (_ && _) in H; simpl in H; congruence).
  split; [assumption|]. split; [rewrite Es; discriminate|].
  apply reaches_iff in En; [|rewrite Es; simpl; lia].
  destruct (count_fold (List.filter present values)
              {| numericCount := 0; dateCount := 0; booleanCount := 0; textCount := 0 |})
    as [Hc _].
  fold c in Hc. simpl in Hc. lia.
Qed.

Lemma map_take {A B : Type} (f : A -> B) (k : nat) (l : list A) :
  map f (take k l) = take k (map f l).
Proof.
  revert k. induction l as [|x l IH]; intros [|k]; simpl; try reflexivity.
  now rewrite IH.
Qed.

Lemma In_take {A : Type} (k : nat) (l : list A) (x : A) : In x (take k l) -> In x l.
Proof.
  revert k. induction l as [|y l IH]; intros [|k]; simpl; try tauto.
  intros [-> | H]; [now left | right; eauto].
Qed.

(** With the sample taken from the head of the column, a unique count is
    at least one: some sampled value is numeric-like, and its numeric
    value is in the set. *)
Lemma detect_unique_positive (k : nat) (allValues : list value) (n : nat) :
  uniqueCount (detectColumnType (take k allValues) allValues) = Some n ->
  (1 <= n)%nat.
Proof.
  intros H. apply detect_unique_count in H as (-> & Hne & Hnum).
  apply newSet_nonempty.
  set (sample := List.filter present (take k allValues)) in *.
  assert (Hlen : (0 < length sample)%nat) by (destruct sample; [contradiction | simpl; lia]).
  destruct (List.filter numericLike sample) as [|v l] eqn:Ef; [simpl in Hnum; lia|].
  assert (Hv : In v (List.filter numericLike sample)) by (rewrite Ef; now left).
  apply filter_In in Hv as [Hv Hnl]. unfold sample in Hv.
  apply filter_In in Hv as [Hv _]. apply In_take in Hv.
  destruct (numericLike_extract v Hnl) as [x Hx].
  intros Hnil.
  assert (Hin : x ∈ numericValues allValues).
  { unfold numericValues. apply list_elem_of_omap. exists v.
    split; [now apply list_elem_of_In | assumption]. }
  rewrite Hnil in Hin. now apply not_elem_of_nil in Hin.
Qed.

Section AnalyzerFacts.
Context {host : Host}.

Lemma columnInfo_unique (headers : list string) (dataRows : Grid) (colIdx : nat) :
  let info := columnInfo headers dataRows colIdx in
  (is_Some (uniqueValues info) <-> type info = numeric \/ type info = categorical) /\
  (forall n, uniqueValues info = Some n ->
     (1 <= n)%nat /\
     n = length (newSet (numericValues (columnValues dataRows colIdx)))).
Proof.
  unfold columnInfo. simpl. split; [apply detect_unique_iff|].
  intros n Hn. split.
  - rewrite map_take in Hn. now apply detect_unique_positive in Hn.
  - now apply detect_unique_count in Hn as [Hn _].
Qed.

(** Every entry of the column map was written for one of the column
    indices, under its letter. *)
Lemma columns_fold (headers : list string) (dataRows : Grid) (cols : list nat)
    (m : gmap string ColumnInfo) (letter : string) (info : ColumnInfo) :
  fold_left
    (fun columns colIdx =>
       <[getColumnLetter (Z.of_nat colIdx) := columnInfo headers dataRows colIdx]> columns)
    cols m !! letter = Some info ->
  m !! letter = Some info \/
  exists colIdx, In colIdx cols /\ letter = getColumnLetter (Z.of_nat colIdx)
                 /\ info = columnInfo headers dataRows colIdx.
Proof.
  revert m. induction cols as [|c cols IH]; intros m H; simpl in H; [now left|].
  apply IH in H as [H | (colIdx & Hin & Hl & Hi)].
  - destruct (decide (getColumnLetter (Z.of_nat c) = letter)) as [E | E].
    + subst letter. rewrite lookup_insert_eq in H. injection H as <-.
      right. exists c. repeat split. now left.
    + rewrite lookup_insert_ne in H by assumption. now left.
  - right. exists colIdx. repeat split; [now right | assumption | assumption].
Qed.

Lemma analyzeSheet_Some (name : string) (data : Grid) (sheet : ExcelSheetSummary) :
  analyzeSheet name data = Some sheet ->
  (2 <= length data)%nat /\
  nonEmptyColumnIndices (headersOf (default [] (head data))) (drop 1 data) <> [] /\
  sheetName sheet = name /\
  columns sheet
  = fold_left
      (fun columns colIdx =>
         <[getColumnLetter (Z.of_nat colIdx)
           := columnInfo (headersOf (default [] (head data))) (drop 1 data) colIdx]> columns)
      (nonEmptyColumnIndices (headersOf (default [] (head data))) (drop 1 data)) ∅.
Proof.
  unfold analyzeSheet.
  destruct (Nat.ltb (length data) 2) eqn:El; [discriminate|].
  apply Nat.ltb_ge in El.
  destruct (nonEmptyColumnIndices _ _) as [|c cols] eqn:Ec; [discriminate|].
  intros H. injection H as <-. simpl. repeat split; [assumption | discriminate].
Qed.

Lemma analyze_sheets (wb : Workbook) (filename : string) (summary : ExcelWorkbookSummary) :
  analyzeExcelStructure wb filename = inr summary ->
  sheets summary = omap (fun '(sheetName, data) => analyzeSheet sheetName data) wb /\
  sheets summary <> [].
Proof.
  unfold analyzeExcelStructure.
  destruct (omap _ wb) as [|s l] eqn:E; [discriminate|].
  intros H. injection H as <-. simpl. split; [reflexivity | discriminate].
Qed.

(** C10: in every sheet of the summary and for every column of it, the
    unique count is present exactly when the type is Numeric or
    Categorical; when present it is the number of distinct numeric values
    of the full column of that sheet, and it is at least one. *)
Theorem unique_count_presence (wb : Workbook) (filename : string)
    (summary : ExcelWorkbookSummary) (sheet : ExcelSheetSummary)
    (letter : string) (info : ColumnInfo) :
  analyzeExcelStructure wb filename = inr summary ->
  In sheet (sheets summary) ->
  columns sheet !! letter = Some info ->
  (is_Some (uniqueValues info) <-> type info = numeric \/ type info = categorical) /\
  (forall n, uniqueValues info = Some n ->
     (1 <= n)%nat /\
     exists (data : Grid) (colIdx : nat),
       In (sheetName sheet, data) wb /\
       letter = getColumnLetter (Z.of_nat colIdx) /\
       isDistinctCount n (numericValues (columnValues (drop 1 data) colIdx))).
Proof.
  intros Hres Hin Hcol.
  apply analyze_sheets in Hres as [Hsheets _].
  rewrite Hsheets in Hin. apply list_elem_of_In, list_elem_of_omap in Hin.
  destruct Hin as ([name data] & Hwb & Hs).
  apply analyzeSheet_Some in Hs as (_ & _ & Hname & Hcols).
  rewrite Hcols in Hcol. apply columns_fold in Hcol as [Hcol | (colIdx & Hc & Hl & ->)].
  { rewrite lookup_empty in Hcol. discriminate. }
  destruct (columnInfo_unique (headersOf (default [] (head data))) (drop 1 data) colIdx)
    as [Hiff Hval].
  split; [exact Hiff|].
  intros n Hn. destruct (Hval n Hn) as [Hpos ->].
  split; [assumption|].
  exists data, colIdx. repeat split.
  - rewrite Hname. now apply list_elem_of_In.
  - assumption.
  - apply newSet_isDistinctCount.
Qed.

End AnalyzerFacts.

(** ** Sheets without data *)

Section SkippedSheets.
Context {host : Host}.

Lemma length_headersOf (headerRow : list value) :
  length (headersOf headerRow) = length headerRow.
Proof. unfold headersOf. apply length_imap. Qed.

Lemma filter_nil_iff {A : Type} (p : A -> bool) (l : list A) :
  List.filter p l = [] <-> forall x, In x l -> p x = false.
Proof.
  induction l as [|y l IH]; simpl.
  - split; [intros _ x [] | reflexivity].
  - destruct (p y) eqn:E.
    + split; [discriminate|]. intros H. specialize (H y (or_introl eq_refl)). congruence.
    + rewrite IH. split.
      * intros H x [-> | Hx]; auto.
      * intros H x Hx. apply H. now right.
Qed.

Lemma existsb_false_iff {A : Type} (p : A -> bool) (l : list A) :
  existsb p l = false <-> forall x, In x l -> p x = false.
Proof.
  induction l as [|y l IH]; simpl.
  - split; [intros _ x [] | reflexivity].
  - rewrite orb_false_iff, IH. split.
    + intros [Hy H] x [-> | Hx]; auto.
    + intros H. split; [apply H; now left | intros x Hx; apply H; now right].
Qed.

(** No column index is kept exactly when the sheet has no data column. *)
Lemma nonEmptyColumnIndices_nil (data : Grid) :
  nonEmptyColumnIndices (headersOf (default [] (head data))) (drop 1 data) = []
  <-> noDataColumn data.
Proof.
  unfold nonEmptyColumnIndices, noDataColumn.
  rewrite filter_nil_iff, length_headersOf. split.
  - intros H idx row Hidx Hrow.
    specialize (H idx). rewrite existsb_false_iff in H.
    apply (H ltac:(apply in_seq; lia) row Hrow).
  - intros H idx Hidx%in_seq. apply existsb_false_iff.
    intros row Hrow. apply H; [lia | assumption].
Qed.

(** A sheet is skipped exactly when it has too few rows or no data
    column. *)
Lemma analyzeSheet_None (name : string) (data : Grid) :
  analyzeSheet name data = None <-> tooFewRows data \/ noDataColumn data.
Proof.
  unfold analyzeSheet, tooFewRows.
  destruct (Nat.ltb (length data) 2) eqn:El.
  - apply Nat.ltb_lt in El. split; [now left | reflexivity].
  - apply Nat.ltb_ge in El. rewrite <- nonEmptyColumnIndices_nil.
    destruct (nonEmptyColumnIndices _ _) as [|c cols].
    + split; [now right | reflexivity].
    + split; [discriminate | intros [H | H]; [lia | discriminate]].
Qed.

Lemma omap_length_le {A B : Type} (f : A -> option B) (l : list A) :
  (length (omap f l) <= length l)%nat.
Proof.
  induction l as [|x l IH]; csimpl; [lia|].
  destruct (f x); csimpl; lia.
Qed.

(** C4: when every sheet of the workbook has fewer than two rows or no
    non-empty data column, the analysis ends with the error of no valid
    sheets and gives no summary; when some sheet is valid, the sheets that
    are skipped do not prevent the summary, which holds that sheet. *)
Theorem no_valid_sheets_error :
  (forall (wb : Workbook) (filename : string),
     (forall name data, In (name, data) wb -> tooFewRows data \/ noDataColumn data) ->
     analyzeExcelStructure wb filename = inl "No valid sheets found in workbook") /\
  (forall (wb : Workbook) (filename : string) (name : string) (data : Grid),
     In (name, data) wb ->
     ~ tooFewRows data -> ~ noDataColumn data ->
     exists summary sheet,
       analyzeExcelStructure wb filename = inr summary /\
       In sheet (sheets summary) /\ sheetName sheet = name /\
       (length (sheets summary) <= length wb)%nat).
Proof.
  split.
  - intros wb filename Hall. unfold analyzeExcelStructure.
    replace (omap _ wb) with (@nil ExcelSheetSummary); [reflexivity|].
    symmetry. apply elem_of_nil_inv. intros sheet Hin.
    apply list_elem_of_omap in Hin as ([name data] & Hwb & Hs).
    apply list_elem_of_In, Hall, (analyzeSheet_None name) in Hwb. congruence.
  - intros wb filename name data Hin Hrows Hcols.
    destruct (analyzeSheet name data) as [sheet|] eqn:Es;
      [|apply analyzeSheet_None in Es; tauto].
    assert (Hs : sheet ∈ omap (fun '(sheetName, data) => analyzeSheet sheetName data) wb).
    { apply list_elem_of_omap. exists (name, data). split; [now apply list_elem_of_In | exact Es]. }
    unfold analyzeExcelStructure.
    pose proof (omap_length_le (fun '(sheetName, data) => analyzeSheet sheetName data) wb) as Hlen.
    destruct (omap _ wb) as [|s l] eqn:E; [now apply not_elem_of_nil in Hs|].
    eexists _, sheet. split; [reflexivity|]. cbn [sheets].
    split; [now apply list_elem_of_In|].
    split; [now apply analyzeSheet_Some in Es as (_ & _ & Hn & _) | exact Hlen].
Qed.

End SkippedSheets.

Lemma no_valid_sheets_error_witness :
  analyzeExcelStructure (host := exampleHost) coverWorkbook "report.xlsx"
  = inl "No valid sheets found in workbook"
  /\ exists summary sheet,
       analyzeExcelStructure (host := exampleHost) scoreWorkbook "scores.csv" = inr summary /\
       In sheet (sheets summary) /\ sheetName sheet = "Scores" /\
       (length (sheets summary) <= length scoreWorkbook)%nat.
Proof.
  split.
  - apply (proj1 (no_valid_sheets_error (host := exampleHost)) coverWorkbook "report.xlsx").
    intros name data [H | [H | []]]; injection H as _ <-; left; unfold tooFewRows; simpl; lia.
  - apply (proj2 (no_valid_sheets_error (host := exampleHost)) scoreWorkbook "scores.csv"
             "Scores" scoreGrid).
    + right. right. now left.
    + unfold tooFewRows. simpl. lia.
    + intros H. specialize (H 0%nat [Str "A"; Num (ofZ 1)] ltac:(simpl; lia) ltac:(now left)).
      discriminate H.
Defined.

Lemma unique_count_presence_witness :
  (is_Some (uniqueValues scoreInfo) <-> type scoreInfo = numeric \/ type scoreInfo = categorical) /\
  (1 <= 3)%nat /\
  exists (data : Grid) (colIdx : nat),
    In (sheetName scoreSheet, data) scoreWorkbook /\
    "B" = getColumnLetter (Z.of_nat colIdx) /\
    isDistinctCount 3 (numericValues (columnValues (drop 1 data) colIdx)).
Proof.
  assert (W := unique_count_presence (host := exampleHost) scoreWorkbook "scores.csv"
                 scoreSummary scoreSheet "B" scoreInfo).
  destruct W as [Hiff Hval].
  - vm_compute. reflexivity.
  - now left.
  - vm_compute. reflexivity.
  - split; [exact Hiff | exact (Hval 3%nat eq_refl)].
Defined.

(** ** Codebook extraction *)

Section CodebookFacts.
Context {host : Host}.

Lemma columnRow_length (row : list value) : columnRow row -> (2 <= length row)%nat.
Proof.
  intros [_ Hname]. unfold describedName, cellOf in Hname.
  destruct (row !! 1%nat) as [v|] eqn:E.
  - apply lookup_lt_Some in E. lia.
  - now simpl in Hname.
Qed.

(** The step of the loop on a column row that is not a header. *)
Lemma codebookRow_columnRow (codebook : gmap string string) (row : list value) :
  columnRow row -> headerLike row = false ->
  codebookRow codebook row = objSet (describedName row) (describedText row) codebook.
Proof.
  intros Hrow Hhead. pose proof (columnRow_length row Hrow) as Hlen.
  destruct Hrow as [Hpat Hname].
  unfold codebookRow.
  destruct (Nat.ltb (length row) 2) eqn:El; [apply Nat.ltb_lt in El; lia|].
  unfold headerLike in Hhead. rewrite Hhead, Hpat.
  unfold describedName in Hname.
  destruct (cellText (cellOf row 1)) eqn:E2; [contradiction|].
  unfold describedName, describedText. now rewrite E2.
Qed.

Lemma codebook_kept (post : Grid) (codebook : gmap string string) (key : string) :
  (forall r cb, In r post -> codebookRow cb r !! key = cb !! key) ->
  fold_left codebookRow post codebook !! key = codebook !! key.
Proof.
  revert codebook. induction post as [|r post IH]; intros codebook H; [reflexivity|].
  simpl. rewrite IH by (intros; apply H; now right). apply H. now left.
Qed.

Lemma size_pos_of_lookup (m : gmap string string) (k v : string) :
  m !! k = Some v -> Nat.ltb 0 (size m) = true.
Proof.
  intros H. apply Nat.ltb_lt.
  destruct (size m) eqn:E; [|lia].
  apply map_size_empty_inv in E. subst m. rewrite lookup_empty in H. discriminate.
Qed.

(** C7, as the code has it: in a grid of at least two rows, a row whose
    first cell reads column and a letter and which has a second cell, and
    which is not a header row, maps the text of the second cell to the
    text of the third cell, or to the second itself when the third has no
    text; the codebook keeps that entry when no later row writes the same
    name.  The two rows for Age and Sex give exactly the codebook of Age
    and Sex. *)
Theorem codebook_column_rows :
  (forall (codebook : gmap string string) (row : list value),
     columnRow row -> headerLike row = false ->
     describedName row <> "__proto__" ->
     codebookRow codebook row = <[describedName row := describedText row]> codebook) /\
  (forall (pre post : Grid) (row : list value),
     (2 <= length (pre ++ row :: post))%nat ->
     columnRow row -> headerLike row = false ->
     describedName row <> "__proto__" ->
     (forall r cb, In r post ->
        codebookRow cb r !! describedName row = cb !! describedName row) ->
     exists cb, extractCodebook (pre ++ row :: post) = Some cb /\
                cb !! describedName row = Some (describedText row)) /\
  extractCodebook ageGrid = Some (<["Age" := "Age in years"]> (<["Sex" := "M/F"]> ∅)).
Proof.
  assert (Step : forall (codebook : gmap string string) (row : list value),
     columnRow row -> headerLike row = false ->
     describedName row <> "__proto__" ->
     codebookRow codebook row = <[describedName row := describedText row]> codebook).
  { intros codebook row Hrow Hhead Hproto.
    rewrite codebookRow_columnRow by assumption. unfold objSet.
    destruct (String.eqb (describedName row) "__proto__") eqn:E; [|reflexivity].
    apply String.eqb_eq in E. contradiction. }
  split; [exact Step|]. split.
  - intros pre post row Hlen Hrow Hhead Hproto Hpost.
    unfold extractCodebook.
    destruct (Nat.ltb (length (pre ++ row :: post)) 2) eqn:El;
      [apply Nat.ltb_lt in El; lia|].
    assert (Hl : fold_left codebookRow (pre ++ row :: post) ∅ !! describedName row
                 = Some (describedText row)).
    { rewrite fold_left_app. simpl. rewrite codebook_kept by assumption.
      rewrite Step by assumption. apply lookup_insert_eq. }
    rewrite (size_pos_of_lookup _ _ _ Hl). eauto.
  - vm_compute. reflexivity.
Qed.

End CodebookFacts.

Lemma codebook_column_rows_witness :
  exists cb, extractCodebook (host := exampleHost) ([] ++ spacedAgeRow :: [[Null; Null]])
             = Some cb /\
             cb !! "Age" = Some "Age".
Proof.
  apply (proj1 (proj2 (codebook_column_rows (host := exampleHost)))
           [] [[Null; Null]] spacedAgeRow).
  - simpl. lia.
  - split; [reflexivity | discriminate].
  - reflexivity.
  - discriminate.
  - intros r cb [<- | []]. reflexivity.
Defined.

(** C7 as it is worded fails: the row that names a variable called
    Variable has a column reference and a second cell, but it is taken for
    a header and leaves no entry. *)
Lemma codebook_header_row_counterexample :
  ~ (forall (data : Grid) (row : list value),
       In row data ->
       columnLetterPattern (cellText (host := exampleHost) (cellOf row 0)) = true ->
       describedName (host := exampleHost) row <> "" ->
       exists cb, extractCodebook (host := exampleHost) data = Some cb /\
                  cb !! describedName (host := exampleHost) row
                  = Some (describedText (host := exampleHost) row)).
Proof.
  intros H.
  destruct (H variableGrid [Str "Column A"; Str "Variable"; Str "Kind of variable"])
    as (cb & Hcb & Hl); [now left | reflexivity | discriminate |].
  assert (Hcode : extractCodebook (host := exampleHost) variableGrid
                  = Some (<["Sex" := "M/F"]> ∅)) by (vm_compute; reflexivity).
  rewrite Hcode in Hcb. injection Hcb as <-.
  vm_compute in Hl. discriminate Hl.
Qed.

(** ** Chart model builder *)

Lemma fold_min_le (t : list nat) (h : nat) :
  (fold_left Nat.min t h <= h)%nat /\
  (forall x, In x t -> (fold_left Nat.min t h <= x)%nat) /\
  In (fold_left Nat.min t h) (h :: t).
Proof.
  revert h. induction t as [|y t IH]; intros h; simpl.
  - repeat split; [lia | intros x [] | now left].
  - destruct (IH (Nat.min h y)) as (H1 & H2 & H3). repeat split.
    + lia.
    + intros x [-> | Hx]; [lia | now apply H2].
    + destruct H3 as [H3 | H3]; [|right; right; exact H3].
      destruct (Nat.min_dec h y) as [E | E]; [left | right; left]; congruence.
Qed.

(** [minOf] gives the least element of a list that is not empty. *)
Lemma minOf_least (l : list nat) :
  l <> [] ->
  In (minOf l) l /\ forall x, In x l -> (minOf l <= x)%nat.
Proof.
  destruct l as [|h t]; [contradiction|]. intros _. simpl minOf.
  destruct (fold_min_le t h) as (H1 & H2 & H3).
  split; [assumption|]. intros x [<- | Hx]; [assumption | now apply H2].
Qed.

Section BuilderFacts.
Context {host : Host}.

Lemma toNumber_plainNumber (v : value) : toNumber v = plainNumber v.
Proof.
  destruct v as [| |n|s|b|t]; try reflexivity.
  - now destruct s.
  - now destruct b.
Qed.

Lemma validNumber_finite (n : jsnum) : validNumber n = true <-> isFinite n = true.
Proof.
  unfold validNumber. destruct n; simpl; split; congruence.
Qed.

(** What [buildChartData] returns, in terms of the labels and datasets
    that were resolved. *)
Lemma buildChartData_Some (xml : string) (sheetData : Grid) (cd : ChartData) :
  buildChartData xml sheetData = Some cd ->
  let surviving := resolveDatasets (parseChartXml xml) sheetData in
  let resolved := resolveLabels (parseChartXml xml) sheetData in
  let n := minOf (map (fun ds => length (data ds)) surviving) in
  surviving <> [] /\
  datasets cd = map (truncateTo n) surviving /\
  labels cd = (if Nat.eqb (length resolved) 0
               then map (fun i : nat => pretty (Z.of_nat i + 1)) (seq 0 n)
               else take n resolved).
Proof.
  intros H surviving resolved n. unfold buildChartData in H.
  fold surviving resolved in H. fold n in H.
  destruct surviving as [|d l] eqn:E; [discriminate|].
  injection H as <-. simpl. repeat split. discriminate.
Qed.

(** C2, as the code has it: in a chart that [buildChartData] returns,
    every dataset has the length of the shortest resolved series, to which
    all were cut; the labels are numbered to that length when none were
    resolved, and cut to it otherwise, so that they have that length
    unless fewer labels were resolved.  With two series of lengths 5 and 3,
    and no label or at least three, datasets and labels have length 3. *)
Theorem dataset_lengths_normalised :
  (forall (xml : string) (sheetData : Grid) (cd : ChartData),
     buildChartData xml sheetData = Some cd ->
     let surviving := resolveDatasets (parseChartXml xml) sheetData in
     let resolved := resolveLabels (parseChartXml xml) sheetData in
     let n := minOf (map (fun ds => length (data ds)) surviving) in
     datasets cd = map (truncateTo n) surviving /\
     (forall ds, In ds (datasets cd) -> length (data ds) = n) /\
     (forall ds, In ds surviving -> (n <= length (data ds))%nat) /\
     (exists ds, In ds surviving /\ length (data ds) = n) /\
     length (labels cd)
     = (if Nat.eqb (length resolved) 0 then n else Nat.min n (length resolved))) /\
  (forall (xml : string) (sheetData : Grid) (cd : ChartData) (d1 d2 : Dataset),
     buildChartData xml sheetData = Some cd ->
     resolveDatasets (parseChartXml xml) sheetData = [d1; d2] ->
     length (data d1) = 5%nat -> length (data d2) = 3%nat ->
     length (resolveLabels (parseChartXml xml) sheetData) = 0%nat \/
     (3 <= length (resolveLabels (parseChartXml xml) sheetData))%nat ->
     (forall ds, In ds (datasets cd) -> length (data ds) = 3%nat) /\
     length (labels cd) = 3%nat).
Proof.
  assert (General : forall (xml : string) (sheetData : Grid) (cd : ChartData),
     buildChartData xml sheetData = Some cd ->
     let surviving := resolveDatasets (parseChartXml xml) sheetData in
     let resolved := resolveLabels (parseChartXml xml) sheetData in
     let n := minOf (map (fun ds => length (data ds)) surviving) in
     datasets cd = map (truncateTo n) surviving /\
     (forall ds, In ds (datasets cd) -> length (data ds) = n) /\
     (forall ds, In ds surviving -> (n <= length (data ds))%nat) /\
     (exists ds, In ds surviving /\ length (data ds) = n) /\
     length (labels cd)
     = (if Nat.eqb (length resolved) 0 then n else Nat.min n (length resolved))).
  { intros xml sheetData cd H surviving resolved n.
    destruct (buildChartData_Some xml sheetData cd H) as (Hne & Hds & Hlab).
    fold surviving in Hne, Hds, Hlab. fold resolved in Hlab. fold n in Hds, Hlab.
    destruct (minOf_least (map (fun ds => length (data ds)) surviving)) as [Hin Hle].
    { intros E. apply map_eq_nil in E. contradiction. }
    fold n in Hin, Hle.
    assert (Hmin : forall ds, In ds surviving -> (n <= length (data ds))%nat).
    { intros ds Hd. apply Hle. now apply (in_map (fun ds => length (data ds))). }
    split; [assumption|]. split; [|split; [assumption|split]].
    - intros ds Hd. rewrite Hds in Hd. apply in_map_iff in Hd as (d0 & <- & Hd0).
      simpl. rewrite length_take. specialize (Hmin d0 Hd0). lia.
    - apply in_map_iff in Hin as (d0 & Hd0 & Hin). now exists d0.
    - rewrite Hlab. destruct (Nat.eqb (length resolved) 0).
      + now rewrite length_map, length_seq.
      + apply length_take. }
  split; [exact General|].
  intros xml sheetData cd d1 d2 H Hs H1 H2 Hl.
  destruct (General xml sheetData cd H) as (_ & Hlen & _ & _ & Hlab).
  rewrite Hs in Hlen, Hlab.
  assert (Hn : minOf (map (fun ds => length (data ds)) [d1; d2]) = 3%nat)
    by (simpl; now rewrite H1, H2).
  rewrite Hn in Hlen, Hlab. split; [exact Hlen|].
  rewrite Hlab. destruct Hl as [-> | Hl]; [reflexivity|].
  destruct (Nat.eqb_spec (length (resolveLabels (parseChartXml xml) sheetData)) 0); lia.
Qed.

(** C3, as the code has it: the dataset of a series holds the finite
    numbers among the values of its reference, a native number taken as it
    is and any other value parsed from its text as it stands, with no
    character removed; the datasets of the chart are these, cut to one
    length.  In a column of amounts written as text, an amount that starts
    with a dollar sign is dropped and one with a comma is read up to the
    comma; an amount beyond the range of doubles is an infinity and is
    dropped. *)
Theorem series_values_plain_coercion :
  (forall (sheetData : Grid) (series : SeriesRef),
     data (seriesDataset sheetData series)
     = List.filter isFinite
         (map plainNumber (extractDataFromSheet sheetData (valueRef series)))) /\
  (forall (xml : string) (sheetData : Grid) (cd : ChartData) (ds : Dataset),
     buildChartData xml sheetData = Some cd ->
     In ds (datasets cd) ->
     exists (series : SeriesRef) (n : nat),
       In series (seriesRefs (parseChartXml xml)) /\
       data ds = take n (List.filter isFinite
                          (map plainNumber
                             (extractDataFromSheet sheetData (valueRef series))))) /\
  data (seriesDataset amountsGrid amountsSeries) = [ofZ 1; ofZ 50; ofZ 7].
Proof.
  assert (Series : forall (sheetData : Grid) (series : SeriesRef),
     data (seriesDataset sheetData series)
     = List.filter isFinite
         (map plainNumber (extractDataFromSheet sheetData (valueRef series)))).
  { intros sheetData series. unfold seriesDataset. simpl.
    rewrite (map_ext toNumber plainNumber toNumber_plainNumber).
    apply filter_ext. intros n. unfold validNumber. now destruct n. }
  split; [exact Series|]. split.
  - intros xml sheetData cd ds H Hin.
    destruct (buildChartData_Some xml sheetData cd H) as (_ & Hds & _).
    rewrite Hds in Hin. apply in_map_iff in Hin as (d0 & <- & Hd0).
    unfold resolveDatasets in Hd0. apply filter_In in Hd0 as [Hd0 _].
    apply in_map_iff in Hd0 as (series & <- & Hs).
    exists series. eexists. split; [exact Hs|]. simpl. now rewrite <- Series.
  - reflexivity.
Qed.

End BuilderFacts.

Lemma dataset_lengths_normalised_witness :
  exists cd, buildChartData (host := exampleHost) salesXml salesGrid = Some cd /\
    (forall ds, In ds (datasets cd) -> length (data ds) = 3%nat) /\
    length (labels cd) = 3%nat.
Proof.
  exists salesChart. split; [vm_compute; reflexivity|].
  apply (proj2 (dataset_lengths_normalised (host := exampleHost)) salesXml salesGrid salesChart
           {| label := "Series"; data := map ofZ [10; 20; 30; 40; 50]; dsColor := None |}
           {| label := "Series"; data := map ofZ [1; 2; 3]; dsColor := None |});
    [vm_compute; reflexivity | vm_compute; reflexivity | reflexivity | reflexivity
    | right; vm_compute; lia].
Defined.

Lemma series_values_plain_coercion_witness :
  exists (series : SeriesRef) (n : nat),
    In series (seriesRefs (parseChartXml salesXml)) /\
    map ofZ [10; 20; 30]
    = take n (List.filter isFinite
                (map (plainNumber (host := exampleHost))
                   (extractDataFromSheet salesGrid (valueRef series)))).
Proof.
  apply (proj1 (proj2 (series_values_plain_coercion (host := exampleHost))) salesXml salesGrid
           salesChart
           {| label := "Series"; data := map ofZ [10; 20; 30]; dsColor := None |}).
  - vm_compute. reflexivity.
  - now left.
Defined.

(** C2 as it is worded fails: with two labels and a series of five
    values, the dataset keeps its five values and the labels are two. *)
Lemma short_labels_counterexample :
  ~ (forall (xml : string) (sheetData : Grid) (cd : ChartData),
       buildChartData (host := exampleHost) xml sheetData = Some cd ->
       forall ds, In ds (datasets cd) -> length (data ds) = length (labels cd)).
Proof.
  intros H.
  assert (Hb : buildChartData (host := exampleHost) shortLabelsXml salesGrid
               = Some shortLabelsChart) by (vm_compute; reflexivity).
  specialize (H shortLabelsXml salesGrid shortLabelsChart Hb
                {| label := "Series"; data := map ofZ [10; 20; 30; 40; 50]; dsColor := None |}
                (or_introl eq_refl)).
  discriminate H.
Qed.

(** C3 as it is worded fails: under the stripping rules of the
    classifier the amounts would give 5, 1234, 50 and 7; the builder gives
    1, 50 and 7. *)
Lemma stripped_coercion_counterexample :
  ~ (forall (sheetData : Grid) (series : SeriesRef),
       data (seriesDataset (host := exampleHost) sheetData series)
       = List.filter isFinite
           (map strippedNumber (extractDataFromSheet sheetData (valueRef series)))).
Proof.
  intros H. specialize (H amountsGrid amountsSeries).
  vm_compute in H. discriminate H.
Qed.

(** * Further properties *)

(** ** Column letters, from the letters to the index and back *)

Lemma string_snoc_cases (s : string) :
  s = "" \/ exists s' c, s = s' +:+ String c "".
Proof.
  induction s as [|a s IH]; [now left|]. right.
  destruct IH as [-> | (s' & c & ->)].
  - now exists "", a.
  - exists (String a s'), c. now rewrite append_cons.
Qed.

Lemma length_append (a b : string) :
  String.length (a +:+ b) = (String.length a + String.length b)%nat.
Proof.
  induction a as [|c a IH]; [reflexivity|]. rewrite append_cons. simpl. now rewrite IH.
Qed.

(** Induction on a string from its last character. *)
Lemma string_snoc_ind (P : string -> Prop) :
  P "" -> (forall s c, P s -> P (s +:+ String c "")) -> forall s, P s.
Proof.
  intros H0 Hs s.
  remember (String.length s) as n eqn:En. revert s En.
  induction n as [|n IH]; intros s En.
  - destruct s; [exact H0 | discriminate].
  - destruct (string_snoc_cases s) as [-> | (s' & c & ->)]; [discriminate|].
    apply Hs, IH. rewrite length_append in En. simpl in En. lia.
Qed.

Lemma colToNum_loop_snoc (s : string) (c : ascii) (n : Z) :
  colToNum_loop (s +:+ String c "") n = colToNum_loop s n * 26 + (code c - 64).
Proof.
  revert n. induction s as [|a s IH]; intros n; [reflexivity|].
  rewrite append_cons. simpl. apply IH.
Qed.

Lemma colToNum_loop_nonneg (s : string) (n : Z) :
  allString isUpper s = true -> 0 <= n -> n <= colToNum_loop s n.
Proof.
  revert n. induction s as [|a s IH]; intros n Hs Hn; simpl; [lia|].
  simpl in Hs. apply andb_true_iff in Hs as [Ha Hs].
  unfold isUpper in Ha. apply andb_true_iff in Ha as [H1 H2].
  apply Z.leb_le in H1, H2.
  etransitivity; [|apply IH; [assumption | lia]]. lia.
Qed.

(** Written for the value of [s] less one, the loop puts [s] in front of
    what it was given. *)
Lemma getColumnLetter_loop_of_value (s : string) :
  allString isUpper s = true ->
  forall (fuel : nat) (letter : string),
    colToNum_loop s 0 - 1 < Z.of_nat fuel ->
    getColumnLetter_loop fuel (colToNum_loop s 0 - 1) letter = s +:+ letter.
Proof.
  induction s as [|s c IH] using string_snoc_ind; intros Hu fuel letter Hf.
  - simpl. destruct fuel; reflexivity.
  - rewrite allString_app in Hu. apply andb_true_iff in Hu as [Hs Hc].
    simpl in Hc. rewrite andb_true_r in Hc.
    pose proof Hc as Hc'. unfold isUpper in Hc'.
    apply andb_true_iff in Hc' as [H1 H2]. apply Z.leb_le in H1, H2.
    pose proof (colToNum_loop_nonneg s 0 Hs ltac:(lia)) as Hv.
    rewrite colToNum_loop_snoc in *.
    set (v := colToNum_loop s 0) in *.
    destruct fuel as [|fuel]; [lia|]. simpl.
    destruct (0 <=? v * 26 + (code c - 64) - 1) eqn:E; [|apply Z.leb_gt in E; lia].
    replace ((v * 26 + (code c - 64) - 1) mod 26) with (code c - 65).
    2:{ replace (v * 26 + (code c - 64) - 1) with (code c - 65 + v * 26) by lia.
        rewrite Z.mod_add by lia. rewrite Z.mod_small; lia. }
    replace ((v * 26 + (code c - 64) - 1) / 26 - 1) with (v - 1).
    2:{ replace (v * 26 + (code c - 64) - 1) with (code c - 65 + v * 26) by lia.
        rewrite Z.div_add by lia. rewrite Z.div_small; lia. }
    replace (code c - 65 + 65) with (code c) by lia.
    rewrite fromCharCode_code, IH by (assumption || lia).
    now rewrite append_assoc.
Qed.

Lemma getColumnLetter_colToNum (s : string) :
  isColumnName s -> getColumnLetter (colToNum s) = s.
Proof.
  intros [Hne Hu]. unfold getColumnLetter, colToNum.
  rewrite toUpperCase_upper by assumption.
  rewrite getColumnLetter_loop_of_value by (assumption || lia).
  apply append_empty_r.
Qed.

(** X1: the letters of a column, read as an index and written back, are
    the same letters, for a column whose index the code's numbers hold
    exactly (none beyond [MAX_SAFE_INTEGER], which admits every name of up
    to eleven letters). *)
Theorem letters_round_trip (s : string) :
  isColumnName s -> colToNum s <= MAX_SAFE_INTEGER ->
  getColumnLetter (colToNum s) = s.
Proof. intros Hs _. now apply getColumnLetter_colToNum. Qed.

Lemma letters_round_trip_witness :
  getColumnLetter (colToNum "ZZZZZZZZZZZ") = "ZZZZZZZZZZZ".
Proof.
  apply (letters_round_trip "ZZZZZZZZZZZ");
    [split; [discriminate | reflexivity] | vm_compute; discriminate].
Defined.

Lemma colToNum_getColumnLetter_inj (a b : Z) :
  0 <= a -> 0 <= b -> getColumnLetter a = getColumnLetter b -> a = b.
Proof.
  intros Ha Hb H.
  rewrite <- (colToNum_getColumnLetter a Ha), <- (colToNum_getColumnLetter b Hb).
  now rewrite H.
Qed.

Lemma getColumnLetter_isColumnName (a : Z) :
  0 <= a -> isColumnName (getColumnLetter a).
Proof.
  intros Ha. unfold isColumnName, getColumnLetter.
  destruct (getColumnLetter_loop_value (Z.to_nat (a + 1)) a "") as [Hu Hv];
    [lia | reflexivity |].
  split; [|assumption].
  intros E. rewrite E in Hv. simpl in Hv. lia.
Qed.

(** X2: the letters of an index that is not negative are capitals, at
    least one, and two such indices with the same letters are equal; a
    negative index has no letters. *)
Theorem column_letters_distinct :
  (forall a b : Z, 0 <= a -> 0 <= b ->
     getColumnLetter a = getColumnLetter b -> a = b) /\
  (forall a : Z, 0 <= a -> isColumnName (getColumnLetter a)) /\
  (forall a : Z, a < 0 -> getColumnLetter a = "").
Proof.
  split; [|split].
  - exact colToNum_getColumnLetter_inj.
  - exact getColumnLetter_isColumnName.
  - intros a Ha. unfold getColumnLetter.
    replace (Z.to_nat (a + 1)) with O by lia. reflexivity.
Qed.

Lemma column_letters_distinct_witness :
  27 = 27
  /\ isColumnName (getColumnLetter 702)
  /\ getColumnLetter (-3) = "".
Proof.
  split; [|split].
  - apply (proj1 column_letters_distinct 27 27); [lia | lia | reflexivity].
  - apply (proj1 (proj2 column_letters_distinct) 702). lia.
  - apply (proj2 (proj2 column_letters_distinct) (-3)). lia.
Defined.

(** ** The sheet pass: columns and rows of a summary *)

Section SheetFacts.
Context {host : Host}.

Lemma nonEmptyColumnIndices_In (data : Grid) (colIdx : nat) :
  In colIdx (nonEmptyColumnIndices (headersOf (default [] (head data))) (drop 1 data))
  <-> columnHasData data colIdx.
Proof.
  unfold nonEmptyColumnIndices, columnHasData.
  rewrite filter_In, in_seq, length_headersOf, existsb_exists. split.
  - intros [Hlt Hex]. split; [lia | exact Hex].
  - intros [Hlt Hex]. split; [lia | exact Hex].
Qed.

Lemma columns_fold_kept (headers : list string) (dataRows : Grid) (cols : list nat)
    (m : gmap string ColumnInfo) (letter : string) :
  (forall c, In c cols -> getColumnLetter (Z.of_nat c) <> letter) ->
  fold_left
    (fun columns colIdx =>
       <[getColumnLetter (Z.of_nat colIdx) := columnInfo headers dataRows colIdx]> columns)
    cols m !! letter = m !! letter.
Proof.
  revert m. induction cols as [|c cols IH]; intros m H; [reflexivity|].
  simpl. rewrite IH by (intros; apply H; now right).
  apply lookup_insert_ne, H. now left.
Qed.

(** The entry under the letter of a column index that was written is the
    one of that index: no other index has the same letter. *)
Lemma columns_fold_written (headers : list string) (dataRows : Grid) (cols : list nat)
    (m : gmap string ColumnInfo) (colIdx : nat) :
  In colIdx cols ->
  fold_left
    (fun columns colIdx =>
       <[getColumnLetter (Z.of_nat colIdx) := columnInfo headers dataRows colIdx]> columns)
    cols m !! getColumnLetter (Z.of_nat colIdx)
  = Some (columnInfo headers dataRows colIdx).
Proof.
  revert m. induction cols as [|c cols IH]; intros m Hin; [destruct Hin|].
  simpl. destruct (in_dec Nat.eq_dec colIdx cols) as [Hc | Hc]; [now apply IH|].
  destruct Hin as [-> | Hin]; [|contradiction].
  rewrite columns_fold_kept; [apply lookup_insert_eq|].
  intros c Hcin E.
  assert (Z.of_nat c = Z.of_nat colIdx)
    by (apply (colToNum_getColumnLetter_inj); [lia | lia | exact E]).
  assert (c = colIdx) by lia. subst c. contradiction.
Qed.

End SheetFacts.

Section SheetTheorems.
Context {host : Host}.

Lemma columns_of_sheet (name : string) (data : Grid) (sheet : ExcelSheetSummary)
    (colIdx : nat) :
  analyzeSheet name data = Some sheet ->
  (is_Some (columns sheet !! getColumnLetter (Z.of_nat colIdx))
   <-> columnHasData data colIdx) /\
  (columnHasData data colIdx ->
   columns sheet !! getColumnLetter (Z.of_nat colIdx)
   = Some (columnInfo (headersOf (default [] (head data))) (drop 1 data) colIdx)).
Proof.
  intros Hs. apply analyzeSheet_Some in Hs as (_ & _ & _ & Hcols).
  rewrite Hcols. split; [split|].
  - intros [info Hinfo].
    apply columns_fold in Hinfo as [Hinfo | (c & Hc & Hl & _)].
    { rewrite lookup_empty in Hinfo. discriminate. }
    apply colToNum_getColumnLetter_inj in Hl; [|lia|lia].
    assert (colIdx = c) by lia. subst c. now apply nonEmptyColumnIndices_In.
  - intros Hd. apply nonEmptyColumnIndices_In in Hd.
    rewrite columns_fold_written by assumption. eauto.
  - intros Hd. apply nonEmptyColumnIndices_In in Hd.
    now apply columns_fold_written.
Qed.

(** X3: the summary of a sheet has an entry under the letter of a column
    exactly when that column lies under the header row and holds data,
    and the entry is the one computed for that column. *)
Theorem columns_complete (name : string) (data : Grid) (sheet : ExcelSheetSummary)
    (colIdx : nat) :
  analyzeSheet name data = Some sheet ->
  (is_Some (columns sheet !! getColumnLetter (Z.of_nat colIdx))
   <-> columnHasData data colIdx) /\
  (columnHasData data colIdx ->
   columns sheet !! getColumnLetter (Z.of_nat colIdx)
   = Some (columnInfo (headersOf (default [] (head data))) (drop 1 data) colIdx)).
Proof. exact (columns_of_sheet name data sheet colIdx). Qed.

Lemma rowCount_bounds (name : string) (data : Grid) (sheet : ExcelSheetSummary) :
  analyzeSheet name data = Some sheet ->
  (1 <= rowCount sheet <= length data - 1)%nat.
Proof.
  intros Hs. pose proof Hs as Hs'.
  apply analyzeSheet_Some in Hs' as (Hlen & Hne & _ & _).
  unfold analyzeSheet in Hs.
  destruct (Nat.ltb (length data) 2); [discriminate|].
  destruct (nonEmptyColumnIndices _ _) as [|c cols] eqn:Ec; [contradiction|].
  injection Hs as <-. simpl.
  split.
  - assert (Hin : In c (nonEmptyColumnIndices (headersOf (default [] (head data))) (drop 1 data)))
      by (rewrite Ec; now left).
    apply nonEmptyColumnIndices_In in Hin as (Hlt & row & Hrow & Hp).
    assert (Hf : In row (List.filter (existsb present) (drop 1 data))).
    { apply filter_In. split; [assumption|].
      apply existsb_exists. exists (cellOf row c). split; [|assumption].
      unfold cellOf in *. destruct (row !! c) as [v|] eqn:E; [|discriminate].
      simpl. apply list_elem_of_In. now apply list_elem_of_lookup_2 in E. }
    destruct (List.filter _ _); [destruct Hf | simpl; lia].
  - etransitivity; [apply filter_length_le|]. rewrite length_drop. lia.
Qed.

(** X4: the sheets of a summary come in the order of the workbook, each
    under the name of its sheet; each counts at least one data row and no
    more than the rows below the header, and has at least one column. *)
Theorem summary_sheets_in_order (wb : Workbook) (filename : string)
    (summary : ExcelWorkbookSummary) :
  analyzeExcelStructure wb filename = inr summary ->
  sublist (map sheetName (sheets summary)) (map fst wb) /\
  (forall sheet, In sheet (sheets summary) ->
     exists data, In (sheetName sheet, data) wb /\
       (1 <= rowCount sheet <= length data - 1)%nat /\
       columns sheet <> ∅).
Proof.
  intros H. apply analyze_sheets in H as [Hs _]. rewrite Hs. clear Hs. split.
  - induction wb as [|[name data] wb IH]; [constructor|].
    csimpl. destruct (analyzeSheet name data) as [sheet|] eqn:E; csimpl.
    + apply analyzeSheet_Some in E as (_ & _ & -> & _). now constructor.
    + now constructor.
  - intros sheet Hin. apply list_elem_of_In, list_elem_of_omap in Hin.
    destruct Hin as ([name data] & Hwb & Hsheet).
    pose proof (rowCount_bounds name data sheet Hsheet) as Hrc.
    pose proof Hsheet as Hs1.
    apply analyzeSheet_Some in Hs1 as (_ & Hne & Hname & _).
    exists data. rewrite Hname. split; [now apply list_elem_of_In|].
    split; [assumption|].
    destruct (nonEmptyColumnIndices _ _) as [|c cols] eqn:Ec; [contradiction|].
    assert (Hin : In c (nonEmptyColumnIndices (headersOf (default [] (head data))) (drop 1 data)))
      by (rewrite Ec; now left).
    apply nonEmptyColumnIndices_In in Hin.
    destruct (columns_of_sheet name data sheet c Hsheet) as [_ Hc].
    specialize (Hc Hin). intros Hem. rewrite Hem, lookup_empty in Hc. discriminate.
Qed.

End SheetTheorems.

Lemma columns_complete_witness :
  columns scoreSheet !! getColumnLetter (Z.of_nat 1)
  = Some (columnInfo (headersOf (host := exampleHost) (default [] (head scoreGrid)))
            (drop 1 scoreGrid) 1).
Proof.
  apply (proj2 (columns_complete (host := exampleHost) "Scores" scoreGrid scoreSheet 1%nat
                  ltac:(vm_compute; reflexivity))).
  split; [simpl; lia|].
  exists [Str "A"; Num (ofZ 1)]. split; [now left | reflexivity].
Defined.

Lemma summary_sheets_in_order_witness :
  sublist (map sheetName (sheets scoreSummary)) (map fst scoreWorkbook) /\
  exists data, In (sheetName scoreSheet, data) scoreWorkbook /\
    (1 <= rowCount scoreSheet <= length data - 1)%nat /\
    columns scoreSheet <> ∅.
Proof.
  destruct (summary_sheets_in_order (host := exampleHost) scoreWorkbook "scores.csv"
              scoreSummary ltac:(vm_compute; reflexivity)) as [Hsub Hall].
  split; [exact Hsub | apply Hall; now left].
Defined.

(** ** The classifier on strings *)

Lemma digit_not_symbol (c : ascii) : isDigit c = true -> isSymbol c = false.
Proof.
  unfold isSymbol. intros H.
  destruct (Ascii.eqb_spec c ","); [subst; discriminate|].
  destruct (Ascii.eqb_spec c "$"); [subst; discriminate|].
  destruct (Ascii.eqb_spec c "%"); [subst; discriminate|].
  reflexivity.
Qed.

Lemma white_not_symbol (c : ascii) : isWhiteSpace c = true -> isSymbol c = false.
Proof.
  unfold isSymbol. intros H.
  destruct (Ascii.eqb_spec c ","); [subst; discriminate|].
  destruct (Ascii.eqb_spec c "$"); [subst; discriminate|].
  destruct (Ascii.eqb_spec c "%"); [subst; discriminate|].
  reflexivity.
Qed.

(** The first digit after the leading white space is still first once the
    symbols are removed. *)
Lemma startsWithDigit_stripSymbols (s : string) :
  startsWithDigit (trimStart s) = true ->
  startsWithDigit (trimStart (stripSymbols s)) = true.
Proof.
  unfold stripSymbols. induction s as [|c s IH]; [discriminate|]. simpl.
  destruct (isWhiteSpace c) eqn:Ew.
  - rewrite (white_not_symbol c Ew). simpl. rewrite Ew. exact IH.
  - simpl. intros Hd. rewrite (digit_not_symbol c Hd). simpl. now rewrite Ew.
Qed.

Lemma digit_not_sign (c : ascii) (r : string) :
  isDigit c = true -> signOf (String c r) = (false, String c r).
Proof.
  unfold signOf. intros H.
  destruct (Ascii.eqb_spec c "+"); [subst; discriminate|].
  destruct (Ascii.eqb_spec c "-"); [subst; discriminate|].
  reflexivity.
Qed.

Lemma parseFloat_leading_digit (s : string) :
  startsWithDigit (trimStart s) = true -> isNaN (parseFloat s) = false.
Proof.
  intros H. rewrite isNaN_parseFloat.
  destruct (trimStart s) as [|c r]; [discriminate|].
  simpl in H. rewrite (digit_not_sign c r H). simpl snd.
  unfold startsNumber. simpl startsWithDigit. rewrite H.
  now rewrite orb_true_r.
Qed.

Lemma trimEnd_head (t : string) :
  startsWithDigit (trimEnd t) = true -> startsWithDigit t = true.
Proof.
  destruct t as [|c r]; [discriminate|]. simpl.
  destruct (trimEnd r); [destruct (isWhiteSpace c); [discriminate|]|]; simpl; auto.
Qed.

(** A string whose first character after the white space is a digit is
    counted as a number. *)
Lemma leading_digit_numeric (s : string) :
  startsWithDigit (trimStart s) = true -> categoryOf (Str s) = CatNumeric.
Proof.
  intros H.
  pose proof (categoryOf_numeric (Str s)) as Hc. simpl numericLike in Hc.
  rewrite (parseFloat_leading_digit _ (startsWithDigit_stripSymbols s H)) in Hc.
  simpl negb in Hc. now destruct (categoryOf (Str s)).
Qed.

Lemma digitsBetween_head (lo hi : nat) (t rest : string) :
  (1 <= lo)%nat -> digitsBetween lo hi t = Some rest -> startsWithDigit t = true.
Proof.
  intros Hlo. unfold digitsBetween. destruct t as [|c r].
  - simpl. destruct lo; [lia | discriminate].
  - simpl. destruct (isDigit c); [reflexivity|].
    simpl. destruct lo; [lia | discriminate].
Qed.

Lemma matchSeq_digits_head (lo hi : nat) (items : list (string -> option string)) (t : string) :
  (1 <= lo)%nat -> matchSeq (digitsBetween lo hi :: items) t = true ->
  startsWithDigit t = true.
Proof.
  intros Hlo. simpl. destruct (digitsBetween lo hi t) as [rest|] eqn:E; [|discriminate].
  intros _. now apply (digitsBetween_head lo hi t rest).
Qed.

(** X5: a string whose first character after the white space is a digit
    is counted as a number by the classifier, whatever follows; so a
    string is counted as a date only when it starts with the short name of
    a month. *)
Theorem date_strings_by_month_name (s : string) :
  (startsWithDigit (trimStart s) = true -> categoryOf (Str s) = CatNumeric) /\
  (categoryOf (Str s) = CatDate -> startsWithMonth (trim s) = true).
Proof.
  split; [apply leading_digit_numeric|].
  intros Hd.
  destruct (startsWithDigit (trimStart s)) eqn:Es.
  { rewrite (leading_digit_numeric s Es) in Hd. discriminate. }
  assert (Hhead : startsWithDigit (trim s) = false).
  { destruct (startsWithDigit (trim s)) eqn:E; [|reflexivity].
    apply trimEnd_head in E. congruence. }
  simpl in Hd.
  destruct (_ || _ || _ || String.eqb s "FALSE"); [discriminate|].
  destruct (_ && _); [discriminate|].
  destruct (isDateString s) eqn:Ei; [|discriminate].
  unfold isDateString in Ei. unfold startsWithMonth.
  apply orb_true_iff in Ei as [Ei | Ei]; [exfalso | exact Ei].
  apply orb_true_iff in Ei as [Ei | Ei];
    [apply orb_true_iff in Ei as [Ei | Ei];
     [apply orb_true_iff in Ei as [Ei | Ei]|]|];
    apply matchSeq_digits_head in Ei; try lia; congruence.
Qed.

Lemma date_strings_by_month_name_witness :
  categoryOf (Str (String nbsp "2024-01-15")) = CatNumeric
  /\ startsWithMonth (trim (String nbsp "March 3rd ")) = true.
Proof.
  split.
  - apply (proj1 (date_strings_by_month_name (String nbsp "2024-01-15"))). reflexivity.
  - apply (proj2 (date_strings_by_month_name (String nbsp "March 3rd "))). reflexivity.
Defined.

(** ** Unique counts *)

Lemma fold_setAdd_length (l s : list jsnum) :
  (length (fold_left setAdd l s) <= length s + length l)%nat.
Proof.
  revert s. induction l as [|n l IH]; intros s; simpl; [lia|].
  etransitivity; [apply IH|]. unfold setAdd.
  destruct (existsb _ s); [lia|]. rewrite length_app. simpl. lia.
Qed.

Lemma numericValues_length (allValues : list value) :
  (length (numericValues allValues) <= length allValues)%nat.
Proof. apply omap_length_le. Qed.

Lemma forallb_false_exists {A : Type} (p : A -> bool) (l : list A) :
  forallb p l = false -> exists x, In x l /\ p x = false.
Proof.
  induction l as [|y l IH]; simpl; [discriminate|].
  destruct (p y) eqn:E.
  - simpl. intros H. destruct (IH H) as (x & Hx & Hp). exists x. auto.
  - intros _. exists y. auto.
Qed.

(** The two answers of the classifier on a sample that reaches the
    numeric threshold. *)
Lemma numeric_threshold_cases (values allValues : list value) :
  List.filter present values <> [] ->
  (4 * length (List.filter present values)
   <= 5 * length (List.filter numericLike (List.filter present values)))%nat ->
  let u := newSet (numericValues allValues) in
  (detectedType (detectColumnType values allValues) = categorical /\
   (length u <= 20)%nat /\ forallb isInteger u = true) \/
  (detectedType (detectColumnType values allValues) = numeric /\
   ((20 < length u)%nat \/ forallb isInteger u = false)).
Proof.
  intros Hne Hnum u.
  destruct (numeric_threshold_wins _ Hne Hnum) as (Hb & Hd & Ht & Hn).
  unfold detectColumnType.
  destruct (List.filter present values) as [|v rest] eqn:Es; [contradiction|].
  rewrite Hb, Hd, Ht, Hn. fold u.
  destruct (Nat.leb (length u) CATEGORICAL_MAX_UNIQUE) eqn:El.
  - apply Nat.leb_le in El. destruct (forallb isInteger u) eqn:Ei; simpl.
    + left. auto.
    + right. auto.
  - apply Nat.leb_gt in El. simpl. right. split; [reflexivity|]. left. exact El.
Qed.

(** X6: a unique count never exceeds the number of rows of the column; a
    categorical column has at most 20 distinct values and all its numeric
    values are integers; a numeric column has more than 20 distinct
    values or a numeric value that is not an integer. *)
Theorem unique_count_bounds (values allValues : list value) (n : nat) :
  uniqueCount (detectColumnType values allValues) = Some n ->
  (n <= length allValues)%nat /\
  (detectedType (detectColumnType values allValues) = categorical ->
   (n <= 20)%nat /\
   forall x, In x (numericValues allValues) -> isInteger x = true) /\
  (detectedType (detectColumnType values allValues) = numeric ->
   (20 < n)%nat \/
   exists x, In x (numericValues allValues) /\ isInteger x = false).
Proof.
  intros H. pose proof H as H0.
  apply detect_unique_count in H0 as (Hn & Hne & Hnum).
  split.
  - rewrite Hn. unfold newSet.
    etransitivity; [apply fold_setAdd_length|]. simpl.
    apply numericValues_length.
  - destruct (numeric_threshold_cases values allValues Hne Hnum)
      as [(Hty & Hle & Hint) | (Hty & Hc)]; rewrite Hty, Hn.
    + split; [|discriminate]. intros _. split; [assumption|].
      now apply newSet_integers.
    + split; [discriminate|]. intros _.
      destruct Hc as [Hc | Hc]; [now left | right].
      destruct (forallb isInteger (numericValues allValues)) eqn:E.
      * exfalso. rewrite forallb_forall in E. apply newSet_integers in E. congruence.
      * now apply forallb_false_exists in E.
Qed.

Lemma unique_count_bounds_witness :
  (3 <= length codeColumn)%nat /\
  (3 <= 20)%nat /\ forall x, In x (numericValues codeColumn) -> isInteger x = true.
Proof.
  destruct (unique_count_bounds codeColumn codeColumn 3 eq_refl) as (H1 & H2 & _).
  split; [exact H1 | exact (H2 eq_refl)].
Defined.

(** ** Numeric values and sample values *)

(** X7: a value that the classifier counts as a number has a numeric
    value, which is not NaN: it takes part in the unique count, and
    [parseValue] shows it as a number. *)
Theorem counted_numeric_has_value (v : value) :
  categoryOf v = CatNumeric ->
  exists n, extractNumericValue v = Some n /\ isNaN n = false /\ parseValue v = Num n.
Proof.
  intros Hc.
  assert (Hl : numericLike v = true)
    by (rewrite <- categoryOf_numeric, Hc; reflexivity).
  destruct (numericLike_extract v Hl) as [n Hn].
  exists n. split; [assumption|]. split.
  - destruct v as [| |m|s|b|t]; simpl in Hn; try discriminate.
    + destruct (isNaN m) eqn:E; [discriminate|]. simpl in Hn. congruence.
    + destruct (isNaN (parseFloat (stripSymbolsAndSpace s))) eqn:E; [discriminate|].
      simpl in Hn. congruence.
  - destruct v as [| |m|s|b|t]; try discriminate.
    + unfold parseValue. now rewrite Hn.
    + destruct s as [|c s]; [discriminate|].
      unfold parseValue. now rewrite Hn.
Qed.

Lemma counted_numeric_has_value_witness :
  exists n, extractNumericValue (Str " $1,250 ") = Some n /\ isNaN n = false
            /\ parseValue (Str " $1,250 ") = Num n.
Proof.
  apply (counted_numeric_has_value (Str " $1,250 ")). reflexivity.
Defined.

Lemma extractNumericValue_not_NaN (v : value) (n : jsnum) :
  extractNumericValue v = Some n -> isNaN n = false.
Proof.
  destruct v as [| |m|s|b|t]; simpl; try discriminate.
  - destruct (isNaN m) eqn:E; [discriminate|]. simpl. congruence.
  - destruct (isNaN (parseFloat (stripSymbolsAndSpace s))) eqn:E; [discriminate|].
    simpl. congruence.
Qed.

(** X8: [parseValue] gives null exactly on a null, absent or blank value;
    applied again to its result it changes nothing; and a string that it
    leaves as a string has no numeric value. *)
Theorem parseValue_normal (v : value) :
  (parseValue v = Null <-> present v = false) /\
  parseValue (parseValue v) = parseValue v /\
  (forall s, parseValue v = Str s -> v = Str s /\ extractNumericValue (Str s) = None).
Proof.
  split; [|split].
  - destruct v as [| |m|s|b|t]; try (simpl; tauto); try (simpl; split; discriminate).
    + change (parseValue (Num m))
        with (match extractNumericValue (Num m) with Some n => Num n | None => Num m end).
      destruct (extractNumericValue (Num m)); simpl; split; discriminate.
    + destruct s as [|c s]; [simpl; tauto|].
      change (parseValue (Str (String c s)))
        with (match extractNumericValue (Str (String c s)) with
              | Some n => Num n | None => Str (String c s) end).
      destruct (extractNumericValue (Str (String c s))); simpl; split; discriminate.
  - destruct v as [| |m|s|b|t]; try reflexivity.
    + assert (Hv : parseValue (Num m)
                   = match extractNumericValue (Num m) with
                     | Some n => Num n | None => Num m end) by reflexivity.
      destruct (extractNumericValue (Num m)) as [n|] eqn:E; rewrite Hv; [|exact Hv].
      pose proof (extractNumericValue_not_NaN _ _ E) as Hn.
      simpl. now rewrite Hn.
    + destruct s as [|c s]; [reflexivity|].
      assert (Hv : parseValue (Str (String c s))
                   = match extractNumericValue (Str (String c s)) with
                     | Some n => Num n | None => Str (String c s) end) by reflexivity.
      destruct (extractNumericValue (Str (String c s))) as [n|] eqn:E; rewrite Hv; [|exact Hv].
      pose proof (extractNumericValue_not_NaN _ _ E) as Hn.
      simpl. now rewrite Hn.
  - intros s. destruct v as [| |m|t|b|t]; try discriminate.
    + simpl. destruct (negb (isNaN m)); discriminate.
    + destruct t as [|c t]; [discriminate|].
      assert (Hv : parseValue (Str (String c t))
                   = match extractNumericValue (Str (String c t)) with
                     | Some n => Num n | None => Str (String c t) end) by reflexivity.
      rewrite Hv.
      destruct (extractNumericValue (Str (String c t))) eqn:E; [discriminate|].
      intros H. injection H as <-. auto.
Qed.

Lemma parseValue_normal_witness :
  Str "n/a" = Str "n/a" /\ extractNumericValue (Str "n/a") = None.
Proof.
  apply (proj2 (proj2 (parseValue_normal (Str "n/a"))) "n/a"). reflexivity.
Defined.

(** ** Codebook *)

Section CodebookMore.
Context {host : Host}.

Lemma findCodebook_skip (post : Workbook) (acc : option (gmap string string)) :
  (forall n d, In (n, d) post -> isDescriptionSheet n = false) ->
  fold_left
    (fun codebook '(sheetName, data) =>
       if isDescriptionSheet sheetName then extractCodebook data else codebook)
    post acc = acc.
Proof.
  revert acc. induction post as [|[n d] post IH]; intros acc H; [reflexivity|].
  simpl. rewrite (H n d) by now left. apply IH. intros n' d' Hin. apply (H n' d'). now right.
Qed.

(** X9: the codebook is the one of the last sheet with a description
    name, also when that sheet gives none and an earlier one gave one; a
    workbook without such a sheet has no codebook. *)
Theorem codebook_of_last_description_sheet :
  (forall (pre post : Workbook) (name : string) (data : Grid),
     isDescriptionSheet name = true ->
     (forall n d, In (n, d) post -> isDescriptionSheet n = false) ->
     findCodebook (pre ++ (name, data) :: post) = extractCodebook data) /\
  (forall wb : Workbook,
     (forall n d, In (n, d) wb -> isDescriptionSheet n = false) ->
     findCodebook wb = None).
Proof.
  split.
  - intros pre post name data Hname Hpost. unfold findCodebook.
    rewrite fold_left_app. simpl. rewrite Hname. now apply findCodebook_skip.
  - intros wb H. unfold findCodebook. now apply findCodebook_skip.
Qed.


(** What a row may write: nothing, or one entry with a name and a text
    that are not empty, taken from its cells. *)
Lemma codebookRow_cases (codebook : gmap string string) (row : list value) :
  codebookRow codebook row = codebook \/
  exists k v, codebookRow codebook row = <[k := v]> codebook /\ entryOf row k v.
Proof.
  unfold codebookRow, entryOf.
  destruct (Nat.ltb (length row) 2); [now left|].
  destruct (_ && _); [now left|].
  destruct (cellText (cellOf row 1)) as [|c2 s2] eqn:E2.
  { simpl. rewrite !andb_false_r. simpl. now left. }
  destruct (columnLetterPattern (cellText (cellOf row 0))) eqn:Ep.
  - simpl. unfold objSet.
    destruct (String.eqb (String c2 s2) "__proto__") eqn:Eq; [now left|].
    apply String.eqb_neq in Eq. right.
    exists (String c2 s2), (if isEmpty (cellText (cellOf row 2)) then String c2 s2
                            else cellText (cellOf row 2)).
    split; [reflexivity|]. split; [discriminate|]. split.
    { destruct (cellText (cellOf row 2)); simpl; discriminate. }
    split; [assumption|]. left. unfold columnRow. unfold describedName, describedText.
    rewrite E2. split; [reflexivity|]. split; [reflexivity|].
    split; [assumption | discriminate].
  - simpl.
    destruct (cellText (cellOf row 0)) as [|c1 s1] eqn:E1; [simpl; now left|].
    simpl. destruct (startsWith "column" _) eqn:Es; [simpl; now left|].
    simpl. unfold objSet.
    destruct (String.eqb (String c1 s1) "__proto__") eqn:Eq; [now left|].
    apply String.eqb_neq in Eq. right.
    exists (String c1 s1), (String c2 s2).
    split; [reflexivity|]. split; [discriminate|]. split; [discriminate|].
    split; [assumption|]. right. auto.
Qed.

(** Every entry of the folded codebook was there before or comes from a
    row. *)
Lemma codebook_entries (rows : Grid) (codebook : gmap string string) (k v : string) :
  fold_left codebookRow rows codebook !! k = Some v ->
  codebook !! k = Some v \/ exists row, In row rows /\ entryOf row k v.
Proof.
  revert codebook. induction rows as [|row rows IH]; intros codebook H; [now left|].
  simpl in H. apply IH in H as [H | (row' & Hin & He)].
  - destruct (codebookRow_cases codebook row) as [E | (k0 & v0 & E & He)].
    + rewrite E in H. now left.
    + rewrite E in H. destruct (decide (k0 = k)) as [-> | Hne].
      * rewrite lookup_insert_eq in H. injection H as ->.
        right. exists row. split; [now left | assumption].
      * rewrite lookup_insert_ne in H by assumption. now left.
  - right. exists row'. split; [now right | assumption].
Qed.

(** X10: a codebook is never empty, and each of its entries comes from a
    row of the sheet: its name and its text are not empty, and are the
    second and third (or second) cell of a column row, or the first and
    second cell of a row that does not start with the word column. *)
Theorem codebook_entries_from_rows (data : Grid) (cb : gmap string string) :
  extractCodebook data = Some cb ->
  cb <> ∅ /\ (2 <= length data)%nat /\
  forall k v, cb !! k = Some v -> exists row, In row data /\ entryOf row k v.
Proof.
  unfold extractCodebook.
  destruct (Nat.ltb (length data) 2) eqn:El; [discriminate|].
  apply Nat.ltb_ge in El.
  destruct (Nat.ltb 0 (size (fold_left codebookRow data ∅))) eqn:Es; [|discriminate].
  intros H. injection H as <-. apply Nat.ltb_lt in Es.
  split; [|split; [assumption|]].
  - intros E. rewrite E, map_size_empty in Es. lia.
  - intros k v Hl. apply codebook_entries in Hl as [Hl | Hl]; [|exact Hl].
    rewrite lookup_empty in Hl. discriminate.
Qed.




End CodebookMore.

Lemma codebook_of_last_description_sheet_witness :
  findCodebook (host := exampleHost)
    ([("Codebook", ageGrid)] ++ ("LEGEND", [[Str "only one row"; Str "x"]]) :: [("Data", scoreGrid)])
  = extractCodebook (host := exampleHost) [[Str "only one row"; Str "x"]]
  /\ findCodebook (host := exampleHost) scoreWorkbook = None.
Proof.
  split.
  - apply (proj1 (codebook_of_last_description_sheet (host := exampleHost))).
    + reflexivity.
    + intros n d [H | []]. now injection H as <- <-.
  - apply (proj2 (codebook_of_last_description_sheet (host := exampleHost))).
    intros n d [H | [H | [H | []]]]; now injection H as <- <-.
Defined.

Lemma codebook_entries_from_rows_witness :
  <["Age" := "Age"]> (<["Sex" := "M/F"]> ∅) <> (∅ : gmap string string)
  /\ (2 <= length [spacedAgeRow; [Str "column c"; Str "Sex"; Str "M/F"]])%nat
  /\ exists row, In row [spacedAgeRow; [Str "column c"; Str "Sex"; Str "M/F"]]
                 /\ entryOf (host := exampleHost) row "Age" "Age".
Proof.
  assert (He : extractCodebook (host := exampleHost)
                 [spacedAgeRow; [Str "column c"; Str "Sex"; Str "M/F"]]
               = Some (<["Age" := "Age"]> (<["Sex" := "M/F"]> ∅)))
    by (vm_compute; reflexivity).
  destruct (codebook_entries_from_rows (host := exampleHost) _ _ He) as (H1 & H2 & H3).
  split; [exact H1|]. split; [exact H2|].
  apply H3. vm_compute. reflexivity.
Defined.


(** ** Texts of ranges *)

Lemma span_all (p : ascii -> bool) (s : string) :
  allString p s = true -> span p s = (s, "").
Proof.
  induction s as [|c s IH]; [reflexivity|]. simpl.
  intros [Hc Hs]%andb_true_iff. now rewrite Hc, IH.
Qed.

Lemma filterString_id (p : ascii -> bool) (s : string) :
  allString p s = true -> filterString p s = s.
Proof.
  induction s as [|c s IH]; [reflexivity|]. simpl.
  intros [Hc Hs]%andb_true_iff. now rewrite Hc, IH.
Qed.

Lemma allString_impl (p q : ascii -> bool) (s : string) :
  (forall c, p c = true -> q c = true) -> allString p s = true -> allString q s = true.
Proof.
  intros H. induction s as [|c s IH]; [reflexivity|]. simpl.
  intros [Hc Hs]%andb_true_iff. now rewrite (H c Hc), IH.
Qed.

Lemma upper_not_digit (c : ascii) : isUpper c = true -> isDigit c = false.
Proof.
  unfold isUpper, isDigit. intros [H1 H2]%andb_true_iff. apply Z.leb_le in H1, H2.
  apply andb_false_iff. right. apply Z.leb_gt. lia.
Qed.

Lemma digit_not_letter (c : ascii) : isDigit c = true -> isLetter c = false.
Proof.
  unfold isLetter, isUpper, isLower, isDigit.
  intros [H1 H2]%andb_true_iff. apply Z.leb_le in H1, H2.
  apply orb_false_iff; split; apply andb_false_iff; left; apply Z.leb_gt; lia.
Qed.

Lemma not_dollar (c : ascii) :
  isDigit c = true \/ isUpper c = true -> negb (Ascii.eqb c "$") = true.
Proof.
  intros H. destruct (Ascii.eqb_spec c "$"); [|reflexivity].
  subst. destruct H; discriminate.
Qed.

(** The text of an address read at the start of a longer text: the
    letters, the digits, and what follows, when that does not start with a
    digit. *)
Lemma cellPattern_address (letters digits rest : string) :
  isColumnName letters -> isRowNumber digits ->
  startsWithDigit rest = false ->
  cellPattern (letters +:+ digits +:+ rest) = Some (letters, digits, rest).
Proof.
  intros [Hl Hu] [Hd Hdig] Hrest. unfold cellPattern.
  destruct digits as [|d ds]; [contradiction|].
  simpl in Hdig. apply andb_true_iff in Hdig as [Hd1 Hds].
  rewrite append_cons.
  rewrite (span_stop isLetter letters d (ds +:+ rest));
    [| apply (allString_impl isUpper); [intros c Hc; unfold isLetter; now rewrite Hc | assumption]
     | now apply digit_not_letter].
  rewrite <- append_cons.
  assert (Hsp : span isDigit (String d ds +:+ rest) = (String d ds, rest)).
  { destruct rest as [|r rs].
    - rewrite append_empty_r. apply span_all. simpl. now rewrite Hd1, Hds.
    - apply span_stop; [simpl; now rewrite Hd1, Hds | exact Hrest]. }
  rewrite Hsp. destruct letters; [contradiction | reflexivity].
Qed.

Lemma clean_address (absCol absRow : bool) (letters digits : string) :
  isColumnName letters -> isRowNumber digits ->
  filterString (fun c => negb (Ascii.eqb c "$")) (addressText absCol absRow letters digits)
  = letters +:+ digits.
Proof.
  intros [_ Hu] [_ Hd]. unfold addressText.
  rewrite !filterString_app.
  rewrite (filterString_id _ letters), (filterString_id _ digits).
  - now destruct absCol, absRow.
  - apply (allString_impl isDigit); [|assumption]. intros c Hc. apply not_dollar. now left.
  - apply (allString_impl isUpper); [|assumption]. intros c Hc. apply not_dollar. now right.
Qed.

Lemma parseRange_address :
  (forall (a1 b1 a2 b2 : bool) (c1 c2 : Z) (d1 d2 : string),
     0 <= c1 -> 0 <= c2 -> isRowNumber d1 -> isRowNumber d2 ->
     parseRange (addressText a1 b1 (getColumnLetter c1) d1 +:+ ":"
                 +:+ addressText a2 b2 (getColumnLetter c2) d2)
     = Some {| startCol := c1; startRow := parseIntDigits d1 - 1;
               endCol := c2; endRow := parseIntDigits d2 - 1;
               isSingleCell := false |}) /\
  (forall (a b : bool) (c : Z) (d : string),
     0 <= c -> isRowNumber d ->
     parseRange (addressText a b (getColumnLetter c) d)
     = Some {| startCol := c; startRow := parseIntDigits d - 1;
               endCol := c; endRow := parseIntDigits d - 1;
               isSingleCell := true |}).
Proof.
  split.
  - intros a1 b1 a2 b2 c1 c2 d1 d2 H1 H2 Hd1 Hd2.
    pose proof (getColumnLetter_isColumnName c1 H1) as Hl1.
    pose proof (getColumnLetter_isColumnName c2 H2) as Hl2.
    unfold parseRange. rewrite !filterString_app.
    rewrite !clean_address by assumption.
    change (filterString _ ":") with ":".
    unfold rangeMatch.
    rewrite append_assoc, (cellPattern_address _ d1) by (assumption || reflexivity).
    change (":" +:+ getColumnLetter c2 +:+ d2) with (String ":" (getColumnLetter c2 +:+ d2)).
    cbv iota beta.
    rewrite <- (append_empty_r d2) at 1.
    rewrite (cellPattern_address _ d2 "") by (assumption || reflexivity).
    cbv iota beta. now rewrite !colToNum_getColumnLetter.
  - intros a b c d Hc Hd.
    pose proof (getColumnLetter_isColumnName c Hc) as Hl.
    unfold parseRange. rewrite clean_address by assumption.
    assert (Hp : cellPattern (getColumnLetter c +:+ d) = Some (getColumnLetter c, d, "")).
    { rewrite <- (append_empty_r d) at 1.
      now apply cellPattern_address. }
    unfold rangeMatch, cellMatch. rewrite Hp. cbv iota beta.
    now rewrite !colToNum_getColumnLetter.
Qed.

(** X12: a range written with the letters of two column indices and two
    row numbers, with or without dollar signs, is read back as these
    columns and the rows less one; a single address is read as a single
    cell.  The indices are those that the code's numbers hold exactly:
    none beyond [MAX_SAFE_INTEGER]. *)
Theorem parseRange_of_address :
  (forall (a1 b1 a2 b2 : bool) (c1 c2 : Z) (d1 d2 : string),
     0 <= c1 <= MAX_SAFE_INTEGER -> 0 <= c2 <= MAX_SAFE_INTEGER ->
     isRowNumber d1 -> isRowNumber d2 ->
     parseIntDigits d1 - 1 <= MAX_SAFE_INTEGER ->
     parseIntDigits d2 - 1 <= MAX_SAFE_INTEGER ->
     parseRange (addressText a1 b1 (getColumnLetter c1) d1 +:+ ":"
                 +:+ addressText a2 b2 (getColumnLetter c2) d2)
     = Some {| startCol := c1; startRow := parseIntDigits d1 - 1;
               endCol := c2; endRow := parseIntDigits d2 - 1;
               isSingleCell := false |}) /\
  (forall (a b : bool) (c : Z) (d : string),
     0 <= c <= MAX_SAFE_INTEGER -> isRowNumber d ->
     parseIntDigits d - 1 <= MAX_SAFE_INTEGER ->
     parseRange (addressText a b (getColumnLetter c) d)
     = Some {| startCol := c; startRow := parseIntDigits d - 1;
               endCol := c; endRow := parseIntDigits d - 1;
               isSingleCell := true |}).
Proof.
  split.
  - intros a1 b1 a2 b2 c1 c2 d1 d2 [H1 _] [H2 _] Hd1 Hd2 _ _.
    now apply (proj1 parseRange_address).
  - intros a b c d [Hc _] Hd _. now apply (proj2 parseRange_address).
Qed.

Lemma parseRange_of_address_witness :
  parseRange (addressText true true (getColumnLetter 1) "2" +:+ ":"
              +:+ addressText true false (getColumnLetter 27) "010")
  = Some {| startCol := 1; startRow := parseIntDigits "2" - 1;
            endCol := 27; endRow := parseIntDigits "010" - 1;
            isSingleCell := false |}.
Proof.
  apply (proj1 parseRange_of_address);
    try (split; [discriminate | reflexivity]);
    try (split; discriminate); vm_compute; discriminate.
Defined.

(** ** What a parsed range can hold *)

Lemma cellPattern_Some (s letters digits rest : string) :
  cellPattern s = Some (letters, digits, rest) ->
  letters <> "" /\ allString isLetter letters = true /\
  digits <> "" /\ allString isDigit digits = true.
Proof.
  unfold cellPattern.
  pose proof (span_app isLetter s) as [Hl _].
  destruct (span isLetter s) as [l r]. simpl in Hl.
  pose proof (span_app isDigit r) as [Hd _].
  destruct (span isDigit r) as [d r']. simpl in Hd.
  destruct l as [|c l]; [discriminate|].
  destruct d as [|e d]; [discriminate|].
  simpl isEmpty. simpl orb. intros H. injection H as <- <- <-.
  repeat split; (discriminate || assumption).
Qed.

Lemma upperChar_letter (c : ascii) : isLetter c = true -> isUpper (upperChar c) = true.
Proof.
  unfold isLetter, upperChar. destruct (isLower c) eqn:El.
  - intros _. cbn [orb]. unfold isLower in El. apply andb_true_iff in El as [H1 H2].
    apply Z.leb_le in H1, H2. unfold isUpper.
    rewrite code_fromCharCode by lia.
    apply andb_true_iff; split; apply Z.leb_le; lia.
  - rewrite orb_false_r. intros Hu. cbn [orb].
    destruct (isLowerLatin c) eqn:E; [|exact Hu].
    exfalso. unfold isUpper in Hu. unfold isLowerLatin in E.
    apply andb_true_iff in Hu as [_ H2]. apply Z.leb_le in H2.
    apply andb_true_iff in E as [[H3 _]%andb_true_iff _]. apply Z.leb_le in H3. lia.
Qed.

Lemma toUpperCase_letters (s : string) :
  allString isLetter s = true -> allString isUpper (toUpperCase s) = true.
Proof.
  unfold toUpperCase. induction s as [|c s IH]; [reflexivity|]. simpl.
  intros [Hc Hs]%andb_true_iff. now rewrite (upperChar_letter c Hc), IH.
Qed.

Lemma colToNum_nonneg (letters : string) :
  letters <> "" -> allString isLetter letters = true -> 0 <= colToNum letters.
Proof.
  intros Hne Hl. unfold colToNum.
  pose proof (toUpperCase_letters letters Hl) as Hu.
  destruct letters as [|c s]; [contradiction|].
  unfold toUpperCase in *. simpl in *.
  apply andb_true_iff in Hu as [Hc Hs].
  pose proof Hc as Hc'. unfold isUpper in Hc'.
  apply andb_true_iff in Hc' as [H1 H2]. apply Z.leb_le in H1, H2.
  pose proof (colToNum_loop_nonneg _ (0 * 26 + (code (upperChar c) - 64)) Hs ltac:(lia)).
  lia.
Qed.

Lemma digitsValue_nonneg (s : string) (acc : Z) :
  allString isDigit s = true -> 0 <= acc -> 0 <= digitsValue acc s.
Proof.
  revert acc. induction s as [|c s IH]; intros acc Hs Ha; simpl; [assumption|].
  simpl in Hs. apply andb_true_iff in Hs as [Hc Hs].
  apply IH; [assumption|]. unfold digitVal, isDigit in *.
  apply andb_true_iff in Hc as [H1 H2]. apply Z.leb_le in H1, H2. lia.
Qed.

Lemma parseRange_Some_bounds (r : string) (p : ParsedRange) :
  parseRange r = Some p ->
  0 <= startCol p /\ 0 <= endCol p /\ -1 <= startRow p /\ -1 <= endRow p /\
  (isSingleCell p = true -> startCol p = endCol p /\ startRow p = endRow p).
Proof.
  unfold parseRange, rangeMatch, cellMatch.
  set (cleaned := filterString _ r).
  destruct (cellPattern cleaned) as [[[l1 d1] rest]|] eqn:E1; [|discriminate].
  apply cellPattern_Some in E1 as (Hl1 & Hu1 & Hd1 & Hg1).
  pose proof (colToNum_nonneg l1 Hl1 Hu1) as Hc1.
  pose proof (digitsValue_nonneg d1 0 Hg1 ltac:(lia)) as Hr1.
  destruct rest as [|c rest].
  - intros H. injection H as <-. simpl. unfold parseIntDigits. repeat split; lia.
  - destruct (Ascii.eqb_spec c ":") as [-> | Hne].
    + destruct (cellPattern rest) as [[[l2 d2] rest2]|] eqn:E2; [|discriminate].
      apply cellPattern_Some in E2 as (Hl2 & Hu2 & Hd2 & Hg2).
      pose proof (colToNum_nonneg l2 Hl2 Hu2) as Hc2.
      pose proof (digitsValue_nonneg d2 0 Hg2 ltac:(lia)) as Hr2.
      destruct rest2; [|discriminate].
      intros H. injection H as <-. simpl. unfold parseIntDigits.
      repeat split; (lia || discriminate).
    + assert (Hn : match String c rest with
                   | String ":" rest0 =>
                       match cellPattern rest0 with
                       | Some (c2, r2, "") => Some (l1, d1, c2, r2)
                       | _ => None
                       end
                   | _ => None
                   end = None).
      { destruct c as [[] [] [] [] [] [] [] []]; try reflexivity. contradiction. }
      rewrite Hn. discriminate.
Qed.

(** X13: in a parsed range the column indices are not negative and the
    row indices are at least -1 (the row written 0); a single cell has
    equal start and end. *)
Theorem parseRange_bounds (r : string) (p : ParsedRange) :
  parseRange r = Some p ->
  0 <= startCol p /\ 0 <= endCol p /\ -1 <= startRow p /\ -1 <= endRow p /\
  (isSingleCell p = true -> startCol p = endCol p /\ startRow p = endRow p).
Proof. exact (parseRange_Some_bounds r p). Qed.

Lemma parseRange_bounds_witness :
  0 <= 1 /\ 0 <= 1 /\ -1 <= -1 /\ -1 <= -1 /\ 1 = 1 /\ -1 = -1.
Proof.
  destruct (parseRange_bounds "$B$0"
              {| startCol := 1; startRow := -1; endCol := 1; endRow := -1;
                 isSingleCell := true |} eq_refl) as (H1 & H2 & H3 & H4 & H5).
  repeat split; try assumption; now apply H5.
Defined.

(** ** The sheet name of a reference *)

Lemma split_no_sep (sep : ascii) (s : string) :
  allString (fun c => negb (Ascii.eqb c sep)) s = true -> split sep s = [s].
Proof.
  induction s as [|c s IH]; [reflexivity|]. simpl.
  intros [Hc Hs]%andb_true_iff. apply negb_true_iff in Hc.
  now rewrite Hc, IH.
Qed.

Lemma split_at_sep (sep : ascii) (a b : string) :
  allString (fun c => negb (Ascii.eqb c sep)) a = true ->
  split sep (a +:+ String sep b) = a :: split sep b.
Proof.
  induction a as [|c a IH]; intros Ha.
  - rewrite append_nil. simpl. now rewrite Ascii.eqb_refl.
  - simpl in Ha. apply andb_true_iff in Ha as [Hc Ha]. apply negb_true_iff in Hc.
    rewrite append_cons. simpl. now rewrite Hc, IH.
Qed.

Lemma count_none (sep : ascii) (s : string) :
  allString (fun c => negb (Ascii.eqb c sep)) s = true ->
  String.length (filterString (fun c => Ascii.eqb c sep) s) = 0%nat.
Proof.
  induction s as [|c s IH]; [reflexivity|]. simpl.
  intros [Hc Hs]%andb_true_iff. apply negb_true_iff in Hc. rewrite Hc. now apply IH.
Qed.

Lemma count_some (sep : ascii) (s : string) :
  allString (fun c => negb (Ascii.eqb c sep)) s = false ->
  (1 <= String.length (filterString (fun c => Ascii.eqb c sep) s))%nat.
Proof.
  induction s as [|c s IH]; [discriminate|]. simpl.
  destruct (Ascii.eqb c sep); simpl; [lia | exact IH].
Qed.

(** The two parts around the first occurrence of a character are
    determined by the text. *)
Lemma first_sep_unique (sep : ascii) (a a' b b' : string) :
  allString (fun c => negb (Ascii.eqb c sep)) a = true ->
  allString (fun c => negb (Ascii.eqb c sep)) a' = true ->
  a +:+ String sep b = a' +:+ String sep b' -> a = a' /\ b = b'.
Proof.
  revert a'. induction a as [|c a IH]; intros [|c' a'] Ha Ha' E.
  - rewrite !append_nil in E. now injection E as ->.
  - rewrite append_nil, append_cons in E. injection E as <- _.
    simpl in Ha'. now rewrite Ascii.eqb_refl in Ha'.
  - rewrite append_nil, append_cons in E. injection E as -> _.
    simpl in Ha. now rewrite Ascii.eqb_refl in Ha.
  - rewrite !append_cons in E. injection E as -> E.
    simpl in Ha, Ha'. apply andb_true_iff in Ha as [_ Ha], Ha' as [_ Ha'].
    destruct (IH a' Ha Ha' E) as [-> ->]. auto.
Qed.

Lemma quotedMatch_Some (ref name rest : string) :
  quotedMatch ref = Some (name, rest) ->
  ref = String "'" name +:+ String "'" (String "!" rest).
Proof.
  unfold quotedMatch. destruct ref as [|c r]; [discriminate|].
  destruct (Ascii.eqb_spec c "'") as [-> | Hne].
  - pose proof (span_app (fun c => negb (Ascii.eqb c "'")) r) as [_ Hr].
    destruct (span _ r) as [n r1]. simpl in Hr.
    destruct (isEmpty n); [discriminate|].
    destruct (stripPrefix "'!" r1) as [rest'|] eqn:E; [|discriminate].
    apply stripPrefix_Some in E.
    destruct (_ && _); [|discriminate].
    intros H. injection H as <- <-. subst r1. rewrite Hr at 1.
    now rewrite append_cons.
  - destruct c as [[] [] [] [] [] [] [] []]; try discriminate. contradiction.
Qed.

(** The range of a reference made of a sheet name, an exclamation mark
    and a range, when neither part holds another one. *)
Lemma range_of_qualified (sheetName r : string) :
  noBang sheetName -> noBang r ->
  range (parseCellReference (sheetName +:+ String "!" r)) = r.
Proof.
  intros Hs Hr. unfold parseCellReference.
  destruct (quotedMatch _) as [[name rest]|] eqn:E.
  - simpl. apply quotedMatch_Some in E.
    assert (Hq : allString (fun c => negb (Ascii.eqb c "!")) (String "'" name +:+ "'") = true).
    { destruct (allString (fun c => negb (Ascii.eqb c "!")) (String "'" name +:+ "'")) eqn:Ha;
        [reflexivity | exfalso].
      assert (Hall : allString (fun c => negb (Ascii.eqb c "!")) (sheetName +:+ String "!" r)
                     = false).
      { rewrite allString_app. simpl. now rewrite andb_false_r. }
      assert (Hc : String.length
                     (filterString (fun c => Ascii.eqb c "!") (sheetName +:+ String "!" r))
                   = 1%nat).
      { rewrite filterString_app. simpl. rewrite length_append. simpl.
        rewrite (count_none "!" sheetName Hs), (count_none "!" r Hr). reflexivity. }
      rewrite E in Hc.
      replace (String "'" name +:+ String "'" (String "!" rest))
        with ((String "'" name +:+ "'") +:+ String "!" rest) in Hc
        by (rewrite append_assoc; reflexivity).
      rewrite filterString_app, length_append in Hc. simpl in Hc.
      pose proof (count_some "!" _ Ha) as Hn.
      rewrite append_cons in Hn. simpl in Hn. lia. }
    replace (String "'" name +:+ String "'" (String "!" rest))
      with ((String "'" name +:+ "'") +:+ String "!" rest) in E
      by (rewrite append_assoc; reflexivity).
    now destruct (first_sep_unique "!" _ _ _ _ Hs Hq E) as [_ ->].
  - rewrite (split_at_sep "!" sheetName r Hs), (split_no_sep "!" r Hr). reflexivity.
Qed.

Lemma range_of_bare (r : string) : noBang r -> range (parseCellReference r) = r.
Proof.
  intros Hr. unfold parseCellReference.
  destruct (quotedMatch r) as [[name rest]|] eqn:E.
  - exfalso. apply quotedMatch_Some in E. subst r. unfold noBang in Hr.
    rewrite append_cons in Hr. simpl in Hr. rewrite allString_app in Hr.
    simpl in Hr. now rewrite andb_false_r in Hr.
  - now rewrite (split_no_sep "!" r Hr).
Qed.

(** X14: the sheet name in front of a range changes nothing: a reference
    and the bare range give the same values on the same grid. *)
Theorem sheet_name_ignored (sheetData : Grid) (sheetName r : string) :
  noBang sheetName -> noBang r ->
  extractDataFromSheet sheetData (sheetName +:+ "!" +:+ r)
  = extractDataFromSheet sheetData r.
Proof.
  intros Hs Hr. unfold extractDataFromSheet.
  change ("!" +:+ r) with (String "!" r).
  now rewrite range_of_qualified, range_of_bare.
Qed.

Lemma sheet_name_ignored_witness :
  extractDataFromSheet salesGrid ("'Sales 2024'" +:+ "!" +:+ "$B$1:$B$3")
  = extractDataFromSheet salesGrid "$B$1:$B$3".
Proof.
  apply (sheet_name_ignored salesGrid "'Sales 2024'" "$B$1:$B$3"); reflexivity.
Defined.

(** ** Ranges of one column and of one row *)

Lemma row_loop (sheetData : Grid) (row lo hi : Z) (fuel : nat) (values : list value) :
  (Z.to_nat (hi - lo + 1) <= fuel)%nat ->
  forLoop fuel (fun col => col <=? hi)
    (fun col => pushPresent (cellAt sheetData row col)) lo values
  = values ++ List.filter present (map (fun col => cellAt sheetData row col) (zrange lo hi)).
Proof.
  intros Hfuel. rewrite <- flat_map_filter_map.
  apply (forLoop_append
           (fun col => if present (cellAt sheetData row col)
                       then [cellAt sheetData row col] else [])); [| | |assumption].
  - intros i st. unfold pushPresent.
    destruct (present _); [reflexivity | now rewrite app_nil_r].
  - intros i H. now apply Z.leb_le.
  - intros i j Hc Hj. apply Z.leb_gt in Hc. lia.
Qed.

Lemma extract_line (sheetData : Grid) (reference : string) (p : ParsedRange) :
  parseRange (range (parseCellReference reference)) = Some p ->
  isSingleCell p = false ->
  (startCol p = endCol p ->
   extractDataFromSheet sheetData reference
   = List.filter present
       (map (fun row => cellAt sheetData row (startCol p))
          (zrange (startRow p) (endRow p)))) /\
  (startCol p <> endCol p -> startRow p = endRow p ->
   extractDataFromSheet sheetData reference
   = List.filter present
       (map (fun col => cellAt sheetData (startRow p) col)
          (zrange (startCol p) (endCol p)))).
Proof.
  intros Hp Hs. unfold extractDataFromSheet. rewrite Hp, Hs. split.
  - intros Hc. apply Z.eqb_eq in Hc. rewrite Hc.
    rewrite column_loop by (unfold turns; lia). reflexivity.
  - intros Hc Hr. apply Z.eqb_neq in Hc. apply Z.eqb_eq in Hr. rewrite Hc, Hr.
    rewrite row_loop by (unfold turns; lia). reflexivity.
Qed.

(** X15: on a range inside one column the values are those of the column
    from the first row to the last, and on a range inside one row those of
    the row from the first column to the last, in that order and without
    the blank cells; the indices of the range are those that the code's
    numbers hold exactly. *)
Theorem extract_line_ranges (sheetData : Grid) (reference : string) (p : ParsedRange) :
  parseRange (range (parseCellReference reference)) = Some p ->
  safeRange p ->
  isSingleCell p = false ->
  (startCol p = endCol p ->
   extractDataFromSheet sheetData reference
   = List.filter present
       (map (fun row => cellAt sheetData row (startCol p))
          (zrange (startRow p) (endRow p)))) /\
  (startCol p <> endCol p -> startRow p = endRow p ->
   extractDataFromSheet sheetData reference
   = List.filter present
       (map (fun col => cellAt sheetData (startRow p) col)
          (zrange (startCol p) (endCol p)))).
Proof. intros Hp _. exact (extract_line sheetData reference p Hp). Qed.

Lemma extract_line_ranges_witness :
  extractDataFromSheet salesGrid "Sheet1!$C$1:$C$5"
  = List.filter present (map (fun row => cellAt salesGrid row 2) (zrange 0 4))
  /\ extractDataFromSheet salesGrid "A2:C2"
     = List.filter present (map (fun col => cellAt salesGrid 1 col) (zrange 0 2)).
Proof.
  assert (Safe : forall a b c d s,
             0 <= a <= 9 -> 0 <= b <= 9 -> 0 <= c <= 9 -> 0 <= d <= 9 ->
             safeRange {| startCol := a; startRow := b; endCol := c; endRow := d;
                          isSingleCell := s |}).
  { intros a b c d s Ha Hb Hc Hd. unfold safeRange, MAX_SAFE_INTEGER. simpl. lia. }
  split.
  - apply (proj1 (extract_line_ranges salesGrid "Sheet1!$C$1:$C$5"
                    {| startCol := 2; startRow := 0; endCol := 2; endRow := 4;
                       isSingleCell := false |} eq_refl
                    (Safe 2 0 2 4 false ltac:(lia) ltac:(lia) ltac:(lia) ltac:(lia))
                    eq_refl)).
    reflexivity.
  - apply (proj2 (extract_line_ranges salesGrid "A2:C2"
                    {| startCol := 0; startRow := 1; endCol := 2; endRow := 1;
                       isSingleCell := false |} eq_refl
                    (Safe 0 1 2 1 false ltac:(lia) ltac:(lia) ltac:(lia) ltac:(lia))
                    eq_refl));
      [discriminate | reflexivity].
Defined.

(** ** What the resolver returns *)

Lemma present_notNullish (v : value) : present v = true -> notNullish v = true.
Proof. now destruct v. Qed.

Lemma columnMajorValues_In (sheetData : Grid) (p : ParsedRange) (v : value) :
  In v (columnMajorValues sheetData p) ->
  present v = true /\
  exists row col, startRow p <= row <= endRow p /\ startCol p <= col <= endCol p /\
                  v = cellAt sheetData row col.
Proof.
  unfold columnMajorValues. intros H.
  apply in_flat_map in H as (col & Hcol & H).
  apply filter_In in H as [H Hp]. apply in_map_iff in H as (row & <- & Hrow).
  apply zrange_bounds in Hcol, Hrow. split; [assumption|]. now exists row, col.
Qed.

Lemma extract_rectangle (sheetData : Grid) (reference : string) (p : ParsedRange) :
  parseRange (range (parseCellReference reference)) = Some p ->
  startCol p <> endCol p ->
  startRow p <> endRow p ->
  extractDataFromSheet sheetData reference = columnMajorValues sheetData p.
Proof.
  intros Hp Hc Hr.
  assert (Hs : isSingleCell p = false).
  { destruct (isSingleCell p) eqn:E; [|reflexivity].
    now apply (parseRange_single _ p Hp) in E. }
  unfold extractDataFromSheet. rewrite Hp, Hs.
  apply Z.eqb_neq in Hc, Hr. rewrite Hc, Hr.
  apply columns_loop.
Qed.

(** X16: every value that the resolver returns is a cell of the range of
    the reference in the grid, and is neither null nor absent; for a
    range it is not the empty string either, which a single cell may
    be. *)
Theorem extracted_values_in_range (sheetData : Grid) (reference : string) (v : value) :
  In v (extractDataFromSheet sheetData reference) ->
  exists p row col,
    parseRange (range (parseCellReference reference)) = Some p /\
    startRow p <= row <= endRow p /\ startCol p <= col <= endCol p /\
    v = cellAt sheetData row col /\
    notNullish v = true /\
    (isSingleCell p = false -> present v = true).
Proof.
  intros Hin.
  destruct (parseRange (range (parseCellReference reference))) as [p|] eqn:Hp.
  2:{ unfold extractDataFromSheet in Hin. rewrite Hp in Hin. destruct Hin. }
  exists p.
  destruct (isSingleCell p) eqn:Hs.
  - pose proof (parseRange_Some_bounds _ p Hp) as (_ & _ & _ & _ & Heq).
    destruct (Heq Hs) as [Hc Hr].
    unfold extractDataFromSheet in Hin. rewrite Hp, Hs in Hin.
    destruct (notNullish (cellAt sheetData (startRow p) (startCol p))) eqn:Hn;
      [|destruct Hin].
    destruct Hin as [<- | []].
    exists (startRow p), (startCol p).
    split; [reflexivity|]. split; [lia|]. split; [lia|]. split; [reflexivity|].
    split; [assumption | discriminate].
  - assert (Hall : In v (columnMajorValues sheetData p)).
    { destruct (Z.eq_dec (startCol p) (endCol p)) as [Hc | Hc].
      - rewrite (proj1 (extract_line sheetData reference p Hp Hs) Hc) in Hin.
        apply filter_In in Hin as [Hin Hpv]. apply in_map_iff in Hin as (row & <- & Hrow).
        unfold columnMajorValues. apply in_flat_map. exists (startCol p). split.
        + rewrite <- Hc. rewrite zrange_cons by lia. now left.
        + apply filter_In. split; [|assumption]. apply in_map_iff. now exists row.
      - destruct (Z.eq_dec (startRow p) (endRow p)) as [Hr | Hr].
        + rewrite (proj2 (extract_line sheetData reference p Hp Hs) Hc Hr) in Hin.
          apply filter_In in Hin as [Hin Hpv]. apply in_map_iff in Hin as (col & <- & Hcol).
          unfold columnMajorValues. apply in_flat_map. exists col. split; [assumption|].
          apply filter_In. split; [|assumption]. apply in_map_iff.
          exists (startRow p). split; [reflexivity|].
          rewrite <- Hr. rewrite zrange_cons by lia. now left.
        + now rewrite (extract_rectangle sheetData reference p Hp Hc Hr) in Hin. }
    apply columnMajorValues_In in Hall as (Hpv & row & col & Hrow & Hcol & ->).
    exists row, col.
    split; [reflexivity|]. split; [lia|]. split; [lia|]. split; [reflexivity|].
    split; [now apply present_notNullish | intros _; assumption].
Qed.

Lemma extracted_values_in_range_witness :
  exists p row col,
    parseRange (range (parseCellReference "Sheet1!$B$1:$C$2")) = Some p /\
    startRow p <= row <= endRow p /\ startCol p <= col <= endCol p /\
    Num (ofZ 20) = cellAt salesGrid row col /\
    notNullish (Num (ofZ 20)) = true.
Proof.
  destruct (extracted_values_in_range salesGrid "Sheet1!$B$1:$C$2" (Num (ofZ 20)))
    as (p & row & col & H1 & H2 & H3 & H4 & H5 & _).
  - vm_compute. right. now left.
  - exists p, row, col. repeat split; try assumption; tauto.
Defined.

(** ** A blank cell, alone and in a range *)

Lemma noBang_address (a b : bool) (letters digits : string) :
  isColumnName letters -> isRowNumber digits -> noBang (addressText a b letters digits).
Proof.
  intros [_ Hu] [_ Hd]. unfold noBang, addressText. rewrite !allString_app.
  assert (H1 : allString (fun c => negb (Ascii.eqb c "!")) letters = true).
  { apply (allString_impl isUpper); [|assumption]. intros c Hc.
    destruct (Ascii.eqb_spec c "!"); [subst; discriminate | reflexivity]. }
  assert (H2 : allString (fun c => negb (Ascii.eqb c "!")) digits = true).
  { apply (allString_impl isDigit); [|assumption]. intros c Hc.
    destruct (Ascii.eqb_spec c "!"); [subst; discriminate | reflexivity]. }
  rewrite H1, H2. now destruct a, b.
Qed.

(** X17: a cell that holds the empty string is returned by the reference
    to that cell alone, and left out by the range that starts and ends at
    that cell. *)
Theorem blank_cell_alone_and_in_range (sheetData : Grid) (a b : bool) (c : Z) (d : string) :
  0 <= c -> isRowNumber d ->
  cellAt sheetData (parseIntDigits d - 1) c = Str "" ->
  extractDataFromSheet sheetData (addressText a b (getColumnLetter c) d) = [Str ""] /\
  extractDataFromSheet sheetData
    (addressText a b (getColumnLetter c) d +:+ ":" +:+ addressText a b (getColumnLetter c) d)
  = [].
Proof.
  intros Hc Hd Hcell.
  pose proof (getColumnLetter_isColumnName c Hc) as Hl.
  pose proof (noBang_address a b _ d Hl Hd) as Hn.
  split.
  - unfold extractDataFromSheet.
    rewrite range_of_bare, (proj2 parseRange_address) by assumption.
    simpl. now rewrite Hcell.
  - set (ref := _ +:+ ":" +:+ _).
    assert (Hp : parseRange (range (parseCellReference ref))
                 = Some {| startCol := c; startRow := parseIntDigits d - 1;
                           endCol := c; endRow := parseIntDigits d - 1;
                           isSingleCell := false |}).
    { rewrite range_of_bare; [now apply (proj1 parseRange_address)|].
      unfold ref, noBang in *. rewrite !allString_app, Hn. reflexivity. }
    rewrite (proj1 (extract_line sheetData ref _ Hp eq_refl) eq_refl).
    simpl startRow. simpl endRow. simpl startCol.
    rewrite zrange_cons, zrange_nil by lia. simpl. now rewrite Hcell.
Qed.

Lemma blank_cell_alone_and_in_range_witness :
  extractDataFromSheet [[Str "a"; Str ""]] (addressText true true (getColumnLetter 1) "1")
  = [Str ""] /\
  extractDataFromSheet [[Str "a"; Str ""]]
    (addressText true true (getColumnLetter 1) "1" +:+ ":"
     +:+ addressText true true (getColumnLetter 1) "1")
  = [].
Proof.
  apply (blank_cell_alone_and_in_range [[Str "a"; Str ""]] true true 1 "1");
    [lia | split; [discriminate | reflexivity] | reflexivity].
Defined.

(** ** The series of a chart definition *)

Lemma element_Some (open close s body : string) :
  element open close s = Some body -> body <> "" /\ allString notLt body = true.
Proof.
  unfold element. destruct (stripPrefix open s) as [r|]; [|discriminate].
  pose proof (span_app (fun c => negb (Ascii.eqb c "<")) r) as [Hb _].
  destruct (span _ r) as [b r']. simpl in Hb.
  destruct b as [|c b]; [discriminate|]. simpl isEmpty. cbv iota.
  destruct (stripPrefix close r'); [|discriminate].
  intros H. injection H as <-. split; [discriminate | exact Hb].
Qed.

Lemma attrVal_Some (tag s v : string) :
  attrVal tag s = Some v -> v <> "" /\ allString notQuote v = true.
Proof.
  unfold attrVal. destruct (stripPrefix tag s) as [r|]; [|discriminate].
  destruct (span isWhiteSpace r) as [ws r1].
  destruct (isEmpty ws); [discriminate|].
  destruct (stripPrefix _ r1) as [r2|]; [|discriminate].
  pose proof (span_app (fun c => negb (Ascii.eqb c dquote)) r2) as [Hb _].
  destruct (span _ r2) as [b r3]. simpl in Hb.
  destruct b as [|c b]; [discriminate|]. simpl isEmpty. cbv iota.
  destruct r3 as [|q r3]; [discriminate|].
  destruct (Ascii.eqb q dquote); [|discriminate].
  intros H. injection H as <-. split; [discriminate | exact Hb].
Qed.

(** What the search finds is what the matcher gives somewhere. *)
Lemma searchFirst_Some {A : Type} (m : string -> option A) (P : A -> Prop) (s : string) (a : A) :
  (forall t x, m t = Some x -> P x) -> searchFirst m s = Some a -> P a.
Proof.
  intros Hm. induction s as [|c s IH]; simpl.
  - destruct (m "") as [x|] eqn:E; [|discriminate].
    intros H. injection H as <-. now apply (Hm "").
  - destruct (m (String c s)) as [x|] eqn:E.
    + intros H. injection H as <-. now apply (Hm (String c s)).
    + exact IH.
Qed.

Lemma afterFirst_Some {A : Type} (lit : string) (k : string -> option A) (P : A -> Prop)
    (s : string) (a : A) :
  (forall t x, k t = Some x -> P x) -> afterFirst lit k s = Some a -> P a.
Proof.
  intros Hk. unfold afterFirst. destruct (findLit lit s) as [[b r]|]; [|discriminate].
  apply Hk.
Qed.

Lemma refText_Some (lit open close s body : string) :
  afterFirst lit (searchFirst (element open close)) s = Some body ->
  body <> "" /\ allString notLt body = true.
Proof.
  apply (afterFirst_Some lit _ (fun b => b <> "" /\ allString notLt b = true)).
  intros t x. apply (searchFirst_Some _ (fun b => b <> "" /\ allString notLt b = true)).
  intros t' x'. apply element_Some.
Qed.

Lemma parseSeries_Some (seriesXml : string) (ref : SeriesRef) :
  parseSeries seriesXml = Some ref -> wellFormedSeries ref.
Proof.
  unfold parseSeries.
  assert (Hn : forall n,
             afterFirst "<c:tx>" (searchFirst (element "<c:v>" "</c:v>")) seriesXml = Some n ->
             n <> "" /\ allString notLt n = true)
    by (intros n; apply refText_Some).
  assert (Hv : forall v,
             match afterFirst "<c:val>" (searchFirst (element "<c:f>" "</c:f>")) seriesXml with
             | Some v => Some v
             | None => afterFirst "<c:yVal>" (searchFirst (element "<c:f>" "</c:f>")) seriesXml
             end = Some v ->
             v <> "" /\ allString notLt v = true).
  { intros v. destruct (afterFirst "<c:val>" _ seriesXml) as [v0|] eqn:E.
    - intros H. injection H as <-. now apply refText_Some in E.
    - apply refText_Some. }
  assert (Hc : forall c,
             match searchFirst (attrVal "<a:srgbClr") seriesXml with
             | Some c => Some ("#" +:+ c)
             | None => None
             end = Some c ->
             exists hex, c = "#" +:+ hex /\ hex <> "").
  { intros c. destruct (searchFirst (attrVal "<a:srgbClr") seriesXml) as [hex|] eqn:E;
      [|discriminate].
    intros H. injection H as <-. exists hex. split; [reflexivity|].
    apply (searchFirst_Some _ (fun v => v <> "") _ _) in E; [assumption|].
    intros t x Hx. now apply attrVal_Some in Hx. }
  destruct (match afterFirst "<c:val>" _ seriesXml with
            | Some v => Some v
            | None => _
            end) as [v|]; [|discriminate].
  intros H. injection H as <-. unfold wellFormedSeries. simpl.
  split; [now apply Hv|]. split; [exact Hn | exact Hc].
Qed.

Lemma seriesLoop_wellFormed (fuel : nat) (xml : string) (ref : SeriesRef) :
  In ref (seriesLoop fuel xml) -> wellFormedSeries ref.
Proof.
  revert xml. induction fuel as [|fuel IH]; intros xml; simpl; [intros []|].
  destruct (findLit "<c:ser>" xml) as [[b r]|]; [|intros []].
  destruct (findLit "</c:ser>" r) as [[body rest]|]; [|intros []].
  destruct (parseSeries body) as [s|] eqn:Es; [|apply IH].
  intros [<- | Hin]; [now apply parseSeries_Some in Es | now apply IH in Hin].
Qed.

Lemma seriesRefs_parseChartXml (xml : string) :
  seriesRefs (parseChartXml xml) = seriesLoop (String.length xml) xml.
Proof.
  unfold parseChartXml. now destruct (detectKind xml).
Qed.

(** X18: every series of a parsed chart definition has a value reference
    that is not empty and holds no opening bracket; its name, when it has
    one, is not empty either, and its colour is a hash sign followed by a
    value. *)
Theorem parsed_series_well_formed (xml : string) (s : SeriesRef) :
  In s (seriesRefs (parseChartXml xml)) -> wellFormedSeries s.
Proof.
  rewrite seriesRefs_parseChartXml. apply seriesLoop_wellFormed.
Qed.

Lemma parsed_series_well_formed_witness :
  wellFormedSeries {| name := None; valueRef := "Sheet1!$C$1:$C$5"; color := None |}.
Proof.
  apply (parsed_series_well_formed salesXml). vm_compute. right. now left.
Defined.

(** ** A text without tags *)

Lemma stripPrefix_lt_none (t s : string) :
  allString notLt s = true -> stripPrefix (String "<" t) s = None.
Proof.
  destruct s as [|c s]; [reflexivity|].
  change (stripPrefix (String "<" t) (String c s))
    with (if Ascii.eqb "<" c then stripPrefix t s else None).
  simpl allString. intros [Hc _]%andb_true_iff.
  unfold notLt in Hc. apply negb_true_iff in Hc.
  rewrite Ascii.eqb_sym. now rewrite Hc.
Qed.

Lemma findLit_lt_none (t s : string) :
  allString notLt s = true -> findLit (String "<" t) s = None.
Proof.
  induction s as [|c s IH]; intros Hs.
  - reflexivity.
  - cbn [findLit]. rewrite (stripPrefix_lt_none t _ Hs).
    simpl in Hs. apply andb_true_iff in Hs as [_ Hs]. now rewrite (IH Hs).
Qed.

Lemma includes_lt_false (t s : string) :
  allString notLt s = true -> includes (String "<" t) s = false.
Proof.
  intros Hs. unfold includes. now rewrite findLit_lt_none.
Qed.

Lemma searchFirst_none {A : Type} (m : string -> option A) (s : string) :
  (forall t, m t = None) -> searchFirst m s = None.
Proof.
  intros Hm. induction s as [|c s IH]; simpl; rewrite Hm; [reflexivity | exact IH].
Qed.

Lemma searchFirst_attrVal_lt_none (t s : string) :
  allString notLt s = true -> searchFirst (attrVal (String "<" t)) s = None.
Proof.
  intros Hs. apply searchFirst_attrVal_absent. now apply includes_lt_false.
Qed.

Lemma afterFirst_lt_none {A : Type} (t : string) (k : string -> option A) (s : string) :
  allString notLt s = true -> afterFirst (String "<" t) k s = None.
Proof.
  intros Hs. unfold afterFirst. now rewrite findLit_lt_none.
Qed.

Lemma seriesLoop_lt_none (fuel : nat) (s : string) :
  allString notLt s = true -> seriesLoop fuel s = [].
Proof.
  intros Hs. destruct fuel; [reflexivity|]. simpl.
  change "<c:ser>" with (String "<" "c:ser>"). now rewrite findLit_lt_none.
Qed.

(** X19: a text that holds no opening bracket gives the chart definition
    in which nothing was found: a vertical bar chart, not stacked, with no
    title, no category reference and no series; and the builder gives no
    chart for it. *)
Theorem plain_text_gives_empty_chart :
  (forall xml : string,
     allString notLt xml = true -> parseChartXml xml = emptyChartInfo) /\
  (forall (host : Host) (xml : string) (sheetData : Grid),
     allString notLt xml = true -> buildChartData xml sheetData = None).
Proof.
  assert (Parse : forall xml : string,
             allString notLt xml = true -> parseChartXml xml = emptyChartInfo).
  { intros xml Hs. unfold parseChartXml, detectKind, textRun.
    change "<c:barChart" with (String "<" "c:barChart").
    change "<c:bar3DChart" with (String "<" "c:bar3DChart").
    change "<c:lineChart" with (String "<" "c:lineChart").
    change "<c:line3DChart" with (String "<" "c:line3DChart").
    change "<c:pieChart" with (String "<" "c:pieChart").
    change "<c:pie3DChart" with (String "<" "c:pie3DChart").
    change "<c:doughnutChart" with (String "<" "c:doughnutChart").
    change "<c:scatterChart" with (String "<" "c:scatterChart").
    change "<c:areaChart" with (String "<" "c:areaChart").
    change "<c:area3DChart" with (String "<" "c:area3DChart").
    change "<c:radarChart" with (String "<" "c:radarChart").
    change "<c:grouping" with (String "<" "c:grouping").
    change "<c:title>" with (String "<" "c:title>").
    change "<c:catAx>" with (String "<" "c:catAx>").
    change "<c:valAx>" with (String "<" "c:valAx>").
    change "<c:cat>" with (String "<" "c:cat>").
    rewrite !includes_lt_false by assumption. cbv iota beta. simpl orb. cbv iota.
    rewrite searchFirst_attrVal_lt_none by assumption.
    rewrite !afterFirst_lt_none by assumption.
    rewrite seriesLoop_lt_none by assumption.
    reflexivity. }
  split; [exact Parse|].
  intros host xml sheetData Hs. unfold buildChartData.
  rewrite (Parse xml Hs). reflexivity.
Qed.

Lemma plain_text_gives_empty_chart_witness :
  parseChartXml "not a chart part" = emptyChartInfo
  /\ buildChartData (host := exampleHost) "not a chart part" salesGrid = None.
Proof.
  split.
  - apply (proj1 plain_text_gives_empty_chart). reflexivity.
  - apply (proj2 plain_text_gives_empty_chart exampleHost). reflexivity.
Defined.

(** ** The grouping of a chart *)






(** ** Charts that the builder returns *)

Lemma horizontal_only_bar (xml : string) :
  horizontal (parseChartXml xml) = true -> chartType (parseChartXml xml) = bar.
Proof.
  unfold parseChartXml, detectKind.
  repeat match goal with
         | |- context [if ?b then _ else _] => destruct b
         end; simpl; congruence.
Qed.

Section BuilderMore.
Context {host : Host}.

Lemma seriesDataset_label (sheetData : Grid) (series : SeriesRef) :
  label (seriesDataset sheetData series) <> "".
Proof.
  unfold seriesDataset. simpl. destruct (name series) as [[|c n]|]; discriminate.
Qed.

Lemma seriesDataset_finite (sheetData : Grid) (series : SeriesRef) (x : jsnum) :
  In x (data (seriesDataset sheetData series)) -> isFinite x = true.
Proof.
  unfold seriesDataset. simpl. intros [_ H]%filter_In. now apply validNumber_finite.
Qed.

Lemma seriesDataset_data (sheetData : Grid) (series : SeriesRef) :
  data (seriesDataset sheetData series)
  = List.filter isFinite
      (map plainNumber (extractDataFromSheet sheetData (valueRef series))).
Proof.
  unfold seriesDataset. simpl.
  rewrite (map_ext toNumber plainNumber toNumber_plainNumber).
  apply filter_ext. intros n. unfold validNumber. now destruct n.
Qed.

(** The lengths in a chart that the builder returns. *)
Lemma built_lengths (xml : string) (sheetData : Grid) (cd : ChartData) :
  buildChartData xml sheetData = Some cd ->
  let surviving := resolveDatasets (parseChartXml xml) sheetData in
  let resolved := resolveLabels (parseChartXml xml) sheetData in
  let n := minOf (map (fun ds => length (data ds)) surviving) in
  surviving <> [] /\
  datasets cd = map (truncateTo n) surviving /\
  (forall ds, In ds (datasets cd) -> length (data ds) = n) /\
  (exists ds, In ds surviving /\ length (data ds) = n) /\
  length (labels cd)
  = (if Nat.eqb (length resolved) 0 then n else Nat.min n (length resolved)).
Proof.
  intros H surviving resolved n.
  destruct (buildChartData_Some xml sheetData cd H) as (Hne & Hds & Hlab).
  fold surviving in Hne, Hds, Hlab. fold resolved in Hlab. fold n in Hds, Hlab.
  destruct (minOf_least (map (fun ds => length (data ds)) surviving)) as [Hin Hle].
  { intros E. apply map_eq_nil in E. contradiction. }
  fold n in Hin, Hle.
  split; [assumption|]. split; [assumption|]. split; [|split].
  - intros ds Hd. rewrite Hds in Hd. apply in_map_iff in Hd as (d0 & <- & Hd0).
    simpl. rewrite length_take.
    assert ((n <= length (data d0))%nat)
      by (apply Hle; now apply (in_map (fun ds => length (data ds)))).
    lia.
  - apply in_map_iff in Hin as (d0 & Hd0 & Hin). now exists d0.
  - rewrite Hlab. destruct (Nat.eqb (length resolved) 0).
    + now rewrite length_map, length_seq.
    + apply length_take.
Qed.

Lemma In_take_list {A : Type} (n : nat) (l : list A) (x : A) : In x (take n l) -> In x l.
Proof. apply In_take. Qed.

(** X21: a chart that the builder returns has at least one dataset and
    at least one label; every dataset has a label that is not empty and
    holds at least one number, all of them finite; there are never more
    labels than points; and the chart is horizontal only when it is a bar
    chart. *)
Theorem built_chart_invariants (xml : string) (sheetData : Grid) (cd : ChartData) :
  buildChartData xml sheetData = Some cd ->
  datasets cd <> [] /\ labels cd <> [] /\
  (forall ds, In ds (datasets cd) ->
     label ds <> "" /\ data ds <> [] /\
     (forall x, In x (data ds) -> isFinite x = true) /\
     (length (labels cd) <= length (data ds))%nat) /\
  (cdHorizontal cd = true -> cdType cd = bar).
Proof.
  intros H.
  destruct (built_lengths xml sheetData cd H) as (Hne & Hds & Hlen & (d0 & Hd0 & Hn) & Hlab).
  set (surviving := resolveDatasets (parseChartXml xml) sheetData) in *.
  set (n := minOf (map (fun ds => length (data ds)) surviving)) in *.
  assert (Hsurv : forall ds, In ds surviving ->
                    label ds <> "" /\ (1 <= length (data ds))%nat /\
                    forall x, In x (data ds) -> isFinite x = true).
  { intros ds Hin. unfold surviving, resolveDatasets in Hin.
    apply filter_In in Hin as [Hin Hpos]. apply in_map_iff in Hin as (s & <- & _).
    split; [apply seriesDataset_label|]. split.
    - destruct (length (data (seriesDataset sheetData s))); [discriminate | lia].
    - intros x. apply seriesDataset_finite. }
  assert (Hn1 : (1 <= n)%nat).
  { destruct (Hsurv d0 Hd0) as (_ & Hp & _). lia. }
  split; [|split; [|split]].
  - rewrite Hds. destruct surviving; [contradiction | discriminate].
  - intros E. rewrite E in Hlab. simpl in Hlab.
    destruct (Nat.eqb_spec (length (resolveLabels (parseChartXml xml) sheetData)) 0); lia.
  - intros ds Hin. pose proof (Hlen ds Hin) as Hl.
    rewrite Hds in Hin. apply in_map_iff in Hin as (d1 & <- & Hd1).
    destruct (Hsurv d1 Hd1) as (Hlbl & _ & Hfin).
    split; [exact Hlbl|]. split.
    + intros E. rewrite E in Hl. simpl in Hl. lia.
    + split.
      * intros x Hx. simpl in Hx. apply In_take_list in Hx. now apply Hfin.
      * rewrite Hlab, Hl.
        destruct (Nat.eqb (length (resolveLabels (parseChartXml xml) sheetData)) 0); lia.
  - unfold buildChartData in H.
    destruct (resolveDatasets (parseChartXml xml) sheetData); [discriminate|].
    injection H as <-. simpl. apply horizontal_only_bar.
Qed.

(** X22: the builder gives no chart exactly when no value of any series
    reference is a finite number. *)
Theorem no_chart_iff_no_number (xml : string) (sheetData : Grid) :
  buildChartData xml sheetData = None <->
  forall series v,
    In series (seriesRefs (parseChartXml xml)) ->
    In v (extractDataFromSheet sheetData (valueRef series)) ->
    isFinite (plainNumber v) = false.
Proof.
  split.
  - intros H series v Hs Hv.
    destruct (isFinite (plainNumber v)) eqn:Ef; [exfalso | reflexivity].
    unfold buildChartData in H.
    assert (Hin : In (seriesDataset sheetData series)
                    (resolveDatasets (parseChartXml xml) sheetData)).
    { unfold resolveDatasets. apply filter_In. split; [now apply in_map|].
      assert (Hx : In (plainNumber v) (data (seriesDataset sheetData series))).
      { rewrite seriesDataset_data. apply filter_In. split; [|assumption].
        now apply in_map. }
      destruct (data (seriesDataset sheetData series)); [destruct Hx | reflexivity]. }
    destruct (resolveDatasets (parseChartXml xml) sheetData); [destruct Hin | discriminate].
  - intros H. unfold buildChartData.
    destruct (resolveDatasets (parseChartXml xml) sheetData) as [|d l] eqn:E; [reflexivity|].
    exfalso.
    assert (Hin : In d (resolveDatasets (parseChartXml xml) sheetData))
      by (rewrite E; now left).
    unfold resolveDatasets in Hin. apply filter_In in Hin as [Hin Hpos].
    apply in_map_iff in Hin as (series & <- & Hs).
    rewrite seriesDataset_data in Hpos.
    destruct (List.filter isFinite _) as [|x xs] eqn:Ex; [discriminate|].
    assert (Hx : In x (List.filter isFinite
                         (map plainNumber (extractDataFromSheet sheetData (valueRef series)))))
      by (rewrite Ex; now left).
    apply filter_In in Hx as [Hx Hf]. apply in_map_iff in Hx as (v & <- & Hv).
    rewrite (H series v Hs Hv) in Hf. discriminate.
Qed.

End BuilderMore.

Lemma built_chart_invariants_witness :
  datasets salesChart <> [] /\ labels salesChart <> [] /\
  (label {| label := "Series"; data := map ofZ [1; 2; 3]; dsColor := None |} <> "" /\
   data {| label := "Series"; data := map ofZ [1; 2; 3]; dsColor := None |} <> [] /\
   (length (labels salesChart) <= 3)%nat).
Proof.
  assert (Hb : buildChartData (host := exampleHost) salesXml salesGrid = Some salesChart)
    by (vm_compute; reflexivity).
  destruct (built_chart_invariants (host := exampleHost) salesXml salesGrid salesChart Hb)
    as (H1 & H2 & H3 & _).
  split; [exact H1|]. split; [exact H2|].
  destruct (H3 {| label := "Series"; data := map ofZ [1; 2; 3]; dsColor := None |})
    as (Ha & Hb' & _ & Hd); [right; now left|].
  split; [exact Ha|]. split; [exact Hb' | exact Hd].
Defined.

Lemma no_chart_iff_no_number_witness :
  buildChartData (host := exampleHost)
    (chartXml "Sheet1!$A$1:$A$2" ["Sheet1!$A$1:$A$2"]) [[Str "1e309"]; [Str "x"]] = None.
Proof.
  apply (no_chart_iff_no_number (host := exampleHost)).
  intros series v Hs Hv. vm_compute in Hs.
  destruct Hs as [<- | []]. vm_compute in Hv.
  repeat (destruct Hv as [<- | Hv]; [reflexivity|]). destruct Hv.
Defined.

(** ** The parts of the container *)

Lemma endsWith_suffix (suffix s : string) :
  endsWith suffix s = true -> exists pre, s = pre +:+ suffix.
Proof.
  induction s as [|c s IH]; cbn [endsWith]; intros H.
  - rewrite orb_false_r in H. apply String.eqb_eq in H. subst. now exists "".
  - apply orb_true_iff in H as [H | H].
    + apply String.eqb_eq in H. rewrite H. now exists "".
    + destruct (IH H) as [pre ->]. exists (String c pre). now rewrite append_cons.
Qed.

Lemma split_nonempty (sep : ascii) (s : string) : split sep s <> [].
Proof.
  destruct s as [|c s]; simpl; [discriminate|].
  destruct (Ascii.eqb c sep); [discriminate|].
  destruct (split sep s); discriminate.
Qed.

Lemma last_split_cons (sep c : ascii) (s : string) :
  In sep (list_ascii_of_string s) ->
  List.last (split sep (String c s)) "" = List.last (split sep s) "".
Proof.
  intros Hin. simpl split.
  assert (H2 : exists h x t, split sep s = h :: x :: t).
  { clear c. induction s as [|d s IH]; [destruct Hin|]. simpl in Hin. simpl split.
    destruct (Ascii.eqb_spec d sep) as [E | E].
    - pose proof (split_nonempty sep s) as Hn.
      destruct (split sep s) as [|x t]; [contradiction|]. now exists "", x, t.
    - destruct Hin as [Hin | Hin]; [contradiction|].
      destruct (IH Hin) as (h & x & t & ->). now exists (String d h), x, t. }
  destruct H2 as (h & x & t & E).
  destruct (Ascii.eqb c sep).
  - rewrite E. reflexivity.
  - rewrite E. reflexivity.
Qed.

Lemma extensionOf_suffix (pre ext : string) :
  allString (fun c => negb (Ascii.eqb c ".")) ext = true ->
  extensionOf (pre +:+ String "." ext) = ext.
Proof.
  intros Hext. unfold extensionOf. induction pre as [|c pre IH].
  - rewrite append_nil. change (split "." (String "." ext)) with ("" :: split "." ext).
    now rewrite (split_no_sep _ _ Hext).
  - rewrite append_cons, last_split_cons; [exact IH|].
    clear IH. induction pre as [|d pre IH]; [now left | right; exact IH].
Qed.

Lemma chart_part_not_image (name : string) :
  isChartPart name = true -> isImagePart name = false.
Proof.
  unfold isChartPart, isImagePart. intros [_ He]%andb_true_iff.
  destruct (endsWith_suffix _ _ He) as [pre ->].
  rewrite (extensionOf_suffix pre "xml") by reflexivity.
  apply andb_false_r.
Qed.

Lemma mimeTypeOf_cases (ext : string) :
  (mimeTypeOf ext = "image/jpeg" /\ (ext = "jpg" \/ ext = "jpeg")) \/
  (mimeTypeOf ext = "image/gif" /\ ext = "gif") \/
  (mimeTypeOf ext = "image/bmp" /\ ext = "bmp") \/
  (mimeTypeOf ext = "image/png" /\ ext <> "jpg" /\ ext <> "jpeg" /\ ext <> "gif" /\ ext <> "bmp").
Proof.
  unfold mimeTypeOf.
  destruct (String.eqb_spec ext "jpg") as [E1 | E1]; [left; auto|].
  destruct (String.eqb_spec ext "jpeg") as [E2 | E2]; [left; auto|].
  destruct (String.eqb_spec ext "gif") as [E3 | E3]; [right; left; auto|].
  destruct (String.eqb_spec ext "bmp") as [E4 | E4]; [right; right; left; auto|].
  right; right; right. simpl. auto.
Qed.

Section ContainerFacts.
Variable Buffer : Type.
Variable toUtf8 : Buffer -> string.

Lemma extract_fold (es : list (ZipEntry Buffer)) (acc : XlsxExtractResult Buffer) :
  fold_left (extractEntry toUtf8) es acc
  = {| images := images acc
                 ++ map imageOf (List.filter (fun e => isImagePart (toLowerCase (entryName e))) es);
       chartXmls := chartXmls acc
                 ++ map (chartOf toUtf8) (List.filter (fun e => isChartPart (toLowerCase (entryName e))) es) |}.
Proof.
  revert acc. induction es as [|e es IH]; intros acc.
  - simpl. rewrite !app_nil_r. now destruct acc.
  - simpl fold_left. rewrite IH. unfold extractEntry. simpl.
    destruct (isChartPart (toLowerCase (entryName e)));
      destruct (isImagePart (toLowerCase (entryName e))); simpl;
      rewrite <- ?app_assoc; reflexivity.
Qed.

(** X23: the parts taken from the container.  The chart parts are the
    entries whose name in small letters holds [/charts/chart] and ends in
    [.xml], the images are the entries under a media, chart or drawing path
    with an image extension, each list in the order of the entries; no
    entry name is in both lists; the type of an image is one of four, and
    an [emf] or [wmf] image is given as [image/png]; a container that
    cannot be opened gives two empty lists. *)
Theorem container_parts (entries : list (ZipEntry Buffer)) :
  let r := extractFromXlsx toUtf8 (Some entries) in
  chartXmls r
  = map (chartOf toUtf8) (List.filter (fun e => isChartPart (toLowerCase (entryName e))) entries) /\
  images r
  = map imageOf (List.filter (fun e => isImagePart (toLowerCase (entryName e))) entries) /\
  (forall c i, In c (chartXmls r) -> In i (images r) -> chartFilename c <> imageFilename i) /\
  (forall i, In i (images r) ->
     In (mimeType i) ["image/png"; "image/jpeg"; "image/gif"; "image/bmp"] /\
     (endsWith ".emf" (toLowerCase (imageFilename i)) = true \/
      endsWith ".wmf" (toLowerCase (imageFilename i)) = true ->
      mimeType i = "image/png")) /\
  extractFromXlsx toUtf8 None = {| images := []; chartXmls := [] |}.
Proof.
  intros r.
  assert (Hr : r = {| images := map imageOf (List.filter (fun e => isImagePart (toLowerCase (entryName e))) entries);
                      chartXmls := map (chartOf toUtf8) (List.filter (fun e => isChartPart (toLowerCase (entryName e))) entries) |}).
  { unfold r, extractFromXlsx. now rewrite extract_fold. }
  rewrite Hr. simpl chartXmls. simpl images.
  split; [reflexivity|]. split; [reflexivity|]. split; [|split; [|reflexivity]].
  - intros c i Hc Hi E.
    apply in_map_iff in Hc as (e1 & <- & [_ H1]%filter_In).
    apply in_map_iff in Hi as (e2 & <- & [_ H2]%filter_In).
    simpl in E. rewrite <- E in H2.
    rewrite (chart_part_not_image _ H1) in H2. discriminate.
  - intros i Hi. apply in_map_iff in Hi as (e & <- & [_ He]%filter_In).
    simpl mimeType. simpl imageFilename. split.
    + destruct (mimeTypeOf_cases (extensionOf (toLowerCase (entryName e))))
        as [[-> _] | [[-> _] | [[-> _] | [-> _]]]]; simpl; auto.
    + intros [H | H]; destruct (endsWith_suffix _ _ H) as [pre ->].
      * now rewrite (extensionOf_suffix pre "emf").
      * now rewrite (extensionOf_suffix pre "wmf").
Qed.

End ContainerFacts.

(** ** Rounding to a double keeps the order *)

Lemma roundHalfEven_nearest (num : Z) (den : positive) :
  nearest num (Z.pos den) (roundHalfEven num den).
Proof.
  unfold nearest, roundHalfEven.
  pose proof (Z.div_mod num (Z.pos den) ltac:(lia)) as Hdm.
  pose proof (Z.mod_pos_bound num (Z.pos den) ltac:(lia)) as Hr.
  set (q := num / Z.pos den) in *. set (r := num mod Z.pos den) in *.
  destruct (Z.compare_spec (2 * r) (Z.pos den)) as [E | L | G].
  - destruct (Z.even q) eqn:Ev.
    + split; [lia | intros _; exact Ev].
    + split; [lia|]. intros _.
      replace (q + 1) with (Z.succ q) by lia. rewrite Z.even_succ.
      now rewrite <- Z.negb_even, Ev.
  - split; lia.
  - split; lia.
Qed.

Lemma nearest_scale (num den n k : Z) :
  0 < k -> nearest num den n -> nearest (num * k) (den * k) n.
Proof.
  intros Hk [H1 H2]. unfold nearest.
  replace (num * k - n * (den * k)) with ((num - n * den) * k) by ring.
  rewrite Z.abs_mul, (Z.abs_eq k) by lia.
  split; [nia|]. intros H. apply H2. nia.
Qed.

Lemma nearest_monotone (n1 d1 r1 n2 d2 r2 : Z) :
  0 < d1 -> 0 < d2 -> n1 * d2 <= n2 * d1 ->
  nearest n1 d1 r1 -> nearest n2 d2 r2 -> r1 <= r2.
Proof.
  intros Hd1 Hd2 Hle [A1 A2] [B1 B2].
  destruct (Z_le_gt_dec r1 r2) as [H | H]; [exact H | exfalso].
  assert (L1 : (2 * r1 - 1) * d1 <= 2 * n1) by lia.
  assert (L2 : 2 * n2 <= (2 * r2 + 1) * d2) by lia.
  assert (M1 : (2 * r1 - 1) * d1 * d2 <= 2 * n1 * d2)
    by (apply Z.mul_le_mono_nonneg_r; lia).
  assert (M2 : 2 * n2 * d1 <= (2 * r2 + 1) * d2 * d1)
    by (apply Z.mul_le_mono_nonneg_r; lia).
  assert (M3 : (2 * r1 - 1) * (d1 * d2) <= (2 * r2 + 1) * (d1 * d2)) by lia.
  assert (P : 0 < d1 * d2) by lia.
  assert (R : 2 * r1 - 1 <= 2 * r2 + 1)
    by (apply (Z.mul_le_mono_pos_r _ _ (d1 * d2)); assumption).
  assert (Er : r1 = r2 + 1) by lia.
  assert (E1 : (2 * r1 - 1) * d1 = 2 * n1).
  { apply Z.le_antisymm; [exact L1|].
    apply (Z.mul_le_mono_pos_r _ _ d2); [exact Hd2|]. subst r1. lia. }
  assert (E2 : 2 * n2 = (2 * r2 + 1) * d2).
  { apply Z.le_antisymm; [exact L2|].
    apply (Z.mul_le_mono_pos_r _ _ d1); [exact Hd1|]. subst r1. lia. }
  assert (Ev1 : Z.even r1 = true) by (apply A2; lia).
  assert (Ev2 : Z.even r2 = true) by (apply B2; lia).
  subst r1. replace (r2 + 1) with (Z.succ r2) in Ev1 by lia.
  rewrite Z.even_succ, <- Z.negb_even, Ev2 in Ev1. discriminate.
Qed.

Lemma nearest_upper (num den r k : Z) :
  0 < den -> 0 <= k -> num < den * k -> nearest num den r -> r <= k.
Proof.
  intros Hd Hk Hlt [A _].
  destruct (Z_le_gt_dec r k) as [H | H]; [exact H | exfalso].
  assert (den * (k + 1) <= den * r) by (apply Z.mul_le_mono_nonneg_l; lia).
  lia.
Qed.

Lemma nearest_lower (num den r k : Z) :
  0 < den -> den * k <= num -> nearest num den r -> k <= r.
Proof.
  intros Hd Hle [A _].
  destruct (Z_le_gt_dec k r) as [H | H]; [exact H | exfalso].
  assert (den * (r + 1) <= den * k) by (apply Z.mul_le_mono_nonneg_l; lia).
  lia.
Qed.

(** The exponent that [binade] gives bounds the value from above, and
    from below when it is more than 52. *)
Lemma binade_spec (a : Z) (b : positive) :
  0 < a ->
  52 <= binade a b /\
  a < Z.pos b * 2 ^ (binade a b + 1) /\
  (52 < binade a b -> Z.pos b * 2 ^ binade a b <= a).
Proof.
  intros Ha. unfold binade. cbv zeta.
  pose proof (Z.log2_spec a Ha) as [La1 La2].
  pose proof (Z.log2_spec (Z.pos b) ltac:(lia)) as [Lb1 Lb2].
  pose proof (Z.log2_nonneg a) as Na. pose proof (Z.log2_nonneg (Z.pos b)) as Nb.
  set (la := Z.log2 a) in *. set (lb := Z.log2 (Z.pos b)) in *.
  set (d := la - lb).
  replace (Z.succ la) with (la + 1) in La2 by lia.
  replace (Z.succ lb) with (lb + 1) in Lb2 by lia.
  fold d. destruct (Z.leb_spec (Z.pos b * 2 ^ d) a) as [T | T]; cbv iota.
  - split; [lia|]. split.
    + set (E := Z.max d 52).
      assert (Hp : 2 ^ (la + 1) <= 2 ^ (lb + (E + 1)))
        by (apply Z.pow_le_mono_r; unfold E, d; lia).
      rewrite (Z.pow_add_r 2 lb (E + 1)) in Hp by (unfold E; lia).
      assert (2 ^ lb * 2 ^ (E + 1) <= Z.pos b * 2 ^ (E + 1))
        by (apply Z.mul_le_mono_nonneg_r; [apply Z.pow_nonneg|]; lia).
      lia.
    + intros H52. replace (Z.max d 52) with d by lia. exact T.
  - assert (Hd : 0 <= d).
    { destruct (Z_lt_le_dec d 0) as [N | N]; [|exact N].
      rewrite Z.pow_neg_r in T by exact N. lia. }
    split; [lia|]. split.
    + set (E := Z.max (d - 1) 52).
      assert (Hp : 2 ^ d <= 2 ^ (E + 1)) by (apply Z.pow_le_mono_r; unfold E; lia).
      assert (Z.pos b * 2 ^ d <= Z.pos b * 2 ^ (E + 1))
        by (apply Z.mul_le_mono_nonneg_l; lia).
      lia.
    + intros H52. replace (Z.max (d - 1) 52) with (d - 1) by lia.
      assert (Hp : 2 ^ (lb + 1) * 2 ^ (d - 1) = 2 ^ la).
      { rewrite <- Z.pow_add_r by lia. f_equal. unfold d. lia. }
      assert (P : 0 < 2 ^ (d - 1)) by (apply Z.pow_pos_nonneg; lia).
      assert (Z.pos b * 2 ^ (d - 1) < 2 ^ (lb + 1) * 2 ^ (d - 1))
        by (apply Z.mul_lt_mono_pos_r; assumption).
      lia.
Qed.

Lemma roundUnits_spec (a b : positive) :
  exists n : Z,
    roundUnits a b = n * 2 ^ (binade (Z.pos a * 2 ^ 1074) b - 52) /\
    nearest (Z.pos a * 2 ^ 1074)
      (Z.pos b * 2 ^ (binade (Z.pos a * 2 ^ 1074) b - 52)) n.
Proof.
  unfold roundUnits. cbv zeta.
  assert (HU : 0 < Z.pos a * 2 ^ 1074) by (apply Z.mul_pos_pos; lia).
  destruct (binade_spec (Z.pos a * 2 ^ 1074) b HU) as (H52 & _ & _).
  set (u := binade (Z.pos a * 2 ^ 1074) b - 52) in *.
  set (num := Z.pos a * 2 ^ Z.max (1074 - u) 0).
  set (den := Z.pos b * 2 ^ Z.max (u - 1074) 0).
  assert (Hden : 0 < den)
    by (apply Z.mul_pos_pos; [lia | apply Z.pow_pos_nonneg; lia]).
  exists (roundHalfEven num (Z.to_pos den)). split; [reflexivity|].
  pose proof (roundHalfEven_nearest num (Z.to_pos den)) as Hn.
  rewrite Z2Pos.id in Hn by exact Hden.
  set (n := roundHalfEven num (Z.to_pos den)) in *. clearbody n.
  destruct (Z_le_gt_dec u 1074) as [L | G].
  - assert (Hs := nearest_scale num den _ (2 ^ u) ltac:(apply Z.pow_pos_nonneg; lia) Hn).
    unfold num, den in Hs.
    replace (Z.max (1074 - u) 0) with (1074 - u) in Hs by lia.
    replace (Z.max (u - 1074) 0) with 0 in Hs by lia.
    rewrite <- Z.mul_assoc, <- Z.pow_add_r in Hs by lia.
    replace (1074 - u + u) with 1074 in Hs by lia.
    rewrite Z.pow_0_r, Z.mul_1_r in Hs. exact Hs.
  - assert (Hs := nearest_scale num den _ (2 ^ 1074) ltac:(lia) Hn).
    unfold num, den in Hs.
    replace (Z.max (1074 - u) 0) with 0 in Hs by lia.
    replace (Z.max (u - 1074) 0) with (u - 1074) in Hs by lia.
    rewrite Z.pow_0_r, Z.mul_1_r in Hs.
    rewrite <- (Z.mul_assoc (Z.pos b)), <- Z.pow_add_r in Hs by lia.
    replace (u - 1074 + 1074) with u in Hs by lia. exact Hs.
Qed.

Lemma roundUnits_nonneg (a b : positive) : 0 <= roundUnits a b.
Proof.
  destruct (roundUnits_spec a b) as (n & -> & Hn).
  assert (HU : 0 < Z.pos a * 2 ^ 1074) by (apply Z.mul_pos_pos; lia).
  destruct (binade_spec (Z.pos a * 2 ^ 1074) b HU) as (H52 & _ & _).
  set (u := binade (Z.pos a * 2 ^ 1074) b - 52) in *.
  assert (Hp : 0 < 2 ^ u) by (apply Z.pow_pos_nonneg; lia).
  assert (0 <= n).
  { apply (nearest_lower _ _ n 0) in Hn; [exact Hn | | lia].
    apply Z.mul_pos_pos; lia. }
  apply Z.mul_nonneg_nonneg; lia.
Qed.

(** The nearest double grows with the value. *)
Lemma roundUnits_monotone (a1 b1 a2 b2 : positive) :
  Z.pos a1 * Z.pos b2 <= Z.pos a2 * Z.pos b1 ->
  roundUnits a1 b1 <= roundUnits a2 b2.
Proof.
  intros Hle.
  destruct (roundUnits_spec a1 b1) as (n1 & -> & Hn1).
  destruct (roundUnits_spec a2 b2) as (n2 & -> & Hn2).
  set (U1 := Z.pos a1 * 2 ^ 1074) in *. set (U2 := Z.pos a2 * 2 ^ 1074) in *.
  assert (HU1 : 0 < U1) by (apply Z.mul_pos_pos; lia).
  assert (HU2 : 0 < U2) by (apply Z.mul_pos_pos; lia).
  assert (HU : U1 * Z.pos b2 <= U2 * Z.pos b1) by (unfold U1, U2; nia).
  destruct (binade_spec U1 b1 HU1) as (A1 & A2 & A3).
  destruct (binade_spec U2 b2 HU2) as (B1 & B2 & B3).
  set (E1 := binade U1 b1) in *. set (E2 := binade U2 b2) in *.
  assert (P1 : 0 < 2 ^ (E1 - 52)) by (apply Z.pow_pos_nonneg; lia).
  assert (P2 : 0 < 2 ^ (E2 - 52)) by (apply Z.pow_pos_nonneg; lia).
  assert (HE : E1 <= E2).
  { destruct (Z_le_gt_dec E1 E2) as [H | H]; [exact H | exfalso].
    specialize (A3 ltac:(lia)).
    assert (Hp : 2 ^ (E2 + 1) <= 2 ^ E1) by (apply Z.pow_le_mono_r; lia).
    assert (Q1 : Z.pos b1 * 2 ^ E1 * Z.pos b2 <= U1 * Z.pos b2)
      by (apply Z.mul_le_mono_nonneg_r; lia).
    assert (Q2 : U2 * Z.pos b1 < Z.pos b2 * 2 ^ (E2 + 1) * Z.pos b1)
      by (apply Z.mul_lt_mono_pos_r; lia).
    assert (Q3 : Z.pos b2 * 2 ^ (E2 + 1) * Z.pos b1 <= Z.pos b2 * 2 ^ E1 * Z.pos b1)
      by (apply Z.mul_le_mono_nonneg_r; [lia|]; apply Z.mul_le_mono_nonneg_l; lia).
    lia. }
  destruct (Z.eq_dec E1 E2) as [Eq | Ne].
  - rewrite <- Eq in *.
    assert (n1 <= n2).
    { apply (nearest_monotone U1 (Z.pos b1 * 2 ^ (E1 - 52)) n1
               U2 (Z.pos b2 * 2 ^ (E1 - 52)) n2); try assumption.
      - apply Z.mul_pos_pos; lia.
      - apply Z.mul_pos_pos; lia.
      - replace (U1 * (Z.pos b2 * 2 ^ (E1 - 52)))
          with (U1 * Z.pos b2 * 2 ^ (E1 - 52)) by ring.
        replace (U2 * (Z.pos b1 * 2 ^ (E1 - 52)))
          with (U2 * Z.pos b1 * 2 ^ (E1 - 52)) by ring.
        apply Z.mul_le_mono_nonneg_r; lia. }
    apply Z.mul_le_mono_nonneg_r; lia.
  - assert (Hn1' : n1 <= 2 ^ 53).
    { apply (nearest_upper U1 (Z.pos b1 * 2 ^ (E1 - 52)) n1 (2 ^ 53));
        [apply Z.mul_pos_pos; lia | lia | | exact Hn1].
      rewrite <- Z.mul_assoc, <- Z.pow_add_r by lia.
      replace (E1 - 52 + 53) with (E1 + 1) by lia. exact A2. }
    assert (Hn2' : 2 ^ 52 <= n2).
    { apply (nearest_lower U2 (Z.pos b2 * 2 ^ (E2 - 52)) n2 (2 ^ 52));
        [apply Z.mul_pos_pos; lia | | exact Hn2].
      rewrite <- Z.mul_assoc, <- Z.pow_add_r by lia.
      replace (E2 - 52 + 52) with E2 by lia. apply B3. lia. }
    assert (S1 : n1 * 2 ^ (E1 - 52) <= 2 ^ 53 * 2 ^ (E1 - 52))
      by (apply Z.mul_le_mono_nonneg_r; lia).
    assert (S2 : 2 ^ 52 * 2 ^ (E2 - 52) <= n2 * 2 ^ (E2 - 52))
      by (apply Z.mul_le_mono_nonneg_r; lia).
    assert (S3 : 2 ^ 53 * 2 ^ (E1 - 52) <= 2 ^ 52 * 2 ^ (E2 - 52)).
    { rewrite <- !Z.pow_add_r by lia. apply Z.pow_le_mono_r; lia. }
    lia.
Qed.

(** The double of a quotient of positive numbers, by its count of units:
    an infinity from [2 ^ 2098] units on, and else that many units of
    [2 ^ -1074]. *)
Lemma roundPositive_units (neg : bool) (a b : positive) :
  (2 ^ 2098 <= roundUnits a b /\ roundPositive neg a b = Infinity neg) \/
  (roundUnits a b < 2 ^ 2098 /\
   exists q : Q, roundPositive neg a b = Finite q /\
     Qeq q (Qmake (if neg then - roundUnits a b else roundUnits a b) (2 ^ 1074))).
Proof.
  unfold roundPositive, roundUnits. cbv zeta.
  assert (HU : 0 < Z.pos a * 2 ^ 1074) by (apply Z.mul_pos_pos; lia).
  destruct (binade_spec (Z.pos a * 2 ^ 1074) b HU) as (H52 & _ & _).
  set (u := binade (Z.pos a * 2 ^ 1074) b - 52) in *.
  set (n := roundHalfEven _ _). clearbody n.
  destruct (Z.leb_spec (2 ^ 2098) (n * 2 ^ u)) as [L | L]; [left; now split|].
  right. split; [exact L|]. eexists. split; [reflexivity|].
  rewrite Qred_correct. unfold Qeq. cbn [Qnum Qden].
  rewrite Pos2Z.inj_pow.
  assert (Hp : 0 < 2 ^ Z.max (1074 - u) 0) by (apply Z.pow_pos_nonneg; lia).
  rewrite Z2Pos.id by exact Hp.
  assert (Hk : 2 ^ Z.max (u - 1074) 0 * 2 ^ 1074 = 2 ^ u * 2 ^ Z.max (1074 - u) 0).
  { rewrite <- !Z.pow_add_r by lia. f_equal. lia. }
  destruct neg; [rewrite <- Z.mul_opp_l|]; rewrite <- !Z.mul_assoc; f_equal; exact Hk.
Qed.

Lemma jsLe_units (n1 n2 : bool) (v1 v2 : Z) (x y : jsnum) :
  (if n1 then - v1 else v1) <= (if n2 then - v2 else v2) ->
  (n1 = false -> n2 = false) ->
  (2 ^ 2098 <= v1 /\ x = Infinity n1) \/
  (v1 < 2 ^ 2098 /\ exists q, x = Finite q /\ Qeq q (Qmake (if n1 then - v1 else v1) (2 ^ 1074))) ->
  (2 ^ 2098 <= v2 /\ y = Infinity n2) \/
  (v2 < 2 ^ 2098 /\ exists q, y = Finite q /\ Qeq q (Qmake (if n2 then - v2 else v2) (2 ^ 1074))) ->
  jsLe x y = true.
Proof.
  intros Hle Hs [[H1 ->] | [H1 (p & -> & Ep)]] [[H2 ->] | [H2 (q & -> & Eq)]].
  - destruct n1, n2; try reflexivity. now specialize (Hs eq_refl).
  - destruct n1; [reflexivity|]. rewrite (Hs eq_refl) in Hle. lia.
  - destruct n2; [|reflexivity]. destruct n1; [lia | now specialize (Hs eq_refl)].
  - unfold jsLe. apply Qle_bool_iff. rewrite Ep, Eq. unfold Qle. cbn [Qnum Qden].
    apply Z.mul_le_mono_nonneg_r; [easy | exact Hle].
Qed.

Lemma zero_units :
  (2 ^ 2098 <= 0 /\ Finite 0 = Infinity false) \/
  (0 < 2 ^ 2098 /\ exists q, Finite 0 = Finite q /\ Qeq q (Qmake 0 (2 ^ 1074))).
Proof. right. split; [reflexivity|]. exists 0%Q. split; reflexivity. Qed.

(** Rounding to a double keeps the order of the exact values. *)
Lemma roundDouble_monotone (p q : Q) :
  Qle p q -> jsLe (roundDouble p) (roundDouble q) = true.
Proof.
  destruct p as [np dp], q as [nq dq]. unfold Qle, roundDouble. cbn [Qnum Qden].
  intros H.
  destruct np as [|a1|a1], nq as [|a2|a2]; try lia.
  - reflexivity.
  - pose proof (roundUnits_nonneg a2 dq).
    apply (jsLe_units false false 0 (roundUnits a2 dq)); auto using zero_units, roundPositive_units.
  - pose proof (roundUnits_monotone a1 dp a2 dq ltac:(lia)).
    apply (jsLe_units false false (roundUnits a1 dp) (roundUnits a2 dq));
      auto using roundPositive_units.
  - pose proof (roundUnits_nonneg a1 dp).
    apply (jsLe_units true false (roundUnits a1 dp) 0);
      auto using zero_units, roundPositive_units; lia.
  - pose proof (roundUnits_nonneg a1 dp). pose proof (roundUnits_nonneg a2 dq).
    apply (jsLe_units true false (roundUnits a1 dp) (roundUnits a2 dq));
      auto using roundPositive_units; lia.
  - pose proof (roundUnits_monotone a2 dq a1 dp ltac:(lia)).
    apply (jsLe_units true true (roundUnits a1 dp) (roundUnits a2 dq));
      auto using roundPositive_units; lia.
Qed.

(** A function of numbers that keeps the infinities and rounds a growing
    function of the finite values keeps the order. *)
Lemma rounded_monotone (f : jsnum -> jsnum) (g : Q -> Q) :
  (forall x, f (Infinity x) = Infinity x) ->
  (forall p, f (Finite p) = roundDouble (g p)) ->
  (forall p q, Qle p q -> Qle (g p) (g q)) ->
  forall a b, jsLe a b = true -> jsLe (f a) (f b) = true.
Proof.
  intros Hi Hf Hg a b.
  destruct a as [|x|p], b as [|y|q]; try (destruct x; discriminate);
    try discriminate; rewrite ?Hi, ?Hf.
  - now destruct x, y.
  - destruct x; [|discriminate]. intros _.
    pose proof (isNaN_roundDouble (g q)). now destruct (roundDouble (g q)).
  - destruct y; [discriminate|]. intros _.
    pose proof (isNaN_roundDouble (g p)). now destruct (roundDouble (g p)) as [|[]|].
  - unfold jsLe at 1. rewrite Qle_bool_iff. intros H.
    now apply roundDouble_monotone, Hg.
Qed.

Lemma round2_Infinity (x : bool) : round2 (Infinity x) = Infinity x.
Proof. now destruct x. Qed.

Lemma round2_monotone (a b : jsnum) :
  jsLe a b = true -> jsLe (round2 a) (round2 b) = true.
Proof.
  intros H. unfold round2.
  apply (rounded_monotone (fun x => jsDiv x (ofZ 100)) (fun p => p / inject_Z 100)%Q).
  - now intros [].
  - reflexivity.
  - intros p q L. apply Qmult_le_compat_r; [assumption | discriminate].
  - apply (rounded_monotone Math_round (fun p => inject_Z (Qfloor (p + (1 # 2))))).
    + reflexivity.
    + reflexivity.
    + intros p q L. rewrite <- Zle_Qle. apply Qfloor_resp_le.
      apply Qplus_le_compat; [assumption | apply Qle_refl].
    + apply (rounded_monotone (fun x => jsMul x (ofZ 100)) (fun p => p * inject_Z 100)%Q).
      * now intros [].
      * reflexivity.
      * intros p q L. apply Qmult_le_compat_r; [assumption | discriminate].
      * exact H.
Qed.

Lemma round2_not_NaN (a : jsnum) : isNaN a = false -> isNaN (round2 a) = false.
Proof.
  intros H. assert (L : jsLe a a = true).
  { destruct a as [|[]|q]; try easy. apply Qle_bool_iff, Qle_refl. }
  apply round2_monotone in L. now destruct (round2 a).
Qed.

(** Two decimals in the arithmetic of doubles: the product by 100 is
    rounded before [Math.round] sees it. *)
Lemma round2_doubles :
  round2 (parseFloat "1.005") = ofZ 1 /\
  round2 (parseFloat "2.675") = roundDouble (268 # 100) /\
  round2 (parseFloat "0.755") = roundDouble (76 # 100).
Proof. repeat split; vm_compute; reflexivity. Qed.

(** ** Column statistics *)

Lemma jsLe_refl (a : jsnum) : isNaN a = false -> jsLe a a = true.
Proof.
  destruct a as [|[]|q]; simpl; try easy. intros _. apply Qle_bool_iff, Qle_refl.
Qed.

Lemma jsLe_trans (a b c : jsnum) :
  jsLe a b = true -> jsLe b c = true -> jsLe a c = true.
Proof.
  destruct a as [|[]|p], b as [|[]|q], c as [|[]|r]; simpl; try easy.
  rewrite !Qle_bool_iff. apply Qle_trans.
Qed.

Lemma jsLe_total (a b : jsnum) :
  isNaN a = false -> isNaN b = false -> jsLe a b = true \/ jsLe b a = true.
Proof.
  destruct a as [|[]|p], b as [|[]|q]; simpl; try easy; auto.
  intros _ _. rewrite !Qle_bool_iff.
  destruct (Qlt_le_dec p q) as [H | H]; [left; now apply Qlt_le_weak | now right].
Qed.

Lemma min2_le (a b : jsnum) :
  isNaN a = false -> isNaN b = false ->
  isNaN (min2 a b) = false /\ jsLe (min2 a b) a = true /\ jsLe (min2 a b) b = true.
Proof.
  intros Ha Hb.
  assert (E : min2 a b = if jsLe a b then a else b)
    by (destruct a as [|[]|p], b as [|[]|q]; try discriminate; reflexivity).
  rewrite E. destruct (jsLe a b) eqn:L.
  - split; [assumption|]. split; [now apply jsLe_refl | assumption].
  - split; [assumption|]. split; [|now apply jsLe_refl].
    destruct (jsLe_total a b Ha Hb) as [H | H]; [congruence | assumption].
Qed.

Lemma max2_le (a b : jsnum) :
  isNaN a = false -> isNaN b = false ->
  isNaN (max2 a b) = false /\ jsLe a (max2 a b) = true /\ jsLe b (max2 a b) = true.
Proof.
  intros Ha Hb.
  assert (E : max2 a b = if jsLe a b then b else a)
    by (destruct a as [|[]|p], b as [|[]|q]; try discriminate; reflexivity).
  rewrite E. destruct (jsLe a b) eqn:L.
  - split; [assumption|]. split; [assumption | now apply jsLe_refl].
  - split; [assumption|]. split; [now apply jsLe_refl|].
    destruct (jsLe_total a b Ha Hb) as [H | H]; [congruence | assumption].
Qed.

Lemma fold_min2 (l : list jsnum) (a : jsnum) :
  isNaN a = false -> (forall x, In x l -> isNaN x = false) ->
  isNaN (fold_left min2 l a) = false /\
  jsLe (fold_left min2 l a) a = true /\
  forall x, In x l -> jsLe (fold_left min2 l a) x = true.
Proof.
  revert a. induction l as [|y l IH]; intros a Ha Hl; simpl.
  - split; [assumption|]. split; [now apply jsLe_refl | intros x []].
  - destruct (min2_le a y Ha (Hl y (or_introl eq_refl))) as (Hn & H1 & H2).
    destruct (IH (min2 a y) Hn (fun x Hx => Hl x (or_intror Hx))) as (Hm & Hle & Hall).
    split; [assumption|]. split; [eapply jsLe_trans; eassumption|].
    intros x [<- | Hx]; [eapply jsLe_trans; eassumption | now apply Hall].
Qed.

Lemma fold_max2 (l : list jsnum) (a : jsnum) :
  isNaN a = false -> (forall x, In x l -> isNaN x = false) ->
  isNaN (fold_left max2 l a) = false /\
  jsLe a (fold_left max2 l a) = true /\
  forall x, In x l -> jsLe x (fold_left max2 l a) = true.
Proof.
  revert a. induction l as [|y l IH]; intros a Ha Hl; simpl.
  - split; [assumption|]. split; [now apply jsLe_refl | intros x []].
  - destruct (max2_le a y Ha (Hl y (or_introl eq_refl))) as (Hn & H1 & H2).
    destruct (IH (max2 a y) Hn (fun x Hx => Hl x (or_intror Hx))) as (Hm & Hle & Hall).
    split; [assumption|]. split; [eapply jsLe_trans; eassumption|].
    intros x [<- | Hx]; [eapply jsLe_trans; eassumption | now apply Hall].
Qed.

Lemma numericValues_not_NaN (values : list value) (x : jsnum) :
  In x (numericValues values) -> isNaN x = false.
Proof.
  unfold numericValues. rewrite <- list_elem_of_In, list_elem_of_omap.
  intros (v & _ & Hv). eapply extractNumericValue_not_NaN, Hv.
Qed.

Lemma numericValues_nil (values : list value) :
  numericValues values = [] <-> forall v, In v values -> extractNumericValue v = None.
Proof.
  unfold numericValues. induction values as [|v l IH]; csimpl.
  - split; [intros _ x [] | reflexivity].
  - destruct (extractNumericValue v) eqn:E; simpl.
    + split; [discriminate|]. intros H. specialize (H v (or_introl eq_refl)). congruence.
    + rewrite IH. split.
      * intros H x [<- | Hx]; [assumption | now apply H].
      * intros H x Hx. apply H. now right.
Qed.

Lemma fold_min2_mem (l : list jsnum) (a : jsnum) :
  fold_left min2 l a = a \/ In (fold_left min2 l a) l.
Proof.
  revert a. induction l as [|y l IH]; intros a; simpl; [now left|].
  destruct (IH (min2 a y)) as [E | Hin]; [|right; now right].
  rewrite E.
  destruct a as [|[]|p], y as [|[]|q]; simpl; auto; destruct (Qle_bool p q); auto.
Qed.

Lemma fold_max2_mem (l : list jsnum) (a : jsnum) :
  fold_left max2 l a = a \/ In (fold_left max2 l a) l.
Proof.
  revert a. induction l as [|y l IH]; intros a; simpl; [now left|].
  destruct (IH (max2 a y)) as [E | Hin]; [|right; now right].
  rewrite E.
  destruct a as [|[]|p], y as [|[]|q]; simpl; auto; destruct (Qle_bool p q); auto.
Qed.

(** The least and the greatest of a list of numbers without NaN that is
    not empty are members of it and bound every member. *)
Lemma Math_min_max (l : list jsnum) :
  l <> [] -> (forall x, In x l -> isNaN x = false) ->
  In (Math_min l) l /\ In (Math_max l) l /\
  forall x, In x l -> jsLe (Math_min l) x = true /\ jsLe x (Math_max l) = true.
Proof.
  intros Hne Hl. unfold Math_min, Math_max.
  destruct (fold_min2 l (Infinity false) eq_refl Hl) as (_ & _ & Hmin).
  destruct (fold_max2 l (Infinity true) eq_refl Hl) as (_ & _ & Hmax).
  destruct l as [|y l]; [contradiction|].
  split; [|split].
  - destruct (fold_min2_mem (y :: l) (Infinity false)) as [E | Hin]; [|assumption].
    specialize (Hmin y (or_introl eq_refl)). rewrite E in Hmin |- *.
    destruct y as [|[]|q]; try discriminate. now left.
  - destruct (fold_max2_mem (y :: l) (Infinity true)) as [E | Hin]; [|assumption].
    specialize (Hmax y (or_introl eq_refl)). rewrite E in Hmax |- *.
    destruct y as [|[]|q]; try discriminate. now left.
  - intros x Hx. split; [now apply Hmin | now apply Hmax].
Qed.

(** X24: the statistics of a column.  There are none exactly when no
    value of the column has a numeric value.  Otherwise the unique count
    is the number of distinct numeric values, at least one and at most the
    number of rows; the minimum and the maximum are numeric values of the
    column rounded to two decimals in the arithmetic of doubles, the
    minimum is not above the maximum, and every numeric value, rounded
    that way, lies between them. *)
Theorem stats_of_numbers (values : list value) :
  (calculateStats values = None <->
   forall v, In v values -> extractNumericValue v = None) /\
  forall st, calculateStats values = Some st ->
    isDistinctCount (ColumnStats.uniqueCount st) (numericValues values) /\
    (1 <= ColumnStats.uniqueCount st <= length values)%nat /\
    (exists x, In x (numericValues values) /\ ColumnStats.min st = round2 x) /\
    (exists x, In x (numericValues values) /\ ColumnStats.max st = round2 x) /\
    jsLe (ColumnStats.min st) (ColumnStats.max st) = true /\
    forall x, In x (numericValues values) ->
      jsLe (ColumnStats.min st) (round2 x) = true /\
      jsLe (round2 x) (ColumnStats.max st) = true.
Proof.
  split.
  - rewrite <- numericValues_nil. unfold calculateStats.
    destruct (numericValues values); split; congruence.
  - intros st H. unfold calculateStats in H.
    destruct (numericValues values) as [|y l] eqn:E; [discriminate|].
    injection H as <-. cbn [ColumnStats.uniqueCount ColumnStats.min ColumnStats.max].
    assert (Hne : y :: l <> []) by discriminate.
    assert (Hnan : forall x, In x (y :: l) -> isNaN x = false)
      by (intros x Hx; apply (numericValues_not_NaN values); now rewrite E).
    destruct (Math_min_max (y :: l) Hne Hnan) as (Hmin & Hmax & Hb).
    split; [apply newSet_isDistinctCount|]. split; [|split; [|split; [|split]]].
    + split.
      * apply (newSet_nonempty (y :: l) Hne).
      * unfold newSet. etransitivity; [apply fold_setAdd_length|].
        rewrite <- E. simpl. apply numericValues_length.
    + now exists (Math_min (y :: l)).
    + now exists (Math_max (y :: l)).
    + apply round2_monotone. destruct (Hb y (or_introl eq_refl)) as [H1 H2].
      eapply jsLe_trans; eassumption.
    + intros x Hx. destruct (Hb x Hx). split; now apply round2_monotone.
Qed.

Lemma stats_of_numbers_witness :
  isDistinctCount 2 (numericValues (columnValues (drop 1 roundedGrid) 1)) /\
  exists x, In x (numericValues (columnValues (drop 1 roundedGrid) 1))
            /\ ofZ 1 = round2 x.
Proof.
  destruct (stats_of_numbers (columnValues (drop 1 roundedGrid) 1)) as [_ H].
  destruct (H {| ColumnStats.min := ofZ 1;
                 ColumnStats.max := ofZ 3;
                 ColumnStats.avg := roundDouble (117 # 50);
                 ColumnStats.uniqueCount := 2 |}) as (Hu & _ & Hmin & _).
  - vm_compute. reflexivity.
  - split; [exact Hu | exact Hmin].
Defined.

(** ** Statistics and sample rows of a sheet *)

Lemma detect_numeric (values allValues : list value) :
  detectedType (detectColumnType values allValues) = numeric ->
  uniqueCount (detectColumnType values allValues)
  = Some (length (newSet (numericValues allValues))) /\
  exists v, In v values /\ numericLike v = true.
Proof.
  unfold detectColumnType.
  remember (List.filter present values) as nn eqn:Enn.
  destruct nn as [|v0 l0]; [discriminate|].
  set (c := fold_left count (v0 :: l0) _).
  destruct (reaches (booleanCount c) _); [discriminate|].
  destruct (reaches (dateCount c) _); [discriminate|].
  destruct (reaches (textCount c) _); [discriminate|].
  destruct (reaches (numericCount c) _) eqn:Hn; [|discriminate].
  destruct (_ && _); [discriminate|]. intros _. split; [reflexivity|].
  apply reaches_iff in Hn; [|simpl; lia].
  destruct (count_fold (v0 :: l0)
              {| numericCount := 0; dateCount := 0; booleanCount := 0; textCount := 0 |})
    as [Hc _].
  fold c in Hc. rewrite Hc in Hn. cbn [numericCount] in Hn.
  destruct (List.filter numericLike (v0 :: l0)) as [|v l] eqn:Ef;
    [simpl in Hn; lia|].
  assert (Hv : In v (List.filter numericLike (v0 :: l0))) by (rewrite Ef; now left).
  apply filter_In in Hv as [Hv Hnum]. rewrite Enn in Hv.
  apply filter_In in Hv as [Hv _]. now exists v.
Qed.

Section SheetDetailsFacts.
Context {host : Host}.

Lemma numeric_column_stats (headers : list string) (dataRows : Grid) (colIdx : nat) :
  type (columnInfo headers dataRows colIdx) = numeric ->
  exists st, calculateStats (columnValues dataRows colIdx) = Some st /\
             uniqueValues (columnInfo headers dataRows colIdx)
             = Some (ColumnStats.uniqueCount st).
Proof.
  unfold columnInfo. cbn [type uniqueValues]. intros H.
  destruct (detect_numeric _ _ H) as (Hu & v & Hv & Hnum).
  destruct (calculateStats (columnValues dataRows colIdx)) as [st|] eqn:E.
  - exists st. split; [reflexivity|].
    unfold calculateStats in E. fold (columnValues dataRows colIdx) in Hu.
    destruct (numericValues (columnValues dataRows colIdx)); [discriminate|].
    injection E as <-. exact Hu.
  - exfalso. unfold calculateStats in E.
    destruct (numericValues (columnValues dataRows colIdx)) eqn:En; [|discriminate].
    rewrite numericValues_nil in En.
    destruct (numericLike_extract v Hnum) as [n Hn].
    rewrite En in Hn; [discriminate|].
    rewrite map_take in Hv. unfold columnValues. eapply In_take, Hv.
Qed.

Lemma stats_fold (headers : list string) (dataRows : Grid) (cols : list nat)
    (m : gmap string ColumnStats.t) (name : string) (st : ColumnStats.t) :
  fold_left (statsStep headers dataRows) cols m !! name = Some st ->
  m !! name = Some st \/
  exists colIdx, In colIdx cols /\
    header (columnInfo headers dataRows colIdx) = name /\
    type (columnInfo headers dataRows colIdx) = numeric /\
    calculateStats (columnValues dataRows colIdx) = Some st.
Proof.
  revert m. induction cols as [|c cols IH]; intros m H; simpl in H; [now left|].
  apply IH in H as [H | (colIdx & Hin & Hrest)];
    [|right; exists colIdx; split; [now right | exact Hrest]].
  unfold statsStep in H.
  destruct (type (columnInfo headers dataRows c)) eqn:Ety; try (now left).
  fold (columnValues dataRows c) in H.
  destruct (calculateStats (columnValues dataRows c)) as [colStats|] eqn:Ec; [|now left].
  unfold objPut in H. destruct (String.eqb _ "__proto__"); [now left|].
  destruct (decide (header (columnInfo headers dataRows c) = name)) as [E | E].
  - rewrite E, lookup_insert_eq in H. injection H as <-.
    right. exists c. split; [now left|]. now repeat split.
  - rewrite lookup_insert_ne in H by assumption. now left.
Qed.

Lemma statsStep_keeps (headers : list string) (dataRows : Grid)
    (m : gmap string ColumnStats.t) (c : nat) (name : string) :
  is_Some (m !! name) -> is_Some (statsStep headers dataRows m c !! name).
Proof.
  intros H. unfold statsStep.
  destruct (type (columnInfo headers dataRows c)); try assumption.
  destruct (calculateStats _); [|assumption].
  unfold objPut. destruct (String.eqb _ "__proto__"); [assumption|].
  rewrite lookup_insert_is_Some. destruct (decide (header (columnInfo headers dataRows c) = name)); auto.
Qed.

Lemma stats_fold_keeps (headers : list string) (dataRows : Grid) (cols : list nat)
    (m : gmap string ColumnStats.t) (name : string) :
  is_Some (m !! name) ->
  is_Some (fold_left (statsStep headers dataRows) cols m !! name).
Proof.
  revert m. induction cols as [|c cols IH]; intros m H; [exact H|].
  simpl. now apply IH, statsStep_keeps.
Qed.

Lemma stats_fold_written (headers : list string) (dataRows : Grid) (cols : list nat)
    (m : gmap string ColumnStats.t) (colIdx : nat) :
  In colIdx cols ->
  type (columnInfo headers dataRows colIdx) = numeric ->
  header (columnInfo headers dataRows colIdx) <> "__proto__" ->
  is_Some (fold_left (statsStep headers dataRows) cols m
           !! header (columnInfo headers dataRows colIdx)).
Proof.
  intros Hin Hty Hp. revert m. induction cols as [|c cols IH]; intros m; [destruct Hin|].
  simpl. destruct Hin as [-> | Hin]; [|now apply IH].
  apply stats_fold_keeps. unfold statsStep. rewrite Hty.
  destruct (numeric_column_stats headers dataRows colIdx Hty) as (st & Hst & _).
  fold (columnValues dataRows colIdx). rewrite Hst. unfold objPut.
  apply String.eqb_neq in Hp. rewrite Hp. rewrite lookup_insert_eq. eauto.
Qed.

(** X25: the statistics of a sheet are those of its numeric columns.
    Every entry stands under the header of a data column of type numeric,
    holds the statistics of all values of that column, and its unique count
    is the one of the column description; every numeric data column whose
    header is not [__proto__] has an entry under its header, so a
    categorical, text, date or boolean column brings none; the field is left
    out exactly when there is no entry. *)
Theorem stats_for_numeric_columns (data : Grid) :
  let headers := headersOf (default [] (head data)) in
  let dataRows := drop 1 data in
  (forall name st, statsOf data !! name = Some st ->
     exists colIdx, columnHasData data colIdx /\
       header (columnInfo headers dataRows colIdx) = name /\
       type (columnInfo headers dataRows colIdx) = numeric /\
       uniqueValues (columnInfo headers dataRows colIdx)
       = Some (ColumnStats.uniqueCount st) /\
       calculateStats (columnValues dataRows colIdx) = Some st) /\
  (forall colIdx, columnHasData data colIdx ->
     type (columnInfo headers dataRows colIdx) = numeric ->
     header (columnInfo headers dataRows colIdx) <> "__proto__" ->
     is_Some (statsOf data !! header (columnInfo headers dataRows colIdx))) /\
  (statsField data = None <-> statsOf data = ∅).
Proof.
  intros headers dataRows. split; [|split].
  - intros name st H. unfold statsOf in H.
    apply stats_fold in H as [H | (colIdx & Hin & Hh & Hty & Hc)];
      [rewrite lookup_empty in H; discriminate|].
    exists colIdx. split; [now apply nonEmptyColumnIndices_In|].
    split; [assumption|]. split; [assumption|]. split; [|assumption].
    destruct (numeric_column_stats _ _ _ Hty) as (st' & Hst & Hu).
    rewrite Hst in Hc. injection Hc as <-. exact Hu.
  - intros colIdx Hd Hty Hp. unfold statsOf.
    apply stats_fold_written; [now apply nonEmptyColumnIndices_In | assumption | assumption].
  - unfold statsField.
    destruct (Nat.ltb_spec 0 (size (statsOf data))) as [Hs | Hs].
    + split; [discriminate|]. intros E. rewrite E, map_size_empty in Hs. lia.
    + split; [intros _|reflexivity]. apply map_size_empty_iff. lia.
Qed.

End SheetDetailsFacts.

Lemma stats_for_numeric_columns_witness :
  (exists colIdx : nat,
     header (columnInfo (headersOf (host := exampleHost) (default [] (head roundedGrid)))
               (drop 1 roundedGrid) colIdx) = "weight" /\
     calculateStats (columnValues (drop 1 roundedGrid) colIdx)
     = Some {| ColumnStats.min := ofZ 1; ColumnStats.max := ofZ 3;
               ColumnStats.avg := roundDouble (117 # 50);
               ColumnStats.uniqueCount := 2 |}) /\
  statsOf (host := exampleHost) roundedGrid !! "code" = None.
Proof.
  split; [|reflexivity].
  destruct (stats_for_numeric_columns (host := exampleHost) roundedGrid) as (H & _ & _).
  destruct (H "weight" {| ColumnStats.min := ofZ 1; ColumnStats.max := ofZ 3;
                          ColumnStats.avg := roundDouble (117 # 50);
                          ColumnStats.uniqueCount := 2 |} eq_refl)
    as (colIdx & _ & Hh & _ & _ & Hc).
  exists colIdx. split; [exact Hh | exact Hc].
Defined.

Lemma lookup_map_Some {A B : Type} (f : A -> B) (l : list A) (i : nat) (y : B) :
  map f l !! i = Some y -> exists x, l !! i = Some x /\ y = f x.
Proof.
  revert i. induction l as [|a l IH]; intros [|i]; simpl; try discriminate.
  - intros [= <-]. now exists a.
  - apply IH.
Qed.

Lemma parseValue_shape (v : value) :
  parseValue v <> Undefined /\ parseValue v <> Str "".
Proof.
  destruct v as [| |m|s|b|t]; try (split; discriminate).
  - change (parseValue (Num m))
      with (match extractNumericValue (Num m) with Some n => Num n | None => Num m end).
    destruct (extractNumericValue (Num m)); split; discriminate.
  - destruct s as [|c s]; [split; discriminate|].
    change (parseValue (Str (String c s)))
      with (match extractNumericValue (Str (String c s)) with
            | Some n => Num n | None => Str (String c s) end).
    destruct (extractNumericValue (Str (String c s))); split; discriminate.
Qed.

Lemma filter_seq_split (P : nat -> bool) (a n : nat) (l1 l2 : list nat) (c : nat) :
  List.filter P (seq a n) = l1 ++ c :: l2 ->
  forall x, In x l2 -> (c < x)%nat.
Proof.
  revert a l1. induction n as [|n IH]; intros a l1 H x Hx; simpl in H.
  - now destruct l1.
  - destruct (P a).
    + destruct l1 as [|y l1]; simpl in H.
      * injection H as <- <-. apply filter_In in Hx as [Hx _].
        apply in_seq in Hx. lia.
      * injection H as _ H. now apply (IH (S a) l1).
    + now apply (IH (S a) l1).
Qed.

Section SampleFacts.
Context {host : Host}.

Lemma rowPut_lookup (key name : string) (w v : value) (obj : RowObject) :
  props (rowPut key w obj) !! name = Some v ->
  props obj !! name = Some v \/ (key = name /\ v = w).
Proof.
  unfold rowPut. destruct (String.eqb key "__proto__" && inherits obj).
  - destruct w; auto.
  - cbn [props]. destruct (decide (key = name)) as [E | E].
    + rewrite E, lookup_insert_eq. intros [= <-]. now right.
    + rewrite lookup_insert_ne by assumption. now left.
Qed.

Lemma rowPut_keeps (key name : string) (w : value) (obj : RowObject) :
  is_Some (props obj !! name) -> is_Some (props (rowPut key w obj) !! name).
Proof.
  unfold rowPut. destruct (String.eqb key "__proto__" && inherits obj).
  - now destruct w.
  - cbn [props]. rewrite lookup_insert_is_Some.
    destruct (decide (key = name)); auto.
Qed.

Lemma sample_fold (headers : list string) (cols : list nat) (row : list value)
    (obj : RowObject) (name : string) (v : value) :
  props (fold_left (sampleStep headers row) cols obj) !! name = Some v ->
  props obj !! name = Some v \/
  exists colIdx, In colIdx cols /\ default "" (headers !! colIdx) = name /\
                 v = parseValue (cellOf row colIdx).
Proof.
  revert obj. induction cols as [|c cols IH]; intros obj H; simpl in H; [now left|].
  apply IH in H as [H | (colIdx & Hin & Hrest)];
    [|right; exists colIdx; split; [now right | exact Hrest]].
  unfold sampleStep in H. apply rowPut_lookup in H as [H | [E ->]]; [now left|].
  right. exists c. split; [now left|]. now split.
Qed.

Lemma sample_fold_keeps (headers : list string) (cols : list nat) (row : list value)
    (obj : RowObject) (name : string) :
  is_Some (props obj !! name) ->
  is_Some (props (fold_left (sampleStep headers row) cols obj) !! name).
Proof.
  revert obj. induction cols as [|c cols IH]; intros obj H; [exact H|].
  simpl. apply IH. now apply rowPut_keeps.
Qed.

Lemma sample_fold_written (headers : list string) (cols : list nat) (row : list value)
    (obj : RowObject) (colIdx : nat) :
  In colIdx cols -> default "" (headers !! colIdx) <> "__proto__" ->
  is_Some (props (fold_left (sampleStep headers row) cols obj)
           !! default "" (headers !! colIdx)).
Proof.
  intros Hin Hp. revert obj. induction cols as [|c cols IH]; intros obj; [destruct Hin|].
  simpl. destruct Hin as [-> | Hin]; [|now apply IH].
  apply sample_fold_keeps. unfold sampleStep, rowPut.
  apply String.eqb_neq in Hp. rewrite Hp. cbn [andb props].
  rewrite lookup_insert_eq. eauto.
Qed.

(** A property under the key [__proto__] is stored only after an earlier
    column under that key has brought null. *)
Lemma sample_fold_proto (headers : list string) (cols : list nat) (row : list value)
    (obj : RowObject) (v : value) :
  inherits obj = true -> props obj !! "__proto__" = None ->
  props (fold_left (sampleStep headers row) cols obj) !! "__proto__" = Some v ->
  exists l1 c' l2 c,
    cols = l1 ++ c' :: l2 /\ In c l2 /\
    default "" (headers !! c') = "__proto__" /\ parseValue (cellOf row c') = Null /\
    default "" (headers !! c) = "__proto__" /\ v = parseValue (cellOf row c).
Proof.
  revert obj. induction cols as [|c0 cols IH]; intros obj Hi Hn H; simpl in H.
  - congruence.
  - assert (Hcons : forall l1 c' l2 c,
               cols = l1 ++ c' :: l2 /\ In c l2 /\
               default "" (headers !! c') = "__proto__" /\
               parseValue (cellOf row c') = Null /\
               default "" (headers !! c) = "__proto__" /\
               v = parseValue (cellOf row c) ->
               exists l1 c' l2 c,
                 c0 :: cols = l1 ++ c' :: l2 /\ In c l2 /\
                 default "" (headers !! c') = "__proto__" /\
                 parseValue (cellOf row c') = Null /\
                 default "" (headers !! c) = "__proto__" /\
                 v = parseValue (cellOf row c)).
    { intros l1 c' l2 c (-> & Hrest). exists (c0 :: l1), c', l2, c. now split. }
    unfold sampleStep at 2 in H. unfold rowPut in H. rewrite Hi, andb_true_r in H.
    destruct (String.eqb (default "" (headers !! c0)) "__proto__") eqn:Ek.
    + apply String.eqb_eq in Ek.
      destruct (parseValue (cellOf row c0)) eqn:Ev;
        try (destruct (IH obj Hi Hn H) as (l1 & c' & l2 & c & Hx);
             now apply (Hcons l1 c' l2 c)).
      apply sample_fold in H as [H | (c & Hin & Hh & ->)]; [cbn [props] in H; congruence|].
      exists [], c0, cols, c. repeat split; assumption.
    + apply String.eqb_neq in Ek.
      assert (Hn' : <[default "" (headers !! c0) := parseValue (cellOf row c0)]> (props obj)
                    !! "__proto__" = None) by now rewrite lookup_insert_ne.
      destruct (IH {| props := _; inherits := true |} eq_refl Hn' H)
        as (l1 & c' & l2 & c & Hx).
      now apply (Hcons l1 c' l2 c).
Qed.

(** X26: the sample of a sheet has one object for each of the first three
    data rows, fewer when the sheet has fewer.  In the object of a row,
    every entry stands under the header of a data column and holds the
    parsed cell of the row in that column, which is never undefined and
    never the empty string; every data column whose header is not
    [__proto__] has an entry; and an entry under [__proto__] holds the
    parsed cell of a data column with that header that comes after another
    such column whose parsed cell in the row is null. *)
Theorem sample_rows (data : Grid) :
  let headers := headersOf (default [] (head data)) in
  length (sampleOf data) = Nat.min 3 (length data - 1) /\
  forall i rowObj, sampleOf data !! i = Some rowObj ->
    exists row, data !! S i = Some row /\ (i < 3)%nat /\
    (forall name v, rowObj !! name = Some v ->
       v <> Undefined /\ v <> Str "" /\
       exists colIdx, columnHasData data colIdx /\ headers !! colIdx = Some name /\
                      v = parseValue (cellOf row colIdx)) /\
    (forall colIdx name, columnHasData data colIdx -> headers !! colIdx = Some name ->
       name <> "__proto__" -> is_Some (rowObj !! name)) /\
    (forall v, rowObj !! "__proto__" = Some v ->
       exists before colIdx, (before < colIdx)%nat /\
         columnHasData data before /\ headers !! before = Some "__proto__" /\
         parseValue (cellOf row before) = Null /\
         columnHasData data colIdx /\ headers !! colIdx = Some "__proto__" /\
         v = parseValue (cellOf row colIdx)).
Proof.
  intros headers. unfold sampleOf. fold headers.
  assert (Hhead : forall colIdx name, columnHasData data colIdx ->
            default "" (headers !! colIdx) = name -> headers !! colIdx = Some name).
  { intros colIdx name [Hlt _] Hh.
    destruct (lookup_lt_is_Some_2 headers colIdx) as [h Hh'];
      [unfold headers; rewrite length_headersOf; exact Hlt|].
    rewrite Hh' in Hh |- *. simpl in Hh. now subst. }
  split.
  - rewrite length_map, length_take, length_drop. unfold SAMPLE_ROW_COUNT. lia.
  - intros i rowObj H. apply lookup_map_Some in H as (row & Hrow & ->).
    apply lookup_take_Some in Hrow as [Hrow Hi]. rewrite lookup_drop in Hrow.
    exists row. split; [exact Hrow|]. split; [unfold SAMPLE_ROW_COUNT in Hi; lia|].
    split; [|split].
    + intros name v Hv. unfold sampleRow in Hv.
      apply sample_fold in Hv as [Hv | (colIdx & Hin & Hh & ->)];
        [cbn [props] in Hv; rewrite lookup_empty in Hv; discriminate|].
      destruct (parseValue_shape (cellOf row colIdx)) as [H1 H2].
      split; [exact H1|]. split; [exact H2|].
      exists colIdx. apply nonEmptyColumnIndices_In in Hin.
      split; [exact Hin|]. split; [now apply Hhead | reflexivity].
    + intros colIdx name Hd Hh Hp. unfold sampleRow.
      assert (E : name = default "" (headers !! colIdx)) by now rewrite Hh.
      rewrite E. apply sample_fold_written; [now apply nonEmptyColumnIndices_In|].
      now rewrite <- E.
    + intros v Hv. unfold sampleRow in Hv.
      apply sample_fold_proto in Hv as (l1 & c' & l2 & c & Hs & Hin & Hh' & Hn & Hh & ->);
        [|reflexivity | apply lookup_empty].
      assert (Hlt : (c' < c)%nat).
      { unfold nonEmptyColumnIndices in Hs. now apply (filter_seq_split _ _ _ _ _ _ Hs). }
      assert (Hc' : columnHasData data c').
      { apply nonEmptyColumnIndices_In. fold headers. rewrite Hs.
        apply in_or_app. right. now left. }
      assert (Hc : columnHasData data c).
      { apply nonEmptyColumnIndices_In. fold headers. rewrite Hs.
        apply in_or_app. right. now right. }
      exists c', c. repeat split; try assumption; try (now apply Hhead); apply Hc' || apply Hc.
Qed.

End SampleFacts.

Lemma sample_rows_witness :
  exists before colIdx : nat,
    (before < colIdx)%nat /\
    headersOf (host := exampleHost) (default [] (head protoGrid)) !! colIdx = Some "__proto__" /\
    parseValue (cellOf [Null; Num (ofZ 5); Str "a"] before) = Null /\
    Num (ofZ 5) = parseValue (cellOf [Null; Num (ofZ 5); Str "a"] colIdx).
Proof.
  destruct (sample_rows (host := exampleHost) protoGrid) as [_ H].
  destruct (H 0%nat {[ "__proto__" := Num (ofZ 5); "x" := Str "a" ]} eq_refl)
    as (row & Hrow & _ & _ & _ & Hp).
  injection Hrow as <-.
  destruct (Hp (Num (ofZ 5)) eq_refl) as (b & c & Hlt & _ & _ & Hn & _ & Hh & Hv).
  exists b, c. repeat split; assumption.
Defined.

(** ** Chart metadata *)

Lemma elementRest_Some (open close s body rest : string) :
  elementRest open close s = Some (body, rest) ->
  body <> "" /\ allString notLt body = true /\
  (String.length rest < String.length s)%nat.
Proof.
  unfold elementRest. destruct (stripPrefix open s) as [r|] eqn:Ep; [|discriminate].
  destruct (span_app (fun c => negb (Ascii.eqb c "<")) r) as [Hall Happ].
  destruct (span _ r) as [b r'] eqn:Es. simpl in Hall, Happ.
  destruct b as [|c b]; [discriminate|]. cbn [isEmpty].
  destruct (stripPrefix close r') as [rest'|] eqn:Ec; [|discriminate].
  intros [= <- <-]. split; [discriminate|]. split; [exact Hall|].
  apply stripPrefix_Some in Ep, Ec. subst s r r'.
  rewrite !length_append. simpl. lia.
Qed.

Lemma searchFirst_shrinks (m : string -> option (string * string)) (s : string)
    (a : string * string) :
  (forall t x, m t = Some x -> (String.length x.2 < String.length t)%nat) ->
  searchFirst m s = Some a -> (String.length a.2 < String.length s)%nat.
Proof.
  intros Hm. induction s as [|c s IH]; simpl.
  - destruct (m "") eqn:E; [|discriminate]. intros [= <-]. apply (Hm _ _ E).
  - destruct (m (String c s)) eqn:E.
    + intros [= <-]. now apply (Hm _ _ E).
    + intros H. apply IH in H. lia.
Qed.

Lemma nextFormula_Some (s g rest : string) :
  nextFormula s = Some (g, rest) ->
  g <> "" /\ allString notLt g = true /\ (String.length rest < String.length s)%nat.
Proof.
  intros H. split; [|split].
  - revert H. apply (searchFirst_Some _ (fun x => x.1 <> "")).
    intros t [b r] Hx. now apply elementRest_Some in Hx.
  - revert H. apply (searchFirst_Some _ (fun x => allString notLt x.1 = true)).
    intros t [b r] Hx. now apply elementRest_Some in Hx.
  - apply (searchFirst_shrinks _ _ (g, rest)) in H; [exact H|].
    intros t [b r] Hx. now apply elementRest_Some in Hx.
Qed.

Lemma nextSeriesName_Some (s g rest : string) :
  nextSeriesName s = Some (g, rest) ->
  g <> "" /\ allString notLt g = true /\ (String.length rest < String.length s)%nat.
Proof.
  unfold nextSeriesName, afterFirst.
  destruct (findLit "<c:tx>" s) as [[b r]|] eqn:Ef; [|discriminate].
  intros H. apply findLit_length in Ef.
  fold nextFormula in H.
  assert (H' : searchFirst (elementRest "<c:v>" "</c:v>") r = Some (g, rest)) by exact H.
  clear H. split; [|split].
  - revert H'. apply (searchFirst_Some _ (fun x => x.1 <> "")).
    intros t [b' r'] Hx. now apply elementRest_Some in Hx.
  - revert H'. apply (searchFirst_Some _ (fun x => allString notLt x.1 = true)).
    intros t [b' r'] Hx. now apply elementRest_Some in Hx.
  - apply (searchFirst_shrinks _ _ (g, rest)) in H'.
    + simpl in H'. lia.
    + intros t [b' r'] Hx. now apply elementRest_Some in Hx.
Qed.

Section MatchAll.
Variable next : string -> option (string * string).
Hypothesis next_Some : forall s g rest, next s = Some (g, rest) ->
  g <> "" /\ allString notLt g = true /\ (String.length rest < String.length s)%nat.

(** The turns of the loop never run out: beyond the length of the text
    more turns change nothing. *)
Lemma matchAll_fuel (fuel : nat) (s : string) :
  (String.length s <= fuel)%nat ->
  matchAll fuel next s = matchAll (String.length s) next s.
Proof.
  remember (String.length s) as n eqn:En. revert s En fuel.
  induction n as [n IH] using lt_wf_ind. intros s En fuel Hf.
  destruct fuel as [|fuel].
  - assert (n = 0%nat) by lia. subst n. now rewrite H.
  - simpl. destruct (next s) as [[g rest]|] eqn:E.
    + destruct (next_Some _ _ _ E) as (_ & _ & Hlt).
      destruct n as [|n]; [lia|]. simpl. rewrite E. f_equal.
      rewrite (IH (String.length rest)) by lia.
      symmetry. apply (IH (String.length rest)); lia.
    + destruct n as [|n]; [reflexivity|]. simpl. now rewrite E.
Qed.

Lemma matchAll_groups (fuel : nat) (s g : string) :
  In g (matchAll fuel next s) -> g <> "" /\ allString notLt g = true.
Proof.
  revert s. induction fuel as [|fuel IH]; intros s; simpl; [intros []|].
  destruct (next s) as [[g' rest]|] eqn:E; [|intros []].
  intros [<- | Hin]; [|now apply (IH rest)].
  now destruct (next_Some _ _ _ E) as (H1 & H2 & _).
Qed.

Lemma matchAll_nil (s : string) :
  matchAll (String.length s) next s = [] <-> next s = None.
Proof.
  rewrite <- (matchAll_fuel (S (String.length s))) by lia. simpl.
  destruct (next s) as [[g rest]|]; split; congruence.
Qed.

End MatchAll.

Lemma existsb_eqb_In (x : string) (l : list string) :
  existsb (String.eqb x) l = true <-> In x l.
Proof.
  rewrite existsb_exists. split.
  - intros (y & Hy & E). apply String.eqb_eq in E. now subst.
  - intros H. exists x. split; [assumption | apply String.eqb_refl].
Qed.

Lemma pushDistinct_fold (limit : nat) (l seen : list string) :
  List.NoDup seen ->
  let r := fold_left (pushDistinct limit) l seen in
  List.NoDup r /\
  (length r <= Nat.max (length seen) limit)%nat /\
  (forall x, In x r -> In x seen \/ In x l) /\
  (forall x, In x seen -> In x r).
Proof.
  revert seen. induction l as [|y l IH]; intros seen Hnd; simpl.
  - repeat split; [assumption | lia | now left | auto].
  - assert (Hstep : List.NoDup (pushDistinct limit seen y)
                    /\ (length (pushDistinct limit seen y) <= Nat.max (length seen) limit)%nat
                    /\ (forall x, In x (pushDistinct limit seen y) -> In x seen \/ x = y)
                    /\ (forall x, In x seen -> In x (pushDistinct limit seen y))).
    { unfold pushDistinct.
      destruct (negb (isEmpty y)); simpl; [|repeat split; [assumption | lia | now left | auto]].
      destruct (existsb (String.eqb y) seen) eqn:Ex; simpl;
        [repeat split; [assumption | lia | now left | auto]|].
      destruct (Nat.ltb_spec (length seen) limit) as [Hlt | Hge];
        [|repeat split; [assumption | lia | now left | auto]].
      repeat split.
      - apply List.NoDup_app; [assumption | |].
        + apply List.NoDup_cons; [intros [] | apply List.NoDup_nil].
        + intros x Hx [<- | []].
          apply existsb_eqb_In in Hx. congruence.
      - rewrite length_app. simpl. lia.
      - intros x [Hx | [<- | []]]%in_app_iff; auto.
      - intros x Hx. apply in_app_iff. now left. }
    destruct Hstep as (S1 & S2 & S3 & S4).
    destruct (IH _ S1) as (I1 & I2 & I3 & I4).
    repeat split; [assumption | lia | |].
    + intros x Hx. destruct (I3 x Hx) as [H | H]; [|right; now right].
      destruct (S3 x H) as [H' | ->]; [now left | right; now left].
    + intros x Hx. apply I4, S4, Hx.
Qed.

Lemma pushDistinct_first (limit : nat) (x : string) (l : list string) :
  x <> "" -> (0 < limit)%nat -> fold_left (pushDistinct limit) (x :: l) [] <> [].
Proof.
  intros Hx Hl E. simpl in E.
  assert (Hp : pushDistinct limit [] x = [x]).
  { unfold pushDistinct. destruct x; [contradiction|]. simpl.
    destruct (Nat.ltb_spec 0 limit); [reflexivity | lia]. }
  rewrite Hp in E.
  destruct (pushDistinct_fold limit l [x]) as (_ & _ & _ & H);
    [apply List.NoDup_cons; [intros [] | apply List.NoDup_nil]|].
  specialize (H x (or_introl eq_refl)). rewrite E in H. destruct H.
Qed.

(** X27: the references and the series names of the chart metadata.  The
    references are distinct and at most five, the names distinct and at
    most ten; each is a captured text of the definition, not empty and
    without a [<]; the data range is absent exactly when the definition has
    no formula element, the series exactly when it has no series name; and
    the loops over the matches end within the length of the text. *)
Theorem chart_info_collected (filename xml : string) :
  let info := parseChartXmlToInfo filename xml in
  List.NoDup (dataRefs xml) /\ (length (dataRefs xml) <= 5)%nat /\
  List.NoDup (seriesNames xml) /\ (length (seriesNames xml) <= 10)%nat /\
  (forall r, In r (dataRefs xml) \/ In r (seriesNames xml) ->
     r <> "" /\ allString notLt r = true) /\
  (ChartInfo.dataRange info = None <-> nextFormula xml = None) /\
  (ChartInfo.series info = None <-> nextSeriesName xml = None) /\
  (forall fuel, (String.length xml <= fuel)%nat ->
     matchAll fuel nextFormula xml = matchAll (String.length xml) nextFormula xml /\
     matchAll fuel nextSeriesName xml = matchAll (String.length xml) nextSeriesName xml).
Proof.
  intros info.
  destruct (pushDistinct_fold 5 (matchAll (String.length xml) nextFormula xml) []
              (List.NoDup_nil _)) as (R1 & R2 & R3 & _).
  destruct (pushDistinct_fold 10 (matchAll (String.length xml) nextSeriesName xml) []
              (List.NoDup_nil _)) as (N1 & N2 & N3 & _).
  fold (dataRefs xml) in R1, R2, R3. fold (seriesNames xml) in N1, N2, N3.
  split; [exact R1|]. split; [simpl in R2; lia|].
  split; [exact N1|]. split; [simpl in N2; lia|].
  split; [|split; [|split]].
  - intros r [Hr | Hr].
    + destruct (R3 r Hr) as [[] | Hin].
      apply (matchAll_groups nextFormula nextFormula_Some _ _ _ Hin).
    + destruct (N3 r Hr) as [[] | Hin].
      apply (matchAll_groups nextSeriesName nextSeriesName_Some _ _ _ Hin).
  - unfold info, parseChartXmlToInfo. cbn [ChartInfo.dataRange].
    rewrite <- (matchAll_nil nextFormula nextFormula_Some).
    unfold dataRefs.
    destruct (matchAll (String.length xml) nextFormula xml) as [|g l] eqn:E.
    + simpl. tauto.
    + assert (Hg : g <> "").
      { apply (matchAll_groups nextFormula nextFormula_Some (String.length xml) xml g).
        rewrite E. now left. }
      pose proof (pushDistinct_first 5 g l Hg ltac:(lia)) as Hne.
      destruct (fold_left (pushDistinct 5) (g :: l) []); [contradiction|].
      split; discriminate.
  - unfold info, parseChartXmlToInfo. cbn [ChartInfo.series].
    rewrite <- (matchAll_nil nextSeriesName nextSeriesName_Some).
    unfold seriesNames.
    destruct (matchAll (String.length xml) nextSeriesName xml) as [|g l] eqn:E.
    + simpl. tauto.
    + assert (Hg : g <> "").
      { apply (matchAll_groups nextSeriesName nextSeriesName_Some (String.length xml) xml g).
        rewrite E. now left. }
      pose proof (pushDistinct_first 10 g l Hg ltac:(lia)) as Hne.
      destruct (fold_left (pushDistinct 10) (g :: l) []); [contradiction|].
      split; discriminate.
  - intros fuel Hf. split.
    + apply (matchAll_fuel nextFormula nextFormula_Some _ _ Hf).
    + apply (matchAll_fuel nextSeriesName nextSeriesName_Some _ _ Hf).
Qed.

Lemma addPart_prefix (prefix : string) (field : option string) (suffix text : string) :
  exists rest, addPart prefix field suffix text = text +:+ rest.
Proof.
  unfold addPart. destruct field as [f|]; [|exists ""; now rewrite append_empty_r].
  destruct (isEmpty f); [exists ""; now rewrite append_empty_r|].
  now exists (prefix +:+ f +:+ suffix).
Qed.

Lemma analysisText_prefix (ty : string) (title : option string)
    (series : option (list string)) (xAxis yAxis dataRange : option string) :
  In ty CHART_TYPE_NAMES ->
  exists rest,
    analysisText ty title series xAxis yAxis dataRange
    = toUpperCase ty +:+ " chart" +:+ rest.
Proof.
  intros Hty. unfold analysisText.
  assert (Hu : isEmpty (toUpperCase ty) = false).
  { simpl in Hty.
    repeat (destruct Hty as [<- | Hty]; [reflexivity|]). destruct Hty. }
  rewrite Hu.
  destruct (addPart_prefix (" titled " +:+ String dquote "") title (String dquote "")
              (toUpperCase ty +:+ " chart")) as [r1 ->].
  set (a1 := (toUpperCase ty +:+ " chart") +:+ r1).
  assert (H2 : exists r2,
             match series with
             | Some (n :: l) => a1 +:+ ". Series: " +:+ join ", " (n :: l)
             | _ => a1
             end = a1 +:+ r2).
  { destruct series as [[|n l]|]; try (exists ""; now rewrite append_empty_r).
    now exists (". Series: " +:+ join ", " (n :: l)). }
  destruct H2 as [r2 ->].
  destruct (addPart_prefix ". X-axis: " xAxis "" (a1 +:+ r2)) as [r3 ->].
  destruct (addPart_prefix ". Y-axis: " yAxis "" ((a1 +:+ r2) +:+ r3)) as [r4 ->].
  destruct (addPart_prefix ". Data from: " dataRange "" (((a1 +:+ r2) +:+ r3) +:+ r4))
    as [r5 ->].
  exists (r1 +:+ r2 +:+ r3 +:+ r4 +:+ r5). unfold a1.
  now rewrite !append_assoc.
Qed.

Lemma chartTypeOf_names (xml : string) : In (chartTypeOf xml) CHART_TYPE_NAMES.
Proof.
  unfold chartTypeOf, CHART_TYPE_NAMES.
  repeat match goal with
         | |- context [if includes ?t xml then _ else _] => destruct (includes t xml)
         end; simpl; auto 15.
Qed.

Lemma chartType_parseChartXml (xml : string) :
  chartType (parseChartXml xml) = (detectKind xml).1.
Proof. unfold parseChartXml. now destruct (detectKind xml). Qed.

Lemma kind_of_described (xml : string) :
  includes "<c:area3DChart" xml = false ->
  (detectKind xml).1 = kindOfName (chartTypeOf xml).
Proof.
  intros H3. unfold detectKind, chartTypeOf. rewrite H3.
  destruct (includes "<c:barChart" xml); [reflexivity|].
  destruct (includes "<c:bar3DChart" xml); [reflexivity|].
  destruct (includes "<c:lineChart" xml); [reflexivity|].
  destruct (includes "<c:line3DChart" xml); [reflexivity|].
  destruct (includes "<c:pieChart" xml); [reflexivity|].
  destruct (includes "<c:pie3DChart" xml); [reflexivity|].
  destruct (includes "<c:doughnutChart" xml); [reflexivity|].
  destruct (includes "<c:scatterChart" xml); [reflexivity|].
  destruct (includes "<c:areaChart" xml); [reflexivity|].
  destruct (includes "<c:radarChart" xml); [reflexivity|].
  destruct (includes "<c:bubbleChart" xml); reflexivity.
Qed.

Lemma lineCut_none (s : string) :
  allString (fun c => negb (Ascii.eqb c "/")) s = true -> lineCut s = None.
Proof.
  induction s as [|c s IH]; [reflexivity|]. simpl.
  intros [Hc Hs]%andb_true_iff. rewrite (IH Hs).
  apply negb_true_iff in Hc. rewrite Hc. now destruct (isLineTerminator c).
Qed.

Lemma lineCut_dir (dir rest : string) :
  allString inLine dir = true ->
  allString (fun c => negb (Ascii.eqb c "/")) rest = true ->
  lineCut (dir +:+ String "/" rest) = Some rest.
Proof.
  intros Hd Hr. induction dir as [|c dir IH].
  - rewrite append_nil. change (lineCut (String "/" rest))
      with (match lineCut rest with Some t => Some t | None => Some rest end).
    now rewrite (lineCut_none rest Hr).
  - simpl in Hd. apply andb_true_iff in Hd as [Hc Hd].
    rewrite append_cons. cbn [lineCut].
    unfold inLine in Hc. apply negb_true_iff in Hc. rewrite Hc.
    now rewrite (IH Hd).
Qed.

Lemma replaceDirs_dir (dir rest : string) :
  allString inLine dir = true ->
  allString (fun c => negb (Ascii.eqb c "/")) rest = true ->
  replaceDirs (dir +:+ String "/" rest) = rest.
Proof.
  intros Hd Hr.
  assert (E : forall s t, lineCut s = Some t -> replaceDirs s = t).
  { intros s t H. destruct s as [|c s]; [discriminate|].
    change (replaceDirs (String c s))
      with (match lineCut (String c s) with
            | Some t => t
            | None => String c (replaceDirs s)
            end).
    now rewrite H. }
  apply E, lineCut_dir; assumption.
Qed.

Lemma findLit_after (lit base : string) (c : ascii) :
  allString (fun x => negb (Ascii.eqb x c)) base = true ->
  findLit (String c lit) (base +:+ String c lit) = Some (base, "").
Proof.
  intros Hb. induction base as [|x base IH].
  - rewrite append_nil.
    assert (Hs : forall p, stripPrefix p p = Some "").
    { induction p as [|a p IHp]; [reflexivity|]. simpl. now rewrite Ascii.eqb_refl. }
    destruct lit; simpl; rewrite Ascii.eqb_refl; [reflexivity|].
    rewrite Ascii.eqb_refl.
    now rewrite Hs.
  - simpl in Hb. apply andb_true_iff in Hb as [Hx Hb]. apply negb_true_iff in Hx.
    rewrite append_cons.
    change (findLit (String c lit) (String x (base +:+ String c lit)))
      with (match (if Ascii.eqb c x then stripPrefix lit (base +:+ String c lit) else None) with
            | Some rest => Some ("", rest)
            | None =>
                match findLit (String c lit) (base +:+ String c lit) with
                | Some (b, a) => Some (String x b, a)
                | None => None
                end
            end).
    rewrite Ascii.eqb_sym, Hx. now rewrite (IH Hb).
Qed.

(** X28: the texts of the chart metadata.  The type is always given and
    is one of twelve names, so the analysis text always begins with that
    name in capitals and the word chart; unless the definition holds a
    three-dimensional area chart, the renderer draws the kind that the
    name stands for; the file name is kept as the image file; and for a
    part [dir/base.xml], with a base name without dot or slash, the sheet
    name is the base name. *)
Theorem chart_info_text (filename xml : string) :
  let info := parseChartXmlToInfo filename xml in
  (exists ty rest,
     ChartInfo.chartType info = Some ty /\ In ty CHART_TYPE_NAMES /\
     ChartInfo.analysis info = Some (toUpperCase ty +:+ " chart" +:+ rest) /\
     (includes "<c:area3DChart" xml = false ->
      chartType (parseChartXml xml) = kindOfName ty)) /\
  ChartInfo.imageFile info = Some filename /\
  (forall dir base,
     allString inLine dir = true -> allString plainNameChar base = true ->
     filename = dir +:+ "/" +:+ base +:+ ".xml" ->
     ChartInfo.sheetName info = base).
Proof.
  intros info. split; [|split; [reflexivity|]].
  - destruct (analysisText_prefix (chartTypeOf xml)
                (ChartInfo.title info) (ChartInfo.series info) (ChartInfo.xAxis info)
                (ChartInfo.yAxis info) (ChartInfo.dataRange info) (chartTypeOf_names xml))
      as [rest Hrest].
    exists (chartTypeOf xml), rest.
    split; [reflexivity|]. split; [apply chartTypeOf_names|]. split.
    + unfold info, parseChartXmlToInfo. cbn [ChartInfo.analysis]. f_equal. exact Hrest.
    + intros H3. rewrite chartType_parseChartXml. now apply kind_of_described.
  - intros dir base Hd Hb ->. unfold info, parseChartXmlToInfo. cbn [ChartInfo.sheetName].
    assert (Hns : allString (fun c => negb (Ascii.eqb c "/")) (base +:+ ".xml") = true).
    { rewrite allString_app. apply andb_true_iff. split; [|reflexivity].
      eapply allString_impl; [|exact Hb]. intros c Hc. unfold plainNameChar in Hc.
      apply andb_true_iff in Hc as [[_ Hc]%andb_true_iff _]. exact Hc. }
    change (dir +:+ "/" +:+ base +:+ ".xml") with (dir +:+ String "/" (base +:+ ".xml")).
    rewrite (replaceDirs_dir dir _ Hd Hns).
    unfold removeFirst.
    rewrite (findLit_after "xml" base ".").
    + apply append_empty_r.
    + eapply allString_impl; [|exact Hb]. intros c Hc. unfold plainNameChar in Hc.
      apply andb_true_iff in Hc as [_ Hc]. exact Hc.
Qed.

Lemma chart_info_text_witness :
  ChartInfo.sheetName (parseChartXmlToInfo "xl/charts/chart1.xml" salesXml) = "chart1".
Proof.
  destruct (chart_info_text "xl/charts/chart1.xml" salesXml) as (_ & _ & H).
  apply (H "xl/charts" "chart1"); reflexivity.
Defined.

(** ** The sheet behind the charts *)

Lemma find_first_long (wb : Workbook) :
  match List.find (fun '(_, data) => Nat.ltb 2 (length data)) wb with
  | Some (name, data) =>
      (2 < length data)%nat /\
      exists before after, wb = before ++ (name, data) :: after /\
        forall n d, In (n, d) before -> (length d <= 2)%nat
  | None => forall n d, In (n, d) wb -> (length d <= 2)%nat
  end.
Proof.
  induction wb as [|[n0 d0] wb IH]; simpl; [intros n d []|].
  destruct (Nat.ltb_spec 2 (length d0)) as [Hlt | Hge].
  - split; [exact Hlt|]. exists [], wb. split; [reflexivity | intros n d []].
  - destruct (List.find _ wb) as [[name data]|].
    + destruct IH as (Hlt & before & after & -> & Hb). split; [exact Hlt|].
      exists ((n0, d0) :: before), after. split; [reflexivity|].
      intros n d [[= <- <-] | Hin]; [exact Hge | now apply (Hb n d)].
    + intros n d [[= <- <-] | Hin]; [exact Hge | now apply (IH n d)].
Qed.

Section ChartStageFacts.
Context {host : Host}.

(** X29: the sheet behind the charts.  A grid handed to the renderer is
    that of the first sheet with more than two rows, a sheet with a name:
    every sheet before it has at most two rows.  When no sheet has more
    than two rows the grid is empty and no chart model is asked for,
    whatever the chart definition; and when every sheet has a name, the
    grid is empty only then. *)
Theorem chart_sheet_is_first_long (wb : Workbook) :
  (chartSheetData wb <> [] ->
   (2 < length (chartSheetData wb))%nat /\
   exists before name after,
     wb = before ++ (name, chartSheetData wb) :: after /\ name <> "" /\
     forall n d, In (n, d) before -> (length d <= 2)%nat) /\
  ((forall name data, In (name, data) wb -> (length data <= 2)%nat) ->
   chartSheetData wb = [] /\ forall chartXml, chartDataFor wb chartXml = None) /\
  ((forall name data, In (name, data) wb -> name <> "") ->
   chartSheetData wb = [] ->
   forall name data, In (name, data) wb -> (length data <= 2)%nat).
Proof.
  pose proof (find_first_long wb) as H.
  split; [|split].
  - intros Hne. unfold chartSheetData in *.
    destruct (List.find _ wb) as [[name data]|]; [|contradiction].
    destruct H as (Hlt & before & after & Hwb & Hb).
    destruct name as [|c name]; [contradiction|]. cbn [isEmpty] in *.
    split; [exact Hlt|].
    exists before, (String c name), after. split; [exact Hwb|]. split; [discriminate | exact Hb].
  - intros Hall.
    assert (E : chartSheetData wb = []).
    { unfold chartSheetData.
      destruct (List.find _ wb) as [[name data]|]; [|reflexivity].
      destruct H as (Hlt & before & after & Hwb & _).
      specialize (Hall name data). rewrite Hwb in Hall.
      specialize (Hall ltac:(apply in_app_iff; right; now left)). lia. }
    split; [exact E|]. intros chartXml. unfold chartDataFor. now rewrite E.
  - intros Hnames E. unfold chartSheetData in E.
    destruct (List.find _ wb) as [[name data]|]; [|exact H].
    destruct H as (Hlt & before & after & Hwb & _).
    assert (Hn : name <> "").
    { apply (Hnames name data). rewrite Hwb. apply in_app_iff. right. now left. }
    destruct name as [|c name]; [contradiction|]. cbn [isEmpty] in E.
    subst data. simpl in Hlt. lia.
Qed.

End ChartStageFacts.

Lemma chart_sheet_is_first_long_witness :
  chartDataFor (host := exampleHost) coverWorkbook salesXml = None.
Proof.
  destruct (chart_sheet_is_first_long (host := exampleHost) coverWorkbook) as (_ & H & _).
  apply H. intros name data Hin. vm_compute in Hin.
  repeat (destruct Hin as [[= <- <-] | Hin]; [vm_compute; lia|]). destruct Hin.
Defined.

(** ** Chart configuration *)

Lemma isKind_eq (a b : ChartKind) : isKind a b = true <-> a = b.
Proof. destruct a, b; simpl; split; congruence. Qed.

Lemma palette_lookup (i : nat) :
  exists c, CHART_COLORS !! (i mod length CHART_COLORS)%nat = Some c /\ c <> "".
Proof.
  assert (Hlt : (i mod length CHART_COLORS < 15)%nat)
    by (apply Nat.mod_upper_bound; discriminate).
  destruct (i mod length CHART_COLORS)%nat as [|[|[|[|[|[|[|[|[|[|[|[|[|[|[|n]]]]]]]]]]]]]]];
    try (eexists; split; [reflexivity | discriminate]).
  lia.
Qed.

(** X30: the configuration of a chart.  It has one dataset for each
    dataset of the chart, with the same label and numbers; the border
    colour is the colour of the series when it has one, otherwise the
    palette colour at its position, the palette of fifteen being used
    again from its start; on a pie or doughnut the background is the first
    palette colours, one for each number up to fifteen, on any other chart
    it is the border colour.  There are no axes exactly on a pie or
    doughnut; the index axis is the vertical one exactly on a horizontal
    bar chart; an area chart is drawn as a filled line chart. *)
Theorem chart_config_of_data (cd : ChartData) :
  let config := buildChartConfig cd in
  let isPieType := cdType cd = pie \/ cdType cd = doughnut in
  length (ChartJs.datasets config) = length (datasets cd) /\
  (forall i ds, datasets cd !! i = Some ds ->
     exists c, ChartJs.datasets config !! i = Some c /\
       ChartJs.label c = label ds /\ ChartJs.data c = data ds /\
       ChartJs.borderColor c <> "" /\
       ((exists col, dsColor ds = Some col /\ col <> "" /\ ChartJs.borderColor c = col) \/
        ((dsColor ds = None \/ dsColor ds = Some "") /\
         CHART_COLORS !! (i mod 15)%nat = Some (ChartJs.borderColor c))) /\
       (isPieType ->
        exists cs, ChartJs.backgroundColor c = ChartJs.Many cs /\
                   cs = take (length (data ds)) CHART_COLORS /\
                   length cs = Nat.min (length (data ds)) 15) /\
       (~ isPieType -> ChartJs.backgroundColor c = ChartJs.One (ChartJs.borderColor c)) /\
       (ChartJs.fill c = true <-> cdType cd = area)) /\
  (ChartJs.scales config = None <-> isPieType) /\
  (ChartJs.indexAxis config = "y" <-> cdHorizontal cd = true /\ cdType cd = bar) /\
  (ChartJs.type config = ChartJs.line <-> cdType cd = line \/ cdType cd = area).
Proof.
  intros config isPieType.
  assert (Hpie : isKind (cdType cd) pie || isKind (cdType cd) doughnut = true <-> isPieType).
  { unfold isPieType. rewrite orb_true_iff, !isKind_eq. tauto. }
  split; [apply length_imap|]. split; [|split; [|split]].
  - intros i ds Hi. unfold config, buildChartConfig. cbn [ChartJs.datasets].
    rewrite list_lookup_imap, Hi. simpl option_map. eexists. split; [reflexivity|].
    cbn [ChartJs.label ChartJs.data ChartJs.borderColor ChartJs.backgroundColor ChartJs.fill].
    split; [reflexivity|]. split; [reflexivity|].
    destruct (palette_lookup i) as (c & Hc & Hne).
    assert (Hbase :
      (exists col, dsColor ds = Some col /\ col <> "" /\ baseColorOf i ds = col) \/
      ((dsColor ds = None \/ dsColor ds = Some "") /\
       CHART_COLORS !! (i mod 15)%nat = Some (baseColorOf i ds))).
    { unfold baseColorOf. rewrite Hc. simpl default.
      destruct (dsColor ds) as [[|a col]|].
      - right. split; [now right | exact Hc].
      - left. exists (String a col). now repeat split.
      - right. split; [now left | exact Hc]. }
    split; [|split; [exact Hbase|split; [|split]]].
    + destruct Hbase as [(col & _ & Hcol & ->) | [_ Hb]]; [exact Hcol|].
      change (length CHART_COLORS) with 15%nat in Hc. rewrite Hc in Hb.
      injection Hb as <-. exact Hne.
    + intros Hp. apply Hpie in Hp. rewrite Hp. eexists. split; [reflexivity|].
      split; [reflexivity|]. rewrite length_take. reflexivity.
    + intros Hp. destruct (isKind (cdType cd) pie || isKind (cdType cd) doughnut);
        [exfalso; apply Hp, Hpie; reflexivity | reflexivity].
    + apply isKind_eq.
  - unfold config, buildChartConfig. cbn [ChartJs.scales]. rewrite <- Hpie.
    destruct (isKind (cdType cd) pie || isKind (cdType cd) doughnut); split; congruence.
  - unfold config, buildChartConfig. cbn [ChartJs.indexAxis].
    rewrite <- isKind_eq, <- andb_true_iff.
    destruct (cdHorizontal cd && isKind (cdType cd) bar); split; congruence.
  - unfold config, buildChartConfig. cbn [ChartJs.type].
    destruct (cdType cd); simpl; split; intros H; try discriminate; auto;
      destruct H; discriminate.
Qed.

Lemma chart_config_of_data_witness :
  exists c, ChartJs.datasets (buildChartConfig salesChart) !! 1%nat = Some c /\
            ChartJs.borderColor c = "#ED7D31".
Proof.
  destruct (chart_config_of_data salesChart) as (_ & H & _).
  destruct (H 1%nat {| label := "Series"; data := map ofZ [1; 2; 3]; dsColor := None |}
              eq_refl) as (c & Hc & _ & _ & _ & Hcol & _).
  exists c. split; [exact Hc|].
  destruct Hcol as [(col & Hd & _) | [_ Hp]]; [discriminate|].
  change (Some "#ED7D31" = Some (ChartJs.borderColor c)) in Hp. congruence.
Defined.
